(** * BAR: backup and restore of the OBS Studio configuration directory

    A shallow embedding of [BAR.py].  The script copies the files of the
    configuration directory into a time-stamped bundle (on disk or in a
    GitHub repository) and writes such a bundle back over the configuration
    directory.  The embedding keeps the structure of the script:

    - Python strings are [string]s, [bytes] objects are lists of bytes;
    - a [pathlib.Path] is the list of its components below the filesystem
      root, and the filesystem is a tree whose directories are finite maps
      from names to nodes;
    - code that reads or writes the disk, the log, the settings cache or the
      network is a computation in a state-and-exception monad [M] over a
      record [world]; a Python exception is a value of type [exn];
    - the two unbounded [while] loops take a fuel argument. *)

From Stdlib Require Import ZArith Ascii String.
From Stdlib Require Import Strings.Byte.
From stdpp Require Import gmap strings list pretty.

Set Warnings "-register-all,-clear-no-such-hyp".
Set Default Proof Using "Type".

Local Open Scope string_scope.
Local Open Scope list_scope.

(** ** Strings *)

(** [s.startswith(pre)] *)
Definition startswith (pre s : string) : bool := String.prefix pre s.

(** [s.endswith(suf)] *)
Definition endswith (suf s : string) : bool :=
  String.prefix (String.rev suf) (String.rev s).

(** [s.lstrip(chars)] and [s.rstrip(chars)], the characters given by a
    test; the trailing run is dropped from the right. *)
Fixpoint lstrip_with (p : ascii → bool) (s : string) : string :=
  match s with
  | String a t => if p a then lstrip_with p t else s
  | EmptyString => EmptyString
  end.

Fixpoint rstrip_with (p : ascii → bool) (s : string) : string :=
  match s with
  | EmptyString => EmptyString
  | String a t =>
      let t' := rstrip_with p t in
      if p a && String.eqb t' "" then "" else String a t'
  end.

Definition is_slash (a : ascii) : bool := Ascii.eqb a "/".

(** Space, tab, line feed, vertical tab, form feed, carriage return. *)
Definition is_space (a : ascii) : bool :=
  let n := nat_of_ascii a in
  Nat.eqb n 32 || ((9 <=? n)%nat && (n <=? 13)%nat).

(** [s.lstrip("/")], [s.rstrip("/")], [s.strip("/")] and [s.strip()] *)
Definition lstrip_slash (s : string) : string := lstrip_with is_slash s.
Definition rstrip_slash (s : string) : string := rstrip_with is_slash s.
Definition strip_slash (s : string) : string := lstrip_slash (rstrip_slash s).
Definition strip_space (s : string) : string :=
  lstrip_with is_space (rstrip_with is_space s).

(** [s[n:]] *)
Fixpoint str_drop (n : nat) (s : string) : string :=
  match n, s with
  | O, _ => s
  | S k, String _ t => str_drop k t
  | S _, EmptyString => EmptyString
  end.

(** [sep.join(parts)] *)
Definition str_join (sep : string) (parts : list string) : string :=
  String.concat sep parts.

(** [s.split("/")]: never empty, ["a//b"] gives ["a"; ""; "b"]. *)
Fixpoint split_slash (s : string) : list string :=
  match s with
  | EmptyString => [""]
  | String a t =>
      if Ascii.eqb a "/" then "" :: split_slash t
      else match split_slash t with
           | h :: r => String a h :: r
           | [] => [String a ""]
           end
  end.

(** [c in s] for a character [c] *)
Fixpoint str_mem (c : ascii) (s : string) : bool :=
  match s with
  | EmptyString => false
  | String a t => Ascii.eqb a c || str_mem c t
  end.

(** ASCII lower-casing, as [str.lower] does on ASCII text. *)
Definition ascii_lower (a : ascii) : ascii :=
  let n := nat_of_ascii a in
  if (65 <=? n)%nat && (n <=? 90)%nat then ascii_of_nat (n + 32) else a.

Fixpoint str_lower (s : string) : string :=
  match s with
  | EmptyString => EmptyString
  | String a t => String (ascii_lower a) (str_lower t)
  end.

(** ** Exceptions and results *)

(** The exception classes the script raises or meets; all of them derive
    from [Exception].  [HTTPError] carries the status code, the decoded body
    when it can be read and decoded, and [str(e)]. *)
Inductive exn : Type :=
  | RuntimeError (msg : string)
  | FileNotFoundError (msg : string)
  | FileExistsError (msg : string)
  | NotADirectoryError (msg : string)
  | IsADirectoryError (msg : string)
  | OSError (msg : string)
  | HTTPError (code : Z) (body : option string) (str_e : string)
  | URLError (reason : string)
  | ValueError (msg : string)
  | TypeError (msg : string)
  | AttributeError (msg : string).

(** [str(e)] *)
Definition exn_str (e : exn) : string :=
  match e with
  | RuntimeError m | FileNotFoundError m | FileExistsError m
  | NotADirectoryError m | IsADirectoryError m | OSError m
  | URLError m | ValueError m | TypeError m | AttributeError m => m
  | HTTPError _ _ s => s
  end.

Inductive result (A : Type) : Type :=
  | Ok (a : A)
  | Raise (e : exn).
Arguments Ok {A} a.
Arguments Raise {A} e.

Global Instance result_ret : MRet result := @Ok.
Global Instance result_bind : MBind result :=
  λ A B f r, match r with Ok a => f a | Raise e => Raise e end.

Definition is_ok {A} (r : result A) : bool :=
  match r with Ok _ => true | Raise _ => false end.

(** ** Python values: settings and decoded JSON *)

Inductive pyval : Type :=
  | PNone
  | PBool (b : bool)
  | PInt (z : Z)
  | PStr (s : string)
  | PList (l : list pyval)
  | PDict (d : gmap string pyval).

(** [bool(v)] *)
Definition truthy (v : pyval) : bool :=
  match v with
  | PNone => false
  | PBool b => b
  | PInt z => negb (z =? 0)%Z
  | PStr s => negb (String.eqb s "")
  | PList l => match l with [] => false | _ => true end
  | PDict d => negb (Nat.eqb (size d) 0)
  end.

(** [v.get(key)]: only a dict has the method. *)
Definition py_get (v : pyval) (key : string) : result pyval :=
  match v with
  | PDict d => Ok (default PNone (d !! key))
  | _ => Raise (AttributeError "object has no attribute 'get'")
  end.

(** [v == s] for a string literal [s] *)
Definition py_eq_str (v : pyval) (s : string) : bool :=
  match v with PStr x => String.eqb x s | _ => false end.

(** ** Paths and the filesystem tree *)

Definition bytes := list byte.

(** A path is the list of its components below the filesystem root. *)
Definition path := list string.

Inductive node : Type :=
  | File (data : bytes)
  | Dir (entries : gmap string node).

(** [Path(s)]: the parts of [s], empty parts and ["."] dropped.  The script
    only builds paths with the forward slash; a [".."] part is kept as a
    name and never resolved. *)
Definition parts_of (s : string) : path :=
  filter (λ c, c ≠ "" ∧ c ≠ ".") (split_slash s).

(** [base / s] *)
Definition path_join (base : path) (s : string) : path :=
  if startswith "/" s then parts_of s else base ++ parts_of s.

(** [p.as_posix()] for a relative path *)
Definition as_posix (p : path) : string := str_join "/" p.

(** [p.parent] and [p.name] *)
Definition parent (p : path) : path := removelast p.
Definition name (p : path) : string := List.last p "".

(** [p.suffix]: the part of the name from its last dot, when that dot is
    neither the first nor the last character of the name. *)
Fixpoint suffix_from (s : string) : option string :=
  match s with
  | EmptyString => None
  | String a t =>
      match suffix_from t with
      | Some r => Some r
      | None => if Ascii.eqb a "." then Some s else None
      end
  end.

Definition path_suffix (p : path) : string :=
  match name p with
  | EmptyString => ""
  | String _ t =>
      match suffix_from t with
      | Some (String _ EmptyString) | None => ""
      | Some s => s
      end
  end.

(** [p.relative_to(base)] *)
Fixpoint relative_to (base p : path) : result path :=
  match base, p with
  | [], _ => Ok p
  | b :: base', c :: p' =>
      if String.eqb b c then relative_to base' p'
      else Raise (ValueError "path is not in the subpath")
  | _ :: _, [] => Raise (ValueError "path is not in the subpath")
  end.

(** The node a path leads to, if any. *)
Fixpoint resolve (n : node) (p : path) : option node :=
  match p with
  | [] => Some n
  | c :: q =>
      match n with
      | Dir es => es !! c ≫= λ ch, resolve ch q
      | File _ => None
      end
  end.

Definition lookup_path (t : gmap string node) (p : path) : option node :=
  resolve (Dir t) p.

(** [p.exists()], [p.is_dir()], [p.is_file()] *)
Definition path_exists (t : gmap string node) (p : path) : bool :=
  match lookup_path t p with Some _ => true | None => false end.
Definition is_dir (t : gmap string node) (p : path) : bool :=
  match lookup_path t p with Some (Dir _) => true | _ => false end.
Definition is_file (t : gmap string node) (p : path) : bool :=
  match lookup_path t p with Some (File _) => true | _ => false end.

(** The bytes of the regular file at [p], if there is one. *)
Definition file_at (t : gmap string node) (p : path) : option bytes :=
  match lookup_path t p with Some (File d) => Some d | _ => None end.

(** Descend to the directory [p] and change its entries with [f]; with
    [create], missing directories on the way are made. *)
Fixpoint at_dir (create : bool) (p : path)
    (f : gmap string node → result (gmap string node))
    (t : gmap string node) : result (gmap string node) :=
  match p with
  | [] => f t
  | c :: q =>
      match t !! c with
      | Some (Dir es) => r ← at_dir create q f es; Ok (<[c := Dir r]> t)
      | Some (File _) => Raise (NotADirectoryError c)
      | None =>
          if create then r ← at_dir create q f ∅; Ok (<[c := Dir r]> t)
          else Raise (FileNotFoundError c)
      end
  end.

(** [p.mkdir(parents=True, exist_ok=True)] *)
Definition mkdir_p (p : path) (t : gmap string node) :
    result (gmap string node) :=
  match at_dir true p Ok t with
  | Ok t' => Ok t'
  | Raise e =>
      if is_file t p then Raise (FileExistsError (as_posix p)) else Raise e
  end.

(** [open(p, "rb").read()] *)
Definition read_file (p : path) (t : gmap string node) : result bytes :=
  match lookup_path t p with
  | Some (File d) => Ok d
  | Some (Dir _) => Raise (IsADirectoryError (as_posix p))
  | None => Raise (FileNotFoundError (as_posix p))
  end.

(** [open(p, "wb").write(data)]: the parent must be a directory, the file is
    created or truncated. *)
Definition write_file (p : path) (data : bytes) (t : gmap string node) :
    result (gmap string node) :=
  match p with
  | [] => Raise (IsADirectoryError "/")
  | _ =>
      at_dir false (parent p)
        (λ es, match es !! name p with
               | Some (Dir _) => Raise (IsADirectoryError (as_posix p))
               | _ => Ok (<[name p := File data]> es)
               end) t
  end.

(** [p.unlink()] *)
Definition unlink (p : path) (t : gmap string node) :
    result (gmap string node) :=
  match p with
  | [] => Raise (IsADirectoryError "/")
  | _ =>
      at_dir false (parent p)
        (λ es, match es !! name p with
               | Some (File _) => Ok (delete (name p) es)
               | Some (Dir _) => Raise (IsADirectoryError (as_posix p))
               | None => Raise (FileNotFoundError (as_posix p))
               end) t
  end.

(** [shutil.rmtree(p, ignore_errors=True)]: a directory goes with all it
    holds; on anything else the error is swallowed and nothing changes. *)
Definition rmtree_ignore (p : path) (t : gmap string node) :
    gmap string node :=
  match p with
  | [] => t
  | _ =>
      if is_dir t p then
        match at_dir false (parent p) (λ es, Ok (delete (name p) es)) t with
        | Ok t' => t'
        | Raise _ => t
        end
      else t
  end.

(** [shutil.copytree(src, dst)]: [src] must be a directory and [dst] must
    not exist; missing parents of [dst] are made. *)
Definition copytree (src dst : path) (t : gmap string node) :
    result (gmap string node) :=
  match lookup_path t src with
  | Some (Dir es) =>
      if path_exists t dst then Raise (FileExistsError (as_posix dst))
      else at_dir true (parent dst) (λ ds, Ok (<[name dst := Dir es]> ds)) t
  | Some (File _) => Raise (NotADirectoryError (as_posix src))
  | None => Raise (FileNotFoundError (as_posix src))
  end.

(** [shutil.copy2(src, dst)]; a directory as [dst] receives the file under
    the source's name.  Metadata is not part of the model. *)
Definition copy2 (src dst : path) (t : gmap string node) :
    result (gmap string node) :=
  data ← read_file src t;
  if is_dir t dst then write_file (dst ++ [name src]) data t
  else write_file dst data t.

(** ** The world the script runs in *)

Inductive level : Type := LOG_INFO | LOG_WARNING | LOG_ERROR.

(** A value of the settings cache [_shadow_settings]: [script_update] stores
    strings and booleans. *)
Inductive setting : Type :=
  | SStr (s : string)
  | SBool (b : bool).

(** An HTTP request as [urllib.request.Request] holds it: the bearer token
    of the [Authorization] header and the JSON document of the body. *)
Record request : Type := mk_request {
  rq_method : string;
  rq_url : string;
  rq_token : string;
  rq_json : option pyval;
  rq_timeout : nat
}.

(** What [urlopen] followed by [json.loads(resp.read().decode("utf-8"))]
    delivers: a response whose body is the decoded JSON value, or is not
    JSON; an [HTTPError]; any other failure of the transport. *)
Inductive http_outcome : Type :=
  | Response (body : option pyval)
  | HTTPFailure (code : Z) (body : option string) (str_e : string)
  | NetFailure (e : exn).

Record world : Type := mk_world {
  w_platform : string;                 (* sys.platform *)
  w_environ : gmap string string;      (* os.environ *)
  w_home : path;                       (* Path.home() *)
  w_node : result string;              (* platform.node() *)
  w_now : string;                      (* time.strftime("%Y%m%d-%H%M%S") *)
  w_tmp : path;                        (* the name tempfile picks *)
  w_b64encode : bytes → string;        (* base64.b64encode(..).decode() *)
  w_b64decode : pyval → result bytes;  (* base64.b64decode *)
  w_unzip : bytes → result (gmap string node);  (* zipfile: the archive's tree *)
  w_http : list request → request → http_outcome;  (* the remote, given the requests so far *)
  w_fs : gmap string node;             (* the disk *)
  w_log : list (level * string);       (* the lines written to the log, oldest first *)
  w_shadow : gmap string setting;      (* _shadow_settings *)
  w_sent : list request;               (* requests sent so far, oldest first *)
  w_remote_files : list pyval;         (* g_remote_files *)
  w_remote_list : option (list (pyval * pyval));  (* the items of the remote-backup list of the panel, when it exists *)
  w_repo_list : option (list (string * string))  (* the items of the repository list of the panel, when it exists *)
}.

Definition set_fs (t : gmap string node) (w : world) : world :=
  mk_world (w_platform w) (w_environ w) (w_home w) (w_node w) (w_now w)
    (w_tmp w) (w_b64encode w) (w_b64decode w) (w_unzip w) (w_http w)
    t (w_log w) (w_shadow w) (w_sent w) (w_remote_files w) (w_remote_list w) (w_repo_list w).

Definition add_log (l : level) (msg : string) (w : world) : world :=
  mk_world (w_platform w) (w_environ w) (w_home w) (w_node w) (w_now w)
    (w_tmp w) (w_b64encode w) (w_b64decode w) (w_unzip w) (w_http w)
    (w_fs w) (w_log w ++ [(l, msg)]) (w_shadow w) (w_sent w)
    (w_remote_files w) (w_remote_list w) (w_repo_list w).

Definition set_shadow (s : gmap string setting) (w : world) : world :=
  mk_world (w_platform w) (w_environ w) (w_home w) (w_node w) (w_now w)
    (w_tmp w) (w_b64encode w) (w_b64decode w) (w_unzip w) (w_http w)
    (w_fs w) (w_log w) s (w_sent w) (w_remote_files w) (w_remote_list w) (w_repo_list w).

Definition add_sent (r : request) (w : world) : world :=
  mk_world (w_platform w) (w_environ w) (w_home w) (w_node w) (w_now w)
    (w_tmp w) (w_b64encode w) (w_b64decode w) (w_unzip w) (w_http w)
    (w_fs w) (w_log w) (w_shadow w) (w_sent w ++ [r])
    (w_remote_files w) (w_remote_list w) (w_repo_list w).

Definition set_remote (files : list pyval)
    (items : option (list (pyval * pyval))) (w : world) : world :=
  mk_world (w_platform w) (w_environ w) (w_home w) (w_node w) (w_now w)
    (w_tmp w) (w_b64encode w) (w_b64decode w) (w_unzip w) (w_http w)
    (w_fs w) (w_log w) (w_shadow w) (w_sent w) files items (w_repo_list w).

Definition set_repo_list (items : list (string * string)) (w : world) : world :=
  mk_world (w_platform w) (w_environ w) (w_home w) (w_node w) (w_now w)
    (w_tmp w) (w_b64encode w) (w_b64decode w) (w_unzip w) (w_http w)
    (w_fs w) (w_log w) (w_shadow w) (w_sent w) (w_remote_files w)
    (w_remote_list w) (Some items).

(** ** The monad of the script's code *)

(** A computation runs in a world and ends in a value or an exception; what
    it did to the world before raising stays done. *)
Definition M (A : Type) : Type := world → result A * world.

Definition ret {A} (a : A) : M A := λ w, (Ok a, w).

Definition raise {A} (e : exn) : M A := λ w, (Raise e, w).

Definition bind {A B} (c : M A) (k : A → M B) : M B :=
  λ w, match c w with
       | (Ok a, w') => k a w'
       | (Raise e, w') => (Raise e, w')
       end.

Notation "'let*' x := c 'in' k" := (bind c (λ x, k))
  (at level 10, x pattern, c at level 100, k at level 200,
   format "'[v' 'let*'  x  :=  c  'in' '/' k ']'").

(** [try: c except Exception as e: h e] *)
Definition try_except {A} (c : M A) (h : exn → M A) : M A :=
  λ w, match c w with
       | (Ok a, w') => (Ok a, w')
       | (Raise e, w') => h e w'
       end.

(** [try: c finally: f] *)
Definition try_finally {A} (c : M A) (f : M unit) : M A :=
  λ w, match c w with
       | (r, w') =>
           match f w' with
           | (Ok _, w'') => (r, w'')
           | (Raise e, w'') => (Raise e, w'')
           end
       end.

(** [for x in l: body x] *)
Fixpoint for_each {A} (l : list A) (body : A → M unit) : M unit :=
  match l with
  | [] => ret tt
  | x :: r => let* _ := body x in for_each r body
  end.

(** Reading the world, and a result computed from it. *)
Definition ask {A} (f : world → A) : M A := λ w, (Ok (f w), w).
Definition ask_result {A} (f : world → result A) : M A := λ w, (f w, w).

(** A filesystem call that can fail, and one that cannot. *)
Definition fs_try (f : gmap string node → result (gmap string node)) :
    M unit :=
  λ w, match f (w_fs w) with
       | Ok t => (Ok tt, set_fs t w)
       | Raise e => (Raise e, w)
       end.
Definition fs_do (f : gmap string node → gmap string node) : M unit :=
  λ w, (Ok tt, set_fs (f (w_fs w)) w).

(** ** Logging, time, host *)

(** [_log]: the line goes to the host's log, or to standard output when the
    host's call fails; either way it is written and nothing is raised. *)
Definition _log (l : level) (msg : string) : M unit :=
  λ w, (Ok tt, add_log l msg w).

Definition info (msg : string) : M unit := _log LOG_INFO msg.
Definition warn (msg : string) : M unit := _log LOG_WARNING msg.
Definition err (msg : string) : M unit := _log LOG_ERROR msg.

Definition now_stamp (w : world) : string := w_now w.

Definition hostname (w : world) : string :=
  match w_node w with
  | Ok s => if String.eqb s "" then "host" else s
  | Raise _ => "host"
  end.

(** [str(p)] of an absolute path *)
Definition path_str (p : path) : string := "/" +:+ as_posix p.

(** ** Locating the configuration directory *)

Definition get_obs_config_dir (w : world) : result path :=
  if startswith "win" (w_platform w) then
    match w_environ w !! "APPDATA" with
    | Some appdata =>
        if String.eqb appdata "" then
          Raise (RuntimeError "APPDATA not set; cannot locate OBS config")
        else Ok (path_join (parts_of appdata) "obs-studio")
    | None => Raise (RuntimeError "APPDATA not set; cannot locate OBS config")
    end
  else if String.eqb (w_platform w) "darwin" then
    Ok (path_join (path_join (path_join (w_home w) "Library")
                             "Application Support") "obs-studio")
  else
    match w_environ w !! "XDG_CONFIG_HOME" with
    | Some xdg =>
        if String.eqb xdg "" then
          Ok (path_join (path_join (w_home w) ".config") "obs-studio")
        else Ok (path_join (parts_of xdg) "obs-studio")
    | None => Ok (path_join (path_join (w_home w) ".config") "obs-studio")
    end.

(** ** The walker *)

Definition _excluded_dirs (include_logs include_cache : bool) : gset string :=
  let excludes : gset string :=
    {[ "crashes"; "plugin_config/cef_cache"; "cache" ]} in
  let excludes := if negb include_logs then excludes ∪ {[ "logs" ]}
                  else excludes in
  if include_cache then (excludes ∖ {[ "cache" ]}) ∖ {[ "plugin_config/cef_cache" ]}
  else excludes.

(** The test of the inner loop of [iter_obs_files] on the directory [d]
    found in the directory whose path below the configuration root is
    [root_rel]. *)
Definition excluded_by (ex rel d : string) : bool :=
  String.eqb rel ex || startswith (rstrip_slash ex +:+ "/") rel
  || String.eqb d ex.

Definition pruned (excludes : gset string) (root_rel : path) (d : string) :
    bool :=
  startswith "." d
  || existsb (λ ex, excluded_by ex (as_posix (root_rel ++ [d])) d)
       (elements excludes).

(** Files the walker leaves out by their extension. *)
Definition skipped_file (f : string) : bool :=
  endswith ".tmp" f || endswith ".lock" f.

(** [os.walk(cfg)] with the body of the loop of [iter_obs_files]: at the
    directory [n], reached below the configuration root by [root_rel], the
    pruned directories are taken out of [dirs], the files of the directory
    are yielded, and the walk goes on in the directories that are left. *)
Fixpoint walk (excludes : gset string) (cfg root_rel : path) (n : node) :
    list (string * path) :=
  match n with
  | File _ => []
  | Dir es =>
      map_fold (λ f c acc,
          match c with
          | File _ =>
              if skipped_file f then acc
              else (as_posix (root_rel ++ [f]), cfg ++ root_rel ++ [f]) :: acc
          | Dir _ => acc
          end) [] es
      ++ map_fold (λ d c acc,
          match c with
          | Dir _ =>
              if pruned excludes root_rel d then acc
              else walk excludes cfg (root_rel ++ [d]) c ++ acc
          | File _ => acc
          end) [] es
  end.

(** [iter_obs_files]: the pairs [(rel, p)] in the order they are yielded.
    The generator raises before its first item or not at all.  The walk is
    taken on the tree as it is when the iteration starts, which is what the
    generator sees as long as nothing is written below the configuration
    root while it runs. *)
Definition iter_obs_files (include_logs include_cache : bool) (w : world) :
    result (list (string * path)) :=
  cfg ← get_obs_config_dir w;
  match lookup_path (w_fs w) cfg with
  | None => Raise (FileNotFoundError ("OBS config not found at " +:+ path_str cfg))
  | Some n => Ok (walk (_excluded_dirs include_logs include_cache) cfg [] n)
  end.

(** ** Local backup *)

Definition make_backup_folder_name (w : world) : string :=
  "obs-config-" +:+ hostname w +:+ "-" +:+ now_stamp w.

Definition ensure_parent (p : path) : M unit := fs_try (mkdir_p (parent p)).

(** The body of the loop of [create_local_backup_folder]. *)
Definition copy_item (target_root : path) (item : string * path) : M unit :=
  let '(rel, src) := item in
  let dest := path_join target_root rel in
  let* _ := ensure_parent dest in
  fs_try (copy2 src dest).

Definition create_local_backup_folder (base_dir : path)
    (include_logs include_cache : bool) : M path :=
  let* cfg := ask_result get_obs_config_dir in
  let* _ := fs_try (mkdir_p base_dir) in
  let* folder_name := ask make_backup_folder_name in
  let backup_root := path_join base_dir folder_name in
  let target_root := path_join backup_root "obs-studio" in
  let* items := ask_result (iter_obs_files include_logs include_cache) in
  let* _ := for_each items (copy_item target_root) in
  ret backup_root.

(** ** The settings cache *)

Definition K_DEST_TYPE := "dest_type".
Definition K_LOCAL_DIR := "local_dir".
Definition K_GH_TOKEN := "github_token".
Definition K_GH_BRANCH := "github_branch".
Definition K_GH_FOLDER := "github_folder".
Definition K_GH_REPO_SELECT := "github_repo_select".
Definition K_INCLUDE_LOGS := "include_logs".
Definition K_INCLUDE_CACHE := "include_cache".
Definition K_RESTORE_LOCAL_PATH := "restore_local_path".
Definition K_REMOTE_SELECT := "remote_select".

(** [g_get_str(k, default)]: [str(v)] of the cached value. *)
Definition g_get_str (k default : string) (w : world) : string :=
  match w_shadow w !! k with
  | Some (SStr s) => s
  | Some (SBool b) => if b then "True" else "False"
  | None => default
  end.

(** [g_get_bool(k, default)]: [bool(v)] of the cached value. *)
Definition g_get_bool (k : string) (default : bool) (w : world) : bool :=
  match w_shadow w !! k with
  | Some (SStr s) => negb (String.eqb s "")
  | Some (SBool b) => b
  | None => default
  end.

Definition g_set (k : string) (v : setting) : M unit :=
  λ w, (Ok tt, set_shadow (<[k := v]> (w_shadow w)) w).

(** [_gh_join]: the non-empty parts, each without its outer slashes. *)
Definition _gh_join (parts : list string) : string :=
  str_join "/"
    (filter (λ s, s ≠ "")
       (map strip_slash (filter (λ p, p ≠ "") parts))).

(** ** The GitHub client *)

(** [urllib.parse.quote]: letters, digits and [_.-~/] stay, any other byte
    becomes [%XX]. *)
Definition quote_safe (a : ascii) : bool :=
  let n := nat_of_ascii a in
  ((48 <=? n)%nat && (n <=? 57)%nat) || ((65 <=? n)%nat && (n <=? 90)%nat)
  || ((97 <=? n)%nat && (n <=? 122)%nat) || str_mem a "_.-~/".

Definition hex_digit (n : nat) : ascii :=
  if (n <? 10)%nat then ascii_of_nat (48 + n) else ascii_of_nat (55 + n).

Fixpoint quote (s : string) : string :=
  match s with
  | EmptyString => EmptyString
  | String a t =>
      if quote_safe a then String a (quote t)
      else
        let n := nat_of_ascii a in
        String "%" (String (hex_digit (n / 16))
                      (String (hex_digit (n mod 16)) (quote t)))
  end.

(** [parse.quote(v) if v else ""] for a value that should be a string *)
Definition quote_path (v : pyval) : result string :=
  if truthy v then
    match v with
    | PStr s => Ok (quote s)
    | _ => Raise (TypeError "quote_from_bytes() expected bytes")
    end
  else Ok "".

Record GitHubClient : Type := mk_client {
  token : string;
  base : string
}.

(** [GitHubClient(token)] *)
Definition new_client (tok : string) : GitHubClient :=
  mk_client (strip_space tok) "https://api.github.com".

(** [request.urlopen(req, timeout)] and the decoding of the answer. *)
Definition urlopen (req : request) : M http_outcome :=
  λ w, (Ok (w_http w (w_sent w) req), add_sent req w).

(** The message of the [RuntimeError] raised for an [HTTPError]:
    [detail] is the body, or [str(e)] when the body cannot be read. *)
Definition http_failed (what : string) (code : Z) (body : option string)
    (str_e : string) : exn :=
  RuntimeError (what +:+ pretty code +:+ " " +:+ default str_e body).

(** The address of [path_in_repo] at [branch] in the contents API. *)
Definition contents_url (c : GitHubClient) (owner_repo branch : string)
    (path_in_repo : pyval) : result string :=
  quoted ← quote_path path_in_repo;
  let url := base c +:+ "/repos/" +:+ owner_repo +:+ "/contents" in
  let url := if String.eqb quoted "" then url else url +:+ "/" +:+ quoted in
  Ok (url +:+ "?ref=" +:+ quote (if String.eqb branch "" then "main" else branch)).

Definition put_file (c : GitHubClient) (owner_repo branch path_in_repo : string)
    (content_bytes : bytes) (message : string) : M pyval :=
  let url := base c +:+ "/repos/" +:+ owner_repo +:+ "/contents/"
             +:+ quote path_in_repo in
  let* content := ask (λ w, w_b64encode w content_bytes) in
  let data := PDict (<["message" := PStr message]>
                    (<["content" := PStr content]>
                    (<["branch" := PStr (if String.eqb branch "" then "main"
                                         else branch)]> ∅))) in
  let* out := urlopen (mk_request "PUT" url (token c) (Some data) 60) in
  match out with
  | Response (Some v) => ret v
  | Response None => raise (ValueError "Expecting value")
  | HTTPFailure code body str_e =>
      raise (http_failed "GitHub upload failed: " code body str_e)
  | NetFailure e => raise e
  end.

(** What [list_dir] makes of the answer to its request. *)
Definition list_dir_result (out : http_outcome) : result (list pyval) :=
  match out with
  | Response (Some (PList l)) => Ok l
  | Response (Some data) => Ok [data]
  | Response None => Raise (ValueError "Expecting value")
  | HTTPFailure code body str_e =>
      if (code =? 404)%Z then Ok []
      else Raise (http_failed "GitHub list failed: " code body str_e)
  | NetFailure e => Raise e
  end.

Definition list_dir (c : GitHubClient) (owner_repo branch : string)
    (path_in_repo : pyval) : M (list pyval) :=
  let* url := ask_result (λ _, contents_url c owner_repo branch path_in_repo) in
  let* out := urlopen (mk_request "GET" url (token c) None 30) in
  ask_result (λ _, list_dir_result out).

Definition get_file_content_b64 (c : GitHubClient) (owner_repo branch : string)
    (path_in_repo : pyval) : M (pyval * pyval) :=
  let* url := ask_result (λ _, contents_url c owner_repo branch path_in_repo) in
  let* out := urlopen (mk_request "GET" url (token c) None 60) in
  match out with
  | Response (Some (PDict d)) =>
      if py_eq_str (default PNone (d !! "encoding")) "base64"
      then ret (default (PStr "") (d !! "content"), PDict d)
      else raise (RuntimeError "Unexpected content response from GitHub")
  | Response (Some _) =>
      raise (RuntimeError "Unexpected content response from GitHub")
  | Response None => raise (ValueError "Expecting value")
  | HTTPFailure code body str_e =>
      raise (http_failed "GitHub download failed: " code body str_e)
  | NetFailure e => raise e
  end.

(** The items [repos.extend(data)] appends. *)
Definition py_iter (v : pyval) : result (list pyval) :=
  match v with
  | PList l => Ok l
  | PDict d => Ok (map (λ kv, PStr kv.1) (map_to_list d))
  | PStr s => Ok (map (λ a, PStr (String a "")) (list_ascii_of_string s))
  | _ => Raise (TypeError "object is not iterable")
  end.

(** One turn of the loop of [list_user_repos]: the answer to the request
    for [page] ends the loop with the repositories collected ([inl]), or
    adds a page to them ([inr]), or raises. *)
Definition repos_page (out : http_outcome) (repos : list pyval) :
    result (list pyval + list pyval) :=
  match out with
  | Response (Some data) =>
      if truthy data then items ← py_iter data; Ok (inr (repos ++ items))
      else Ok (inl repos)
  | Response None => Raise (ValueError "Expecting value")
  | HTTPFailure code body str_e =>
      Raise (http_failed "GitHub repo list failed: " code body str_e)
  | NetFailure e => Raise e
  end.

Definition repos_url (c : GitHubClient) (page : nat) : string :=
  base c +:+ "/user/repos?per_page=100&page=" +:+ pretty page
  +:+ "&type=all&sort=full_name".

(** [list_user_repos], from [page] on with [repos] collected so far; [None]
    when the fuel runs out before an empty page is met. *)
Fixpoint list_user_repos_from (fuel : nat) (c : GitHubClient) (page : nat)
    (repos : list pyval) : M (option (list pyval)) :=
  match fuel with
  | O => ret None
  | S fuel' =>
      let* out := urlopen (mk_request "GET" (repos_url c page) (token c) None 30) in
      let* step := ask_result (λ _, repos_page out repos) in
      match step with
      | inl done => ret (Some done)
      | inr more => list_user_repos_from fuel' c (page + 1) more
      end
  end.

Definition list_user_repos (fuel : nat) (c : GitHubClient) :
    M (option (list pyval)) :=
  list_user_repos_from fuel c 1 [].

(** ** Restore *)

(** [cfg.parent / f"obs-studio.before-restore-{now_stamp()}"] *)
Definition snapshot_path (cfg : path) (w : world) : path :=
  path_join (parent cfg) ("obs-studio.before-restore-" +:+ now_stamp w).

(** The body of the [try] that copies the configuration directory aside. *)
Definition snapshot_to (cfg backup_dir : path) : M unit :=
  let* _ := info ("Backing up current config to " +:+ path_str backup_dir) in
  let* there := ask (λ w, path_exists (w_fs w) backup_dir) in
  let* _ := if there then fs_do (rmtree_ignore backup_dir) else ret tt in
  fs_try (copytree cfg backup_dir).

Definition _backup_current_config : M unit :=
  let* cfg := ask_result get_obs_config_dir in
  let* there := ask (λ w, path_exists (w_fs w) cfg) in
  if negb there then ret tt
  else
    let* backup_dir := ask (snapshot_path cfg) in
    try_except (snapshot_to cfg backup_dir)
      (λ e, warn ("Unable to backup previous state: " +:+ exn_str e)).

(** What is at [dest] is taken away before it is written: a directory with
    [rmtree], anything else with [unlink], errors ignored. *)
Definition clear_dest (dest : path) : M unit :=
  let* there := ask (λ w, path_exists (w_fs w) dest) in
  if there then
    let* d := ask (λ w, is_dir (w_fs w) dest) in
    if d then fs_do (rmtree_ignore dest)
    else try_except (fs_try (unlink dest)) (λ _, ret tt)
  else ret tt.

(** [cfg / rel] for a value that should be a string *)
Definition join_value (base : path) (rel : pyval) : result path :=
  match rel with
  | PStr s => Ok (path_join base s)
  | _ => Raise (TypeError "unsupported operand type(s) for /")
  end.

(** The body of the loop of [_restore_pairs_to_config]. *)
Definition write_pair (cfg : path) (pair : pyval * bytes) : M unit :=
  let '(rel, data) := pair in
  let* dest := ask_result (λ _, join_value cfg rel) in
  let* _ := clear_dest dest in
  let* _ := ensure_parent dest in
  fs_try (write_file dest data).

Definition _restore_pairs_to_config (pairs : list (pyval * bytes)) : M unit :=
  let* cfg := ask_result get_obs_config_dir in
  let* _ := fs_try (mkdir_p cfg) in
  let* _ := _backup_current_config in
  for_each pairs (write_pair cfg).

(** [p.rglob("*")] kept to the regular files: their paths below [n] and
    their bytes, the files of a directory before those of its
    subdirectories. *)
Fixpoint rglob_files (rel : path) (n : node) : list (path * bytes) :=
  match n with
  | File _ => []
  | Dir es =>
      map_fold (λ f c acc,
          match c with
          | File data => (rel ++ [f], data) :: acc
          | Dir _ => acc
          end) [] es
      ++ map_fold (λ d c acc,
          match c with
          | Dir _ => rglob_files (rel ++ [d]) c ++ acc
          | File _ => acc
          end) [] es
  end.

(** [folder.glob("*/obs-studio")] *)
Definition glob_obs_studio (t : gmap string node) (folder : path) : list path :=
  match lookup_path t folder with
  | Some (Dir es) =>
      omap (λ '(d, c),
          match c with
          | Dir sub =>
              match sub !! "obs-studio" with
              | Some _ => Some (folder ++ [d; "obs-studio"])
              | None => None
              end
          | File _ => None
          end) (map_to_list es)
  | _ => []
  end.

(** The directory [_restore_from_folder] reads the files from. *)
Definition restore_root (t : gmap string node) (folder : path) : path :=
  if path_exists t (path_join folder "obs-studio") then
    path_join folder "obs-studio"
  else if negb (String.eqb (name folder) "obs-studio") then
    match glob_obs_studio t folder with
    | cand :: _ => cand
    | [] => folder
    end
  else folder.

(** The pairs [(rel, data)] read below [start]. *)
Definition read_pairs (t : gmap string node) (start : path) :
    list (pyval * bytes) :=
  match lookup_path t start with
  | Some n => map (λ '(rel, data), (PStr (as_posix rel), data)) (rglob_files [] n)
  | None => []
  end.

Definition _restore_from_folder (folder : path) : M unit :=
  let* t := ask w_fs in
  if negb (path_exists t folder) || negb (is_dir t folder) then
    raise (RuntimeError "Invalid backup folder.")
  else
    let root := restore_root t folder in
    _restore_pairs_to_config (read_pairs t root).

(** [p.iterdir()]: the names of the entries of the directory [p] *)
Definition iterdir (t : gmap string node) (p : path) : result (list string) :=
  match lookup_path t p with
  | Some (Dir es) => Ok (map fst (map_to_list es))
  | Some (File _) => Raise (NotADirectoryError (as_posix p))
  | None => Raise (FileNotFoundError (as_posix p))
  end.

(** [with tempfile.TemporaryDirectory() as td: body td]: the directory is
    new, and removed when the block is left. *)
Definition with_tempdir {A} (body : path → M A) : M A :=
  let* td := ask w_tmp in
  let* _ := fs_try (λ t, if path_exists t td
                         then Raise (FileExistsError (as_posix td))
                         else mkdir_p td t) in
  try_finally (body td) (fs_do (rmtree_ignore td)).

(** [ZipFile(zip_file_path).extractall(td)] into the new directory [td]:
    the archive's tree becomes the content of [td]. *)
Definition extractall (zip_file_path td : path) : M unit :=
  let* data := ask_result (λ w, read_file zip_file_path (w_fs w)) in
  let* tree := ask_result (λ w, w_unzip w data) in
  fs_try (at_dir false td (λ es, Ok (tree ∪ es))).

(** The [with] block of [_extract_zip_to_config]: the archive is unpacked
    to a temporary directory and its top entries are copied over those of
    the configuration directory. *)
Definition unpack_zip (cfg zip_file_path : path) : M unit :=
  with_tempdir (λ td,
    let* _ := extractall zip_file_path td in
    let* t := ask w_fs in
    let extracted_root :=
      if path_exists t (path_join td "obs-studio")
      then path_join td "obs-studio" else td in
    let* _ := info ("Restoring to " +:+ path_str cfg) in
    let* items := ask_result (λ w, iterdir (w_fs w) extracted_root) in
    for_each items (λ item_name,
      let item := extracted_root ++ [item_name] in
      let dest := path_join cfg item_name in
      let* _ := clear_dest dest in
      let* d := ask (λ w, is_dir (w_fs w) item) in
      if d then fs_try (copytree item dest)
      else let* _ := ensure_parent dest in fs_try (copy2 item dest))).

Definition _extract_zip_to_config (zip_file_path : path) : M unit :=
  let* cfg := ask_result get_obs_config_dir in
  let* there := ask (λ w, path_exists (w_fs w) cfg) in
  let* _ := if negb there then fs_try (mkdir_p cfg) else ret tt in
  let* backup_dir := ask (snapshot_path cfg) in
  let* _ := try_except
      (let* there := ask (λ w, path_exists (w_fs w) cfg) in
       if there then snapshot_to cfg backup_dir else ret tt)
      (λ e, warn ("Unable to backup previous state: " +:+ exn_str e)) in
  unpack_zip cfg zip_file_path.

(** ** The operations behind the buttons *)

(** The functions the operations call.  The operations are written over
    this record, so that what they do with an exception can be stated for
    any behaviour of a callee; [bar_steps] below holds the script's own. *)
Record steps : Type := mk_steps {
  st_create_local_backup_folder : path → bool → bool → M path;
  (* the items the generator yields, then the exception that ends it *)
  st_iter_obs_files : bool → bool → world → list (string * path) * option exn;
  (* with open(src, "rb") as f: f.read() *)
  st_read_bytes : path → M bytes;
  st_put_file : GitHubClient → string → string → string → bytes → string → M pyval;
  st_list_dir : GitHubClient → string → string → pyval → M (list pyval);
  st_get_file_content_b64 : GitHubClient → string → string → pyval → M (pyval * pyval);
  st_b64decode : pyval → M bytes;
  st_restore_pairs_to_config : list (pyval * bytes) → M unit;
  st_extract_zip_to_config : path → M unit;
  st_restore_from_folder : path → M unit
}.

Definition bar_steps : steps := {|
  st_create_local_backup_folder := create_local_backup_folder;
  st_iter_obs_files := λ il ic w,
    match iter_obs_files il ic w with
    | Ok items => (items, None)
    | Raise e => ([], Some e)
    end;
  st_read_bytes := λ p, ask_result (λ w, read_file p (w_fs w));
  st_put_file := put_file;
  st_list_dir := list_dir;
  st_get_file_content_b64 := get_file_content_b64;
  st_b64decode := λ v, ask_result (λ w, w_b64decode w v);
  st_restore_pairs_to_config := _restore_pairs_to_config;
  st_extract_zip_to_config := _extract_zip_to_config;
  st_restore_from_folder := _restore_from_folder
|}.

(** [try: body; return True
     except Exception as e: err(f"{what}{e}"); return False] *)
Definition guarded (what : string) (body : M unit) : M bool :=
  try_except (let* _ := body in ret true)
    (λ e, let* _ := err (what +:+ exn_str e) in ret false).

(** The upload loop of [do_backup_now]: [count] files are up already. *)
Fixpoint upload_files (S : steps) (client : GitHubClient)
    (repo branch base_in_repo backup_name : string)
    (items : list (string * path)) (count : nat) : M nat :=
  match items with
  | [] => ret count
  | (rel, src) :: rest =>
      let repo_path := _gh_join [base_in_repo; rel] in
      let* data := st_read_bytes S src in
      let* _ := st_put_file S client repo branch repo_path data
                  ("OBS backup " +:+ backup_name +:+ ": " +:+ rel) in
      let count := count + 1 in
      let* _ := if Nat.eqb (count mod 50) 0
                then info ("Uploading... " +:+ pretty count +:+ " files")
                else ret tt in
      upload_files S client repo branch base_in_repo backup_name rest count
  end.

Definition backup_body (S : steps) : M unit :=
  let* dest_type := ask (g_get_str K_DEST_TYPE "local") in
  let* include_logs := ask (g_get_bool K_INCLUDE_LOGS false) in
  let* include_cache := ask (g_get_bool K_INCLUDE_CACHE false) in
  let* _ := g_set K_INCLUDE_LOGS (SBool include_logs) in
  let* _ := g_set K_INCLUDE_CACHE (SBool include_cache) in
  if String.eqb dest_type "local" then
    let* target_dir := ask (λ w, parts_of
        (g_get_str K_LOCAL_DIR (path_str (path_join (w_home w) "obs-backups")) w)) in
    let* _ := info ("Creating local backup in " +:+ path_str target_dir) in
    let* backup_root :=
      st_create_local_backup_folder S target_dir include_logs include_cache in
    info ("Backup created: " +:+ path_str backup_root)
  else
    let* tok := ask (g_get_str K_GH_TOKEN "") in
    let* repo := ask (g_get_str K_GH_REPO_SELECT "") in
    let* branch := ask (g_get_str K_GH_BRANCH "main") in
    let* folder := ask (g_get_str K_GH_FOLDER "obs-backups") in
    if String.eqb tok "" || String.eqb repo "" then
      raise (RuntimeError "GitHub token and repo required.")
    else
      let client := new_client tok in
      let* backup_name := ask make_backup_folder_name in
      let base_in_repo := _gh_join [folder; backup_name; "obs-studio"] in
      let* (items, stop) := ask (st_iter_obs_files S include_logs include_cache) in
      let* count := upload_files S client repo branch base_in_repo backup_name items 0 in
      match stop with
      | Some e => raise e
      | None =>
          info ("Upload complete. " +:+ pretty count +:+ " files to "
                +:+ repo +:+ "/" +:+ base_in_repo)
      end.

Definition do_backup_now (S : steps) : M bool :=
  guarded "Backup failed: " (backup_body S).

(** [[it for it in items if it.get("type") == "dir"]] *)
Fixpoint dirs_only (items : list pyval) : result (list (gmap string pyval)) :=
  match items with
  | [] => Ok []
  | it :: rest =>
      t ← py_get it "type";
      r ← dirs_only rest;
      match it with
      | PDict d => Ok (if py_eq_str t "dir" then d :: r else r)
      | _ => Ok r
      end
  end.

(** [a < b] on the values sorted by: strings among themselves, numbers
    among themselves; other pairs are not comparable. *)
Definition py_num (v : pyval) : option Z :=
  match v with
  | PInt z => Some z
  | PBool b => Some (if b then 1 else 0)%Z
  | _ => None
  end.

Definition py_lt (a b : pyval) : result bool :=
  match a, b with
  | PStr x, PStr y => Ok (String.ltb x y)
  | _, _ =>
      match py_num a, py_num b with
      | Some x, Some y => Ok (x <? y)%Z
      | _, _ => Raise (TypeError "'<' not supported between instances")
      end
  end.

(** A stable sort by descending key, as [sort(key=.., reverse=True)]. *)
Fixpoint insert_desc {A} (key : A → pyval) (x : A) (l : list A) :
    result (list A) :=
  match l with
  | [] => Ok [x]
  | y :: r =>
      match py_lt (key y) (key x) with
      | Ok true => Ok (x :: y :: r)
      | Ok false => r' ← insert_desc key x r; Ok (y :: r')
      | Raise e => Raise e
      end
  end.

Definition sort_desc {A} (key : A → pyval) (l : list A) : result (list A) :=
  foldl (λ acc x, acc ≫= insert_desc key x) (Ok []) l.

Definition refresh_body (S : steps) : M unit :=
  let* tok := ask (g_get_str K_GH_TOKEN "") in
  let* repo := ask (g_get_str K_GH_REPO_SELECT "") in
  let* branch := ask (g_get_str K_GH_BRANCH "main") in
  let* folder := ask (g_get_str K_GH_FOLDER "obs-backups") in
  if String.eqb tok "" || String.eqb repo "" then
    raise (RuntimeError "GitHub token and repo required.")
  else
    let client := new_client tok in
    let* items := st_list_dir S client repo branch (PStr folder) in
    let* files := ask_result (λ _, dirs_only items) in
    let* files := ask_result (λ _,
        sort_desc (λ d, default (PStr "") (d !! "name")) files) in
    let* _ := (λ w, (Ok tt, set_remote (map PDict files)
        (match w_remote_list w with
         | Some _ =>
             Some (imap (λ i d,
                 (default (PStr ("dir-" +:+ pretty i)) (d !! "name"),
                  default (PStr "") (d !! "path"))) files)
         | None => None
         end) w)) in
    info ("Remote backups (folders): " +:+ pretty (length files)).

Definition do_refresh_remote (S : steps) : M bool :=
  guarded "Refresh failed: " (refresh_body S).

Definition restore_local_body (S : steps) : M unit :=
  let* path_s := ask (g_get_str K_RESTORE_LOCAL_PATH "") in
  if String.eqb path_s "" then
    raise (RuntimeError "Select a backup folder or a .zip.")
  else
    let p := parts_of path_s in
    let* t := ask w_fs in
    if negb (path_exists t p) then raise (RuntimeError "Path not found.")
    else
      let* _ := if is_file t p && String.eqb (str_lower (path_suffix p)) ".zip"
                then st_extract_zip_to_config S p
                else st_restore_from_folder S p in
      info "Local restore complete. Restart OBS to fully apply.".

Definition do_restore_local (S : steps) : M bool :=
  guarded "Local restore failed: " (restore_local_body S).

(** [v.get(key, dflt)] *)
Definition py_get_or (v : pyval) (key : string) (dflt : pyval) : result pyval :=
  match v with
  | PDict d => Ok (default dflt (d !! key))
  | _ => Raise (AttributeError "object has no attribute 'get'")
  end.

(** [v[n:]] *)
Definition py_drop (n : nat) (v : pyval) : result pyval :=
  match v with
  | PStr s => Ok (PStr (str_drop n s))
  | PList l => Ok (PList (drop n l))
  | _ => Raise (TypeError "object is not subscriptable")
  end.

(** The relative path [do_restore_remote] keeps for the file listed at
    [p], [base_] being the selected path with [/obs-studio] appended:
    [p[len(base.strip("/")) + 1:]]. *)
Definition remote_rel (base_ p : string) : string :=
  str_drop (String.length (strip_slash base_) + 1) p.

(** The [for it in items] loop of [_collect_pairs]; the stack has its top
    at the head. *)
Fixpoint collect_items (S : steps) (client : GitHubClient)
    (repo branch base_ : string) (items stack : list pyval)
    (pairs : list (pyval * bytes)) : M (list pyval * list (pyval * bytes)) :=
  match items with
  | [] => ret (stack, pairs)
  | it :: rest =>
      let* t := ask_result (λ _, py_get it "type") in
      if py_eq_str t "dir" then
        let* p := ask_result (λ _, py_get it "path") in
        collect_items S client repo branch base_ rest (p :: stack) pairs
      else if py_eq_str t "file" then
        let* p := ask_result (λ _, py_get it "path") in
        let* (content_b64, _) := st_get_file_content_b64 S client repo branch p in
        let* data := st_b64decode S content_b64 in
        let* q := ask_result (λ _, py_get_or it "path" (PStr "")) in
        let* rel := ask_result (λ _,
            py_drop (String.length (strip_slash base_) + 1) q) in
        collect_items S client repo branch base_ rest stack (pairs ++ [(rel, data)])
      else collect_items S client repo branch base_ rest stack pairs
  end.

(** The [while stack] loop of [_collect_pairs]; [None] when the fuel runs
    out with directories still to list. *)
Fixpoint collect_pairs (fuel : nat) (S : steps) (client : GitHubClient)
    (repo branch base_ : string) (stack : list pyval)
    (pairs : list (pyval * bytes)) : M (option (list (pyval * bytes))) :=
  match stack with
  | [] => ret (Some pairs)
  | p :: stack' =>
      match fuel with
      | O => ret None
      | S fuel' =>
          let* items := st_list_dir S client repo branch p in
          let* (stack'', pairs') :=
            collect_items S client repo branch base_ items stack' pairs in
          collect_pairs fuel' S client repo branch base_ stack'' pairs'
      end
  end.

Definition restore_remote_body (S : steps) (fuel : nat) : M (option unit) :=
  let* tok := ask (g_get_str K_GH_TOKEN "") in
  let* repo := ask (g_get_str K_GH_REPO_SELECT "") in
  let* branch := ask (g_get_str K_GH_BRANCH "main") in
  let* sel_path := ask (g_get_str K_REMOTE_SELECT "") in
  if String.eqb tok "" || String.eqb repo "" || String.eqb sel_path "" then
    raise (RuntimeError "Token, repo, and selection required.")
  else
    let client := new_client tok in
    let base_ := rstrip_slash sel_path +:+ "/obs-studio" in
    let* found := collect_pairs fuel S client repo branch base_ [PStr base_] [] in
    match found with
    | None => ret None
    | Some [] => raise (RuntimeError "No files found in the remote backup.")
    | Some pairs =>
        let* _ := st_restore_pairs_to_config S pairs in
        let* _ := info "Remote restore complete. Restart OBS." in
        ret (Some tt)
    end.

(** [do_restore_remote]; [None] when the fuel did not suffice. *)
Definition do_restore_remote (S : steps) (fuel : nat) : M (option bool) :=
  try_except
    (let* r := restore_remote_body S fuel in
     ret (match r with Some _ => Some true | None => None end))
    (λ e, let* _ := err ("Remote restore failed: " +:+ exn_str e) in
          ret (Some false)).

(** [x.get("full_name", "").lower()]: only a string has the method. *)
Definition repo_key (x : pyval) : result string :=
  v ← py_get_or x "full_name" (PStr "");
  match v with
  | PStr s => Ok (str_lower s)
  | _ => Raise (AttributeError "object has no attribute 'lower'")
  end.

(** A stable sort of keyed items by ascending key, as [sorted(.., key=..)]. *)
Fixpoint insert_asc {A} (x : string * A) (l : list (string * A)) :
    list (string * A) :=
  match l with
  | [] => [x]
  | y :: r => if String.ltb x.1 y.1 then x :: y :: r else y :: insert_asc x r
  end.

Definition sort_asc {A} (l : list (string * A)) : list (string * A) :=
  foldl (λ acc x, insert_asc x acc) [] l.

(** The names put in the repository list: every non-empty [full_name]. *)
Definition repo_items (sorted : list (string * pyval)) : list (string * string) :=
  omap (λ kv, match kv.2 with
              | PDict d =>
                  match default (PStr "") (d !! "full_name") with
                  | PStr full => if String.eqb full "" then None
                                 else Some (full, full)
                  | _ => None
                  end
              | _ => None
              end) sorted.

Definition fetch_repos_body (fuel : nat) : M (option bool) :=
  let* tok := ask (g_get_str K_GH_TOKEN "") in
  if String.eqb tok "" then
    let* _ := err "GitHub token required to fetch repos." in ret (Some true)
  else
    let client := new_client tok in
    let* found := list_user_repos fuel client in
    match found with
    | None => ret None
    | Some repos =>
        let* lst := ask w_repo_list in
        let* _ := match lst with
                  | Some _ =>
                      let* _ := (λ w, (Ok tt, set_repo_list [] w)) in
                      let* keyed := ask_result (λ _,
                          mapM (λ x, k ← repo_key x; Ok (k, x)) repos) in
                      (λ w, (Ok tt, set_repo_list (repo_items (sort_asc keyed)) w))
                  | None => ret tt
                  end in
        let* _ := info ("Loaded " +:+ pretty (length repos) +:+ " repos.") in
        ret (Some true)
    end.

(** [_on_fetch_repos]; [None] when the fuel did not suffice. *)
Definition _on_fetch_repos (fuel : nat) : M (option bool) :=
  try_except (fetch_repos_body fuel)
    (λ e, let* _ := err ("Fetching repos failed: " +:+ exn_str e) in
          ret (Some true)).

(** ** Vocabulary of the statements *)

(** The path the locator resolves to when it does not raise. *)
Definition platform_dir (w : world) : path :=
  if startswith "win" (w_platform w) then
    parts_of (default "" (w_environ w !! "APPDATA")) ++ ["obs-studio"]
  else if String.eqb (w_platform w) "darwin" then
    w_home w ++ ["Library"; "Application Support"; "obs-studio"]
  else if String.eqb (default "" (w_environ w !! "XDG_CONFIG_HOME")) "" then
    w_home w ++ [".config"; "obs-studio"]
  else parts_of (default "" (w_environ w !! "XDG_CONFIG_HOME")) ++ ["obs-studio"].

(** ** Concrete worlds used by the examples *)

(** A Linux host without [XDG_CONFIG_HOME], the home directory [/home/u],
    an unreachable network, and the disk [t]. *)
Definition linux_world (t : gmap string node) : world :=
  mk_world "linux" ∅ ["home"; "u"] (Ok "pc") "20240101-000000" ["tmp"; "t1"]
    (λ _, "") (λ _, Ok []) (λ _, Ok ∅)
    (λ _ _, NetFailure (URLError "unreachable"))
    t [] ∅ [] [] None None.

(** The same world with a settings cache and a remote. *)
Definition remote_world (shadow : gmap string setting)
    (http : list request → request → http_outcome) : world :=
  mk_world "linux" ∅ ["home"; "u"] (Ok "pc") "20240101-000000" ["tmp"; "t1"]
    (λ _, "") (λ _, Ok []) (λ _, Ok ∅) http ∅ [] shadow [] [] None None.

(** The request [list_dir] and [get_file_content_b64] send for the path
    [p] (a string), with their time limit. *)
Definition contents_request (c : GitHubClient) (owner_repo branch p : string)
    (timeout : nat) : request :=
  mk_request "GET"
    (match contents_url c owner_repo branch (PStr p) with
     | Ok url => url
     | Raise _ => ""
     end) (token c) None timeout.

(** The request [list_user_repos] sends for a page. *)
Definition repos_request (c : GitHubClient) (page : nat) : request :=
  mk_request "GET" (repos_url c page) (token c) None 30.

(** A remote that answers the first request with one repository and every
    later one with status 500; the token is set and the panel has a
    repository list. *)
Definition second_page_fails : world :=
  mk_world "linux" ∅ ["home"; "u"] (Ok "pc") "20240101-000000" ["tmp"; "t1"]
    (λ _, "") (λ _, Ok []) (λ _, Ok ∅)
    (λ sent _, match sent with
               | [] => Response (Some (PList [PDict {[ "full_name" := PStr "u/a" ]}]))
               | _ => HTTPFailure 500 None "HTTP Error 500: Internal Server Error"
               end)
    ∅ [] {[ K_GH_TOKEN := SStr "t" ]} [] [] None (Some [("old/repo", "old/repo")]).

(** What a guarded operation that returned [b] did: its body ended well
    and nothing more was done, or the body raised [e] and one line at
    error severity, [what] followed by [str(e)], was added to the log. *)
Definition reported {A} (what : string) (body : M A) (w : world) (b : bool)
    (w' : world) : Prop :=
  if b then ∃ a, body w = (Ok a, w')
  else ∃ e wb, body w = (Raise e, wb)
               ∧ w' = add_log LOG_ERROR (what +:+ exn_str e) wb.

(** A remote that holds one base64 file object behind every address. *)
Definition one_file_remote : world :=
  remote_world ∅
    (λ _ _, Response (Some (PDict (<["encoding" := PStr "base64"]>
                                  (<["content" := PStr "aGk="]> ∅))))).

(** A remote with one file below [b/obs-studio]: the first request lists
    it, the second reads it.  Token, repository and selection are set. *)
Definition finite_remote : world :=
  remote_world
    (<[K_GH_TOKEN := SStr "t"]> (<[K_GH_REPO_SELECT := SStr "u/a"]>
      (<[K_REMOTE_SELECT := SStr "b"]> ∅)))
    (λ sent _,
       match sent with
       | [] => Response (Some (PList [PDict (<["type" := PStr "file"]>
                                  (<["path" := PStr "b/obs-studio/x.ini"]> ∅))]))
       | _ => Response (Some (PDict (<["encoding" := PStr "base64"]>
                                    (<["content" := PStr "aGk="]> ∅))))
       end).


(** The size of a tree, for induction on the nodes below a directory. *)
Fixpoint node_size (n : node) : nat :=
  match n with
  | File _ => 1
  | Dir es => S (map_fold (λ _ c acc, node_size c + acc) 0 es)
  end.

(** A name a file system can hold: not empty, no slash, not [.] or [..]. *)
Definition valid_name (s : string) : bool :=
  negb (String.eqb s "") && negb (str_mem "/" s)
  && negb (String.eqb s ".") && negb (String.eqb s "..").

(** Every name in the tree is one a file system can hold. *)
Fixpoint valid_tree (n : node) : bool :=
  match n with
  | File _ => true
  | Dir es => map_fold (λ k c acc, valid_name k && valid_tree c && acc) true es
  end.

(** The walk enters every directory on the way to [comps], a path below
    the directory reached by [root_rel]: none of them is pruned. *)
Definition entered (excludes : gset string) (root_rel comps : path) : Prop :=
  ∀ ds d rest, comps = ds ++ d :: rest → rest ≠ [] →
    pruned excludes (root_rel ++ ds) d = false.

(** The configuration directory of [linux_world] holding the entries [es]. *)
Definition config_disk (es : gmap string node) : gmap string node :=
  {[ "home" := Dir {[ "u" := Dir {[ ".config" := Dir {[ "obs-studio" := Dir es ]} ]} ]} ]}.

(** A configuration directory with a regular file named [cache]. *)
Definition file_named_cache : world :=
  linux_world (config_disk {[ "cache" := File [x61] ]}).

(** A configuration directory with a [logs] directory one level down, a
    scene file, and a [logs] directory at the top. *)
Definition nested_logs : world :=
  linux_world (config_disk
    (<["basic" := Dir (<["logs" := Dir {[ "x.txt" := File [x62] ]}]>
                       {[ "scene.json" := File [x63] ]})]>
     {[ "logs" := Dir {[ "a.log" := File [x64] ]} ]})).

(** What a path leads to, without the content of directories: nothing, a
    directory ([Some None]) or a file with its bytes. *)
Definition entry_at (t : gmap string node) (p : path) : option (option bytes) :=
  match lookup_path t p with
  | Some (File data) => Some (Some data)
  | Some (Dir _) => Some None
  | None => None
  end.

(** The name of the snapshot directory. *)
Definition snapshot_name (w : world) : string :=
  "obs-studio.before-restore-" +:+ now_stamp w.

(** A relative path a pair can carry without leaving the configuration
    directory: a string that is not absolute and has no [..] part (the
    tree does not resolve [..]). *)
Definition safe_rel (rel : pyval) : Prop :=
  ∀ s, rel = PStr s → startswith "/" s = false ∧ ".." ∉ parts_of s.

(** A configuration directory with one file, and a restore source that
    does not exist. *)
Definition missing_source : world :=
  mk_world "linux" ∅ ["home"; "u"] (Ok "pc") "20240101-000000" ["tmp"; "t1"]
    (λ _, "") (λ _, Ok []) (λ _, Ok ∅)
    (λ _ _, NetFailure (URLError "unreachable"))
    (config_disk {[ "basic.ini" := File [x61] ]}) []
    {[ K_RESTORE_LOCAL_PATH := SStr "/nowhere" ]} [] [] None None.

(** The same disk with a regular file where the snapshot would go. *)
Definition snapshot_name_taken : world :=
  linux_world
    {[ "home" := Dir {[ "u" := Dir {[ ".config" := Dir
         (<["obs-studio" := Dir {[ "basic.ini" := File [x61] ]}]>
          {[ "obs-studio.before-restore-20240101-000000" := File [x62] ]}) ]} ]} ]}.

(** Nothing beside the entry [obs-studio] of the directory [b] differs
    between the disks [t] and [t']. *)
Definition same_beside_config (b : path) (t t' : gmap string node) : Prop :=
  ∀ x q, x ≠ "obs-studio" →
    lookup_path t' (b ++ x :: q) = lookup_path t (b ++ x :: q).

(** A disk without configuration directory and a backup folder [/bk] that
    holds [obs-studio/basic.ini]. *)
Definition absent_config : world :=
  linux_world {[ "bk" := Dir {[ "obs-studio" := Dir {[ "basic.ini" := File [x61] ]} ]} ]}.

(** The bundle while it is written.  [fs0] is the disk when the backup
    starts, the configuration directory is [cfg], the files go below [troot],
    and [written] lists the paths below [cfg] of the files copied so far.
    The configuration directory is as it was; nothing on the way to [troot]
    is a file; a file of the bundle is a written file with the bytes it has
    in [cfg]; a directory of the bundle is a directory of [cfg]; every
    written file is in the bundle. *)
Definition bundle_inv (fs0 : gmap string node) (cfg troot : path)
    (written : list path) (t : gmap string node) : Prop :=
  (∀ q, entry_at t (cfg ++ q) = entry_at fs0 (cfg ++ q))
  ∧ (∀ q d, q `prefix_of` troot → entry_at t q ≠ Some (Some d))
  ∧ (∀ q d, entry_at t (troot ++ q) = Some (Some d) →
       q ∈ written ∧ entry_at fs0 (cfg ++ q) = Some (Some d))
  ∧ (∀ q, entry_at t (troot ++ q) = Some None →
       entry_at fs0 (cfg ++ q) = Some None)
  ∧ (∀ q, q ∈ written →
       ∃ d, entry_at fs0 (cfg ++ q) = Some (Some d)
            ∧ entry_at t (troot ++ q) = Some (Some d)).

(** The path below [cfg] of a regular file of [fs0], made of valid names. *)
Definition good_tail (fs0 : gmap string node) (cfg tail : path) : Prop :=
  tail ≠ [] ∧ Forall (λ s, valid_name s = true) tail
  ∧ ∃ d, entry_at fs0 (cfg ++ tail) = Some (Some d).

(** The item the walker yields for the file at [tail] below [cfg]. *)
Definition item_of (cfg tail : path) : string * path :=
  (as_posix tail, cfg ++ tail).

(** The pair a restore reads for a file: its path as a string, its bytes. *)
Definition pair_of (file : path * bytes) : pyval * bytes :=
  let '(rel, data) := file in (PStr (as_posix rel), data).

(** [base_dir / make_backup_folder_name()] *)
Definition bundle_root (base_dir : path) (w : world) : path :=
  path_join base_dir (make_backup_folder_name w).

(** ** A remote that can be walked to its end *)

(** The paths the loop of [_collect_pairs] pushes for a listing:
    [it.get("path")] of the items with [it.get("type") == "dir"]. *)
Definition listed_dirs (items : list pyval) : list pyval :=
  omap (λ it, match it with
              | PDict d =>
                  if py_eq_str (default PNone (d !! "type")) "dir"
                  then Some (default PNone (d !! "path")) else None
              | _ => None
              end) items.

(** A remote bounded by [size]: the directories listed below a path weigh
    less, together, than the path; and the calls of the download leave the
    remote as it is.  The remote of [w] is what [w_http w] answers. *)
Definition bounded_remote (S : steps) (client : GitHubClient)
    (repo branch : string) (size : pyval → nat) (w : world) : Prop :=
  (∀ p w1 items w2, w_http w1 = w_http w →
     st_list_dir S client repo branch p w1 = (Ok items, w2) →
     w_http w2 = w_http w
     ∧ (sum_list (map size (listed_dirs items)) < size p)%nat)
  ∧ (∀ p w1 r w2, w_http w1 = w_http w →
       st_get_file_content_b64 S client repo branch p w1 = (r, w2) →
       w_http w2 = w_http w)
  ∧ (∀ v w1 r w2, w_http w1 = w_http w →
       st_b64decode S v w1 = (r, w2) → w_http w2 = w_http w).

(** ** A tree in the repository *)

(** The world with [s] as the requests sent so far. *)
Definition set_sent (s : list request) (w : world) : world :=
  mk_world (w_platform w) (w_environ w) (w_home w) (w_node w) (w_now w)
    (w_tmp w) (w_b64encode w) (w_b64decode w) (w_unzip w) (w_http w)
    (w_fs w) (w_log w) (w_shadow w) s
    (w_remote_files w) (w_remote_list w) (w_repo_list w).

(** The path the contents API reports for the entry at [p] below the
    directory [root] of the repository. *)
Definition remote_path (root : string) (p : path) : string :=
  root +:+ "/" +:+ as_posix p.

(** The path the download asks for, for the directory at [p]: at the top
    the selected path with [/obs-studio] as the script writes it, below the
    top the path a listing reported. *)
Definition asked_path (base_ root : string) (p : path) : string :=
  match p with [] => base_ | _ => remote_path root p end.

(** The item [it] of the listing of the directory at [p] stands for its
    entry [e]: the type is [file] or [dir], the path is the entry's. *)
Definition lists_entry (root : string) (p : path) (it : pyval)
    (e : string * node) : Prop :=
  ∃ d, it = PDict d
       ∧ d !! "type"
         = Some (PStr (match e.2 with File _ => "file" | Dir _ => "dir" end))
       ∧ d !! "path" = Some (PStr (remote_path root (p ++ [e.1]))).

(** The remote of [w] holds the tree [rt] at [root]: whatever was asked
    before, the request for a directory of the tree is answered with a
    listing of its entries, in some order, and the request for a file with
    an object that carries the file's bytes in base64. *)
Definition remote_holds (w : world) (c : GitHubClient)
    (repo branch base_ root : string) (rt : gmap string node) : Prop :=
  (∀ sent p es, resolve (Dir rt) p = Some (Dir es) →
     ∃ items entries,
       w_http w sent (contents_request c repo branch (asked_path base_ root p) 30)
       = Response (Some (PList items))
       ∧ entries ≡ₚ map_to_list es
       ∧ Forall2 (lists_entry root p) items entries)
  ∧ (∀ sent p data, resolve (Dir rt) p = Some (File data) →
       ∃ d content,
         w_http w sent (contents_request c repo branch (remote_path root p) 60)
         = Response (Some (PDict d))
         ∧ d !! "encoding" = Some (PStr "base64")
         ∧ d !! "content" = Some content
         ∧ w_b64decode w content = Ok data).

(** The subdirectories and the files among the entries of the directory at
    [p], under their paths. *)
Definition dir_entries (p : path) (entries : list (string * node)) :
    list (path * gmap string node) :=
  omap (λ e, match e.2 with Dir sub => Some (p ++ [e.1], sub) | File _ => None end)
    entries.

Definition file_entries (p : path) (entries : list (string * node)) :
    list (path * bytes) :=
  omap (λ e, match e.2 with File data => Some (p ++ [e.1], data) | Dir _ => None end)
    entries.

(** The weight of the directories still to list. *)
Definition stack_weight (dirs : list (path * gmap string node)) : nat :=
  sum_list (map (λ d, node_size (Dir d.2)) dirs).

(** A remote that holds [basic/scene.json] below [b/obs-studio], the
    selection being written [/b/]: the listing of the top gives the
    directory [basic], the listing of [basic] the file, and the request
    for the file its content.  Token and repository are set. *)
Definition nested_remote : world :=
  remote_world
    (<[K_GH_TOKEN := SStr "t"]> (<[K_GH_REPO_SELECT := SStr "u/a"]>
      (<[K_REMOTE_SELECT := SStr "/b/"]> ∅)))
    (λ _ req,
       if Nat.eqb (rq_timeout req) 60 then
         Response (Some (PDict (<["encoding" := PStr "base64"]>
                                (<["content" := PStr "aGk="]> ∅))))
       else if String.eqb (rq_url req)
                 (rq_url (contents_request (new_client "t") "u/a" "main"
                            "/b/obs-studio" 30)) then
         Response (Some (PList [PDict (<["type" := PStr "dir"]>
                                  (<["path" := PStr "b/obs-studio/basic"]> ∅))]))
       else
         Response (Some (PList [PDict (<["type" := PStr "file"]>
                     (<["path" := PStr "b/obs-studio/basic/scene.json"]> ∅))]))).

(** * Further definitions *)

(** ** What an operation can change *)

(** The parts of the world a computation may change: the disk, the log, the
    list of requests sent, the remote-backup list, the repository list, and
    the keys of the settings cache named in [f_keys]. *)
Record frame : Type := mk_frame {
  f_fs : bool;
  f_log : bool;
  f_sent : bool;
  f_remote : bool;
  f_repo : bool;
  f_keys : gset string
}.

(** [w'] differs from [w] in the parts [F] names at most. *)
Definition within (F : frame) (w w' : world) : Prop :=
  w_platform w' = w_platform w ∧ w_environ w' = w_environ w
  ∧ w_home w' = w_home w ∧ w_node w' = w_node w ∧ w_now w' = w_now w
  ∧ w_tmp w' = w_tmp w ∧ w_b64encode w' = w_b64encode w
  ∧ w_b64decode w' = w_b64decode w ∧ w_unzip w' = w_unzip w
  ∧ w_http w' = w_http w
  ∧ (f_fs F = false → w_fs w' = w_fs w)
  ∧ (f_log F = false → w_log w' = w_log w)
  ∧ (f_sent F = false → w_sent w' = w_sent w)
  ∧ (f_remote F = false →
       w_remote_files w' = w_remote_files w ∧ w_remote_list w' = w_remote_list w)
  ∧ (f_repo F = false → w_repo_list w' = w_repo_list w)
  ∧ (∀ k, k ∉ f_keys F → w_shadow w' !! k = w_shadow w !! k).

(** Whatever the world it starts in, [c] changes the parts [F] names at
    most. *)
Definition touches {A} (F : frame) (c : M A) : Prop :=
  ∀ w, within F w (c w).2.


(** ** The settings the host hands over *)

(** [obs.obs_data_get_string(settings, k)] and [obs.obs_data_get_bool]: the
    value stored under [k] when it has that type, else the empty string and
    [False]. *)
Definition obs_data_get_string (settings : gmap string setting) (k : string) :
    string :=
  match settings !! k with Some (SStr s) => s | _ => "" end.

Definition obs_data_get_bool (settings : gmap string setting) (k : string) :
    bool :=
  match settings !! k with Some (SBool b) => b | _ => false end.

(** [script_update]: the nine values copied to the settings cache.  The
    calls that follow show, hide, enable and disable controls of the panel,
    which are not part of the world. *)
Definition script_update (settings : gmap string setting) : M unit :=
  let* _ := g_set K_DEST_TYPE (SStr (obs_data_get_string settings K_DEST_TYPE)) in
  let* _ := g_set K_LOCAL_DIR (SStr (obs_data_get_string settings K_LOCAL_DIR)) in
  let* _ := g_set K_INCLUDE_LOGS (SBool (obs_data_get_bool settings K_INCLUDE_LOGS)) in
  let* _ := g_set K_INCLUDE_CACHE (SBool (obs_data_get_bool settings K_INCLUDE_CACHE)) in
  let* _ := g_set K_GH_TOKEN (SStr (obs_data_get_string settings K_GH_TOKEN)) in
  let* _ := g_set K_GH_REPO_SELECT (SStr (obs_data_get_string settings K_GH_REPO_SELECT)) in
  let* _ := g_set K_GH_BRANCH (SStr (obs_data_get_string settings K_GH_BRANCH)) in
  let* _ := g_set K_GH_FOLDER (SStr (obs_data_get_string settings K_GH_FOLDER)) in
  g_set K_RESTORE_LOCAL_PATH
    (SStr (obs_data_get_string settings K_RESTORE_LOCAL_PATH)).

(** [script_load] and [script_unload], the panel left aside as above. *)
Definition script_load : M unit := info "OBS Backup & Restore script loaded.".
Definition script_unload : M unit := info "OBS Backup & Restore script unloaded.".

(** The calls the host makes into the script. *)
Inductive call : Type :=
  | ScriptLoad
  | ScriptUpdate (settings : gmap string setting)
  | BackupNow
  | RefreshRemote
  | RestoreLocal
  | RestoreRemote (fuel : nat)
  | FetchRepos (fuel : nat)
  | ScriptUnload.

(** The world after a call, whatever the call returns. *)
Definition after_call (c : call) (w : world) : world :=
  match c with
  | ScriptLoad => (script_load w).2
  | ScriptUpdate settings => (script_update settings w).2
  | BackupNow => (do_backup_now bar_steps w).2
  | RefreshRemote => (do_refresh_remote bar_steps w).2
  | RestoreLocal => (do_restore_local bar_steps w).2
  | RestoreRemote fuel => (do_restore_remote bar_steps fuel w).2
  | FetchRepos fuel => (_on_fetch_repos fuel w).2
  | ScriptUnload => (script_unload w).2
  end.

Definition after_calls (cs : list call) (w : world) : world :=
  foldl (λ w c, after_call c w) w cs.

(** Every part of the world may change, and of the settings cache the nine
    keys [script_update] writes. *)
Definition any_call : frame :=
  mk_frame true true true true true
    {[ K_DEST_TYPE; K_LOCAL_DIR; K_INCLUDE_LOGS; K_INCLUDE_CACHE; K_GH_TOKEN;
       K_GH_REPO_SELECT; K_GH_BRANCH; K_GH_FOLDER; K_RESTORE_LOCAL_PATH ]}.

(** ** Repository paths *)

(** A string without a slash at either end. *)
Definition trimmed (s : string) : Prop :=
  lstrip_slash s = s ∧ rstrip_slash s = s.

(** The segments [_gh_join] keeps. *)
Definition gh_segments (parts : list string) : list string :=
  filter (λ s, s ≠ "") (map strip_slash (filter (λ p, p ≠ "") parts)).


(** ** The list of remote backups *)

(** An item of a directory listing that is a directory, and the name it
    is sorted by: [it.get("type") == "dir"] and [x.get("name", "")]. *)
Definition is_dir_item (d : gmap string pyval) : bool :=
  py_eq_str (default PNone (d !! "type")) "dir".

Definition item_name (d : gmap string pyval) : pyval :=
  default (PStr "") (d !! "name").

(** Keys from the greatest to the least, equal ones side by side. *)
Fixpoint descending (keys : list string) : Prop :=
  match keys with
  | a :: (b :: _) as rest => String.ltb a b = false ∧ descending rest
  | _ => True
  end.

(** The string a key is, when it is one. *)
Definition key_string (v : pyval) : string :=
  match v with PStr s => s | _ => "" end.

(** A remote whose listing has two backup directories and a file. *)
Definition listing_world : world :=
  remote_world
    (<[K_GH_TOKEN := SStr "t"]> (<[K_GH_REPO_SELECT := SStr "u/a"]> ∅))
    (λ _ _, Response (Some (PList (map PDict
       [ <["type" := PStr "dir"]> (<["name" := PStr "obs-config-pc-1"]> ∅);
         <["type" := PStr "file"]> (<["name" := PStr "readme"]> ∅);
         <["type" := PStr "dir"]> (<["name" := PStr "obs-config-pc-2"]> ∅) ])))).


(** ** Uploads *)

(** The request [put_file] sends: the file's content in base64, the commit
    message and the branch in the body. *)
Definition put_request (c : GitHubClient) (owner_repo branch path_in_repo : string)
    (content message : string) : request :=
  mk_request "PUT"
    (base c +:+ "/repos/" +:+ owner_repo +:+ "/contents/" +:+ quote path_in_repo)
    (token c)
    (Some (PDict (<["message" := PStr message]>
                 (<["content" := PStr content]>
                 (<["branch" := PStr (if String.eqb branch "" then "main"
                                      else branch)]> ∅)))))
    60.

(** The request [do_backup_now] sends for an item of the walker. *)
Definition upload_request (w : world) (client : GitHubClient)
    (repo branch base_in_repo backup_name : string) (item : string * path) :
    request :=
  put_request client repo branch (_gh_join [base_in_repo; item.1])
    (w_b64encode w (default [] (file_at (w_fs w) item.2)))
    ("OBS backup " +:+ backup_name +:+ ": " +:+ item.1).

(** A configuration directory with one file, GitHub chosen as destination,
    token and repository set, and a remote that answers as [http] says. *)
Definition github_world (http : list request → request → http_outcome) : world :=
  mk_world "linux" ∅ ["home"; "u"] (Ok "pc") "20240101-000000" ["tmp"; "t1"]
    (λ _, "") (λ _, Ok []) (λ _, Ok ∅) http
    (config_disk {[ "basic.ini" := File [x61] ]}) []
    (<[K_DEST_TYPE := SStr "github"]>
       (<[K_GH_TOKEN := SStr "t"]> (<[K_GH_REPO_SELECT := SStr "u/a"]> ∅)))
    [] [] None None.


(** ** Restoring from a zip *)

(** The body of the loop of [_extract_zip_to_config] for the entry
    [item_name] of the unpacked root. *)
Definition unpack_entry (cfg extracted_root : path) (item_name : string) : M unit :=
  let item := extracted_root ++ [item_name] in
  let dest := path_join cfg item_name in
  let* _ := clear_dest dest in
  let* d := ask (λ w, is_dir (w_fs w) item) in
  if d then fs_try (copytree item dest)
  else let* _ := ensure_parent dest in fs_try (copy2 item dest).

(** A configuration directory with two files, and an archive [/bk.zip]
    whose tree is [obs-studio/basic.ini]. *)
Definition zip_world : world :=
  mk_world "linux" ∅ ["home"; "u"] (Ok "pc") "20240101-000000" ["tmp"; "t1"]
    (λ _, "") (λ _, Ok [])
    (λ _, Ok {[ "obs-studio" := Dir {[ "basic.ini" := File [x62] ]} ]})
    (λ _ _, NetFailure (URLError "unreachable"))
    (<["bk.zip" := File [x50]]>
       (config_disk (<["basic.ini" := File [x61]]> {[ "global.ini" := File [x63] ]})))
    [] ∅ [] [] None None.

(** The same disk with an archive the unpacking rejects. *)
Definition bad_zip_world : world :=
  mk_world "linux" ∅ ["home"; "u"] (Ok "pc") "20240101-000000" ["tmp"; "t1"]
    (λ _, "") (λ _, Ok [])
    (λ _, Raise (OSError "File is not a zip file"))
    (λ _ _, NetFailure (URLError "unreachable"))
    (<["bk.zip" := File [x50]]>
       (config_disk (<["basic.ini" := File [x61]]> {[ "global.ini" := File [x63] ]})))
    [] ∅ [] [] None None.


(** ** The list of repositories *)

(** The name an item of the repository listing is sorted and shown by:
    [x.get("full_name", "")]. *)
Definition full_name (d : gmap string pyval) : pyval :=
  default (PStr "") (d !! "full_name").

(** Keys from the least to the greatest, equal ones side by side. *)
Fixpoint ascending (keys : list string) : Prop :=
  match keys with
  | a :: (b :: _) as rest => String.ltb b a = false ∧ ascending rest
  | _ => True
  end.

(** A remote with three repositories, one of them without a name, on one
    page; the token is set and the panel has a repository list. *)
Definition repos_world : world :=
  mk_world "linux" ∅ ["home"; "u"] (Ok "pc") "20240101-000000" ["tmp"; "t1"]
    (λ _, "") (λ _, Ok []) (λ _, Ok ∅)
    (λ sent _, match sent with
               | [] => Response (Some (PList (map PDict
                         [ {[ "full_name" := PStr "b/x" ]};
                           {[ "full_name" := PStr "" ]};
                           {[ "full_name" := PStr "A/y" ]} ])))
               | _ => Response (Some (PList []))
               end)
    ∅ [] {[ K_GH_TOKEN := SStr "t" ]} [] [] None (Some []).


(** ** Further worlds used by the examples *)

(** A disk where the directory [/c/d] stands where a file is to be
    restored. *)
Definition occupied_dest : world :=
  linux_world {[ "c" := Dir {[ "d" := Dir {[ "x" := File [x62] ]} ]} ]}.

(** A remote that answers the first request with two items, the second
    with one, and every later one with an empty list. *)
Definition three_pages : world :=
  remote_world ∅
    (λ sent _, match sent with
               | [] => Response (Some (PList [PStr "a"; PStr "b"]))
               | [_] => Response (Some (PList [PStr "c"]))
               | _ => Response (Some (PList []))
               end).


(** * Properties *)

(** ** Strings *)

Lemma str_app_cons (x : ascii) (a b : string) :
  String x a +:+ b = String x (a +:+ b).
Proof. reflexivity. Qed.

Lemma str_app_nil_l (b : string) : "" +:+ b = b.
Proof. reflexivity. Qed.

Ltac str_simpl := rewrite ?str_app_cons, ?str_app_nil_l; simpl.

Lemma str_drop_app (a b : string) : str_drop (String.length a) (a +:+ b) = b.
Proof. induction a as [|c a IH]; str_simpl; auto. Qed.

Lemma str_app_assoc (a b c : string) : (a +:+ b) +:+ c = a +:+ (b +:+ c).
Proof. induction a as [|x a IH]; str_simpl; [done|by rewrite IH]. Qed.

Lemma str_length_app (a b : string) :
  String.length (a +:+ b) = String.length a + String.length b.
Proof. induction a as [|x a IH]; str_simpl; [done|by rewrite IH]. Qed.

Lemma str_app_nil_r (a : string) : a +:+ "" = a.
Proof. induction a as [|x a IH]; str_simpl; [done|by rewrite IH]. Qed.

Lemma str_app_eq_nil (a b : string) : a +:+ b = "" → a = "" ∧ b = "".
Proof. destruct a; str_simpl; [done|discriminate]. Qed.

Lemma rstrip_with_app p (a b : string) :
  rstrip_with p b ≠ "" → rstrip_with p (a +:+ b) = a +:+ rstrip_with p b.
Proof.
  intros Hb. induction a as [|c a IH]; str_simpl; [done|].
  rewrite IH. destruct (p c); simpl; [|done].
  destruct (String.eqb_spec (a +:+ rstrip_with p b) "") as [E|E]; [|done].
  apply str_app_eq_nil in E as [_ E]. done.
Qed.

Lemma lstrip_with_app p (a b : string) :
  lstrip_with p (a +:+ b) =
    if String.eqb (lstrip_with p a) "" then lstrip_with p b
    else lstrip_with p a +:+ b.
Proof.
  induction a as [|c a IH]; str_simpl; [done|].
  destruct (p c); [done|]. done.
Qed.

Lemma lstrip_nil_rstrip_nil p (s : string) :
  lstrip_with p s = "" → rstrip_with p s = "".
Proof.
  induction s as [|c s IH]; simpl; [done|].
  destruct (p c) eqn:E; [|discriminate].
  intros H. rewrite (IH H). done.
Qed.

Lemma rstrip_with_idem p (s : string) :
  rstrip_with p (rstrip_with p s) = rstrip_with p s.
Proof.
  induction s as [|c s IH]; simpl; [done|].
  destruct (p c) eqn:E; simpl.
  - destruct (String.eqb_spec (rstrip_with p s) "") as [E'|E']; [done|].
    simpl. rewrite IH, E. simpl.
    destruct (String.eqb_spec (rstrip_with p s) ""); done.
  - simpl. by rewrite IH, E.
Qed.

(** The prefix [do_restore_remote] strips is the remote root as
    [_gh_join] writes it: no slash at either end. *)
Lemma remote_root_gh_join (sel_path : string) :
  strip_slash (rstrip_slash sel_path +:+ "/obs-studio")
  = _gh_join [sel_path; "obs-studio"].
Proof.
  unfold strip_slash, rstrip_slash, lstrip_slash.
  rewrite (rstrip_with_app is_slash _ "/obs-studio") by (vm_compute; discriminate).
  change (rstrip_with is_slash "/obs-studio") with "/obs-studio".
  rewrite lstrip_with_app.
  change (lstrip_with is_slash "/obs-studio") with "obs-studio".
  unfold _gh_join. rewrite filter_cons.
  destruct (decide (sel_path ≠ "")) as [Hne|He].
  - rewrite filter_cons_True by done. simpl map.
    rewrite filter_cons.
    unfold strip_slash at 1, lstrip_slash, rstrip_slash.
    destruct (String.eqb_spec (lstrip_with is_slash (rstrip_with is_slash sel_path)) "")
      as [E|E].
    + rewrite decide_False by (intros H; apply H; exact E).
      by vm_compute.
    + rewrite decide_True by done.
      change (strip_slash "obs-studio") with "obs-studio".
      rewrite filter_cons_True by done. by simpl.
  - assert (sel_path = "") as -> by (destruct (decide (sel_path = "")); [done|by destruct He]).
    by vm_compute.
Qed.

Lemma remote_rel_under_root (sel_path r : string) :
  remote_rel (rstrip_slash sel_path +:+ "/obs-studio")
    (_gh_join [sel_path; "obs-studio"] +:+ "/" +:+ r) = r.
Proof.
  unfold remote_rel. rewrite remote_root_gh_join.
  set (root := _gh_join [sel_path; "obs-studio"]).
  replace (String.length root + 1) with (String.length (root +:+ "/"))
    by (rewrite str_length_app; done).
  rewrite <- str_app_assoc. apply str_drop_app.
Qed.

(** ** Monad equations *)

Lemma bind_ok {A B} (c : M A) (k : A → M B) w a w' :
  c w = (Ok a, w') → bind c k w = k a w'.
Proof. unfold bind. by intros ->. Qed.

Lemma bind_raise {A B} (c : M A) (k : A → M B) w e w' :
  c w = (Raise e, w') → bind c k w = (Raise e, w').
Proof. unfold bind. by intros ->. Qed.

Lemma bind_inv {A B} (c : M A) (k : A → M B) w r w'' :
  bind c k w = (r, w'') →
  (∃ a w', c w = (Ok a, w') ∧ k a w' = (r, w''))
  ∨ (∃ e, c w = (Raise e, w'') ∧ r = Raise e).
Proof.
  unfold bind. destruct (c w) as [[a|e] w'] eqn:E; intros H.
  - left. eauto.
  - right. inversion H; subst. eauto.
Qed.

(** ** The locator *)

Lemma path_join_obs_studio (p : path) : path_join p "obs-studio" = p ++ ["obs-studio"].
Proof. reflexivity. Qed.

Lemma path_join_config (p : path) : path_join p ".config" = p ++ [".config"].
Proof. reflexivity. Qed.

Lemma path_join_library (p : path) :
  path_join (path_join p "Library") "Application Support"
  = p ++ ["Library"; "Application Support"].
Proof. unfold path_join at 1. simpl. unfold path_join. simpl. by rewrite <- app_assoc. Qed.

(** C6, as the code has it: the locator raises only on Windows with
    [APPDATA] unset or empty, and then a [RuntimeError]; in every other
    case it returns the path of the platform, whatever is on the disk.  That
    the directory is missing is found by the walker, which raises
    [FileNotFoundError]. *)
Theorem get_obs_config_dir_fails_iff (w : world) :
  ((∃ e, get_obs_config_dir w = Raise e) ↔
      startswith "win" (w_platform w) = true
      ∧ default "" (w_environ w !! "APPDATA") = "")
  ∧ (∀ e, get_obs_config_dir w = Raise e →
      e = RuntimeError "APPDATA not set; cannot locate OBS config")
  ∧ (∀ p, get_obs_config_dir w = Ok p → p = platform_dir w)
  ∧ (∀ t, get_obs_config_dir (set_fs t w) = get_obs_config_dir w)
  ∧ (∀ p il ic, get_obs_config_dir w = Ok p →
      path_exists (w_fs w) p = false →
      iter_obs_files il ic w
      = Raise (FileNotFoundError ("OBS config not found at " +:+ path_str p))).
Proof.
  split_and!.
  - unfold get_obs_config_dir.
    destruct (startswith "win" (w_platform w)).
    + destruct (w_environ w !! "APPDATA") as [a|]; simpl.
      * destruct (String.eqb_spec a "") as [->|Hne]; split; eauto.
        -- intros [e He]. discriminate.
        -- intros [_ Ha]. done.
      * split; eauto.
    + split; [|intros [? _]; discriminate]. intros [e He].
      destruct (String.eqb _ "darwin"); [done|].
      destruct (w_environ w !! "XDG_CONFIG_HOME") as [x|]; [|done].
      by destruct (String.eqb x "").
  - unfold get_obs_config_dir. intros e.
    destruct (startswith "win" (w_platform w)).
    + destruct (w_environ w !! "APPDATA") as [a|]; [|congruence].
      destruct (String.eqb a ""); congruence.
    + destruct (String.eqb _ "darwin"); [done|].
      destruct (w_environ w !! "XDG_CONFIG_HOME") as [x|]; [|done].
      by destruct (String.eqb x "").
  - unfold get_obs_config_dir, platform_dir. intros p.
    destruct (startswith "win" (w_platform w)).
    + destruct (w_environ w !! "APPDATA") as [a|]; [|done]. simpl.
      destruct (String.eqb a ""); [done|].
      rewrite path_join_obs_studio. congruence.
    + destruct (String.eqb _ "darwin").
      { rewrite path_join_library, path_join_obs_studio, <- app_assoc. simpl. congruence. }
      destruct (w_environ w !! "XDG_CONFIG_HOME") as [x|]; simpl.
      * destruct (String.eqb x "");
          rewrite ?path_join_config, ?path_join_obs_studio, <- ?app_assoc; simpl; congruence.
      * rewrite ?path_join_config, ?path_join_obs_studio, <- ?app_assoc; simpl; congruence.
  - done.
  - intros p il ic Hp Hex. unfold iter_obs_files. rewrite Hp. simpl.
    unfold path_exists in Hex. by destruct (lookup_path (w_fs w) p).
Qed.

(** On the Linux host whose disk is empty the locator still answers. *)
Lemma get_obs_config_dir_missing_dir :
  get_obs_config_dir (linux_world ∅) = Ok ["home"; "u"; ".config"; "obs-studio"]
  ∧ path_exists (w_fs (linux_world ∅)) ["home"; "u"; ".config"; "obs-studio"] = false.
Proof. split; reflexivity. Qed.

Lemma get_obs_config_dir_fails_iff_witness :
  iter_obs_files false false (linux_world ∅)
  = Raise (FileNotFoundError "OBS config not found at /home/u/.config/obs-studio").
Proof.
  exact (proj2 (proj2 (proj2 (proj2 (get_obs_config_dir_fails_iff (linux_world ∅)))))
           ["home"; "u"; ".config"; "obs-studio"] false false eq_refl eq_refl).
Defined.

(** ** The GitHub client *)

Lemma contents_url_str c owner_repo branch p :
  ∃ url, contents_url c owner_repo branch (PStr p) = Ok url.
Proof.
  unfold contents_url, quote_path. simpl.
  destruct (negb (String.eqb p "")); simpl; eauto.
Qed.

(** C7: [list_dir] for a repository, a branch and a path.  A 404 gives the
    empty list and no exception; a response that is not a list gives the
    list of that one value; any other [HTTPError] raises the
    [RuntimeError] that carries the status and the detail. *)
Theorem list_dir_outcomes (c : GitHubClient) (owner_repo branch p : string)
    (w : world) (out : http_outcome) :
  let req := contents_request c owner_repo branch p 30 in
  w_http w (w_sent w) req = out →
  match out with
  | HTTPFailure code body str_e =>
      if (code =? 404)%Z then
        list_dir c owner_repo branch (PStr p) w = (Ok [], add_sent req w)
      else
        list_dir c owner_repo branch (PStr p) w
        = (Raise (RuntimeError ("GitHub list failed: " +:+ pretty code +:+ " "
                                +:+ default str_e body)), add_sent req w)
  | Response (Some (PList l)) =>
      list_dir c owner_repo branch (PStr p) w = (Ok l, add_sent req w)
  | Response (Some data) =>
      list_dir c owner_repo branch (PStr p) w = (Ok [data], add_sent req w)
  | _ => True
  end.
Proof.
  intros req Hout. subst req. unfold contents_request in *.
  destruct (contents_url_str c owner_repo branch p) as [url Hurl].
  rewrite Hurl in Hout.
  unfold list_dir, bind, ask_result, urlopen. rewrite Hurl, Hout.
  destruct out as [[data|]|code body str_e|e]; simpl; try done.
  - by destruct data.
  - by destruct (code =? 404)%Z.
Qed.

Lemma list_dir_outcomes_witness :
  list_dir (new_client "t") "u/a" "main" (PStr "obs-backups")
    (remote_world ∅ (λ _ _, HTTPFailure 404 None "HTTP Error 404: Not Found"))
  = (Ok [],
     add_sent (contents_request (new_client "t") "u/a" "main" "obs-backups" 30)
       (remote_world ∅ (λ _ _, HTTPFailure 404 None "HTTP Error 404: Not Found"))).
Proof.
  exact (list_dir_outcomes (new_client "t") "u/a" "main" "obs-backups"
           (remote_world ∅ (λ _ _, HTTPFailure 404 None "HTTP Error 404: Not Found"))
           (HTTPFailure 404 None "HTTP Error 404: Not Found") eq_refl).
Defined.

(** C8, as the code has it: an [HTTPError] on the request for any page
    makes [list_user_repos] raise, whatever the earlier pages brought;
    [_on_fetch_repos] then logs one line at error severity and returns
    [True]. *)
Theorem list_user_repos_page_failure :
  (∀ fuel c page repos w code body str_e,
      w_http w (w_sent w) (repos_request c page) = HTTPFailure code body str_e →
      list_user_repos_from (S fuel) c page repos w
      = (Raise (RuntimeError ("GitHub repo list failed: " +:+ pretty code +:+ " "
                              +:+ default str_e body)),
         add_sent (repos_request c page) w))
  ∧ (∀ fuel w e w',
      g_get_str K_GH_TOKEN "" w ≠ "" →
      list_user_repos fuel (new_client (g_get_str K_GH_TOKEN "" w)) w = (Raise e, w') →
      _on_fetch_repos fuel w
      = (Ok (Some true), add_log LOG_ERROR ("Fetching repos failed: " +:+ exn_str e) w')).
Proof.
  split.
  - intros fuel c page repos w code body str_e Hout.
    unfold repos_request in Hout. simpl.
    unfold bind, urlopen, ask_result. by rewrite Hout.
  - intros fuel w e w' Htok Hrun.
    unfold _on_fetch_repos, try_except, fetch_repos_body, bind, ask.
    destruct (String.eqb_spec (g_get_str K_GH_TOKEN "" w) "") as [E|_]; [done|].
    by rewrite Hrun.
Qed.

(** One page arrives, the next request fails: nothing is returned. *)
Lemma list_user_repos_no_partial_result :
  (list_user_repos 5 (new_client "t") second_page_fails).1
  = Raise (RuntimeError
      "GitHub repo list failed: 500 HTTP Error 500: Internal Server Error")
  ∧ (_on_fetch_repos 5 second_page_fails).1 = Ok (Some true)
  ∧ w_log (_on_fetch_repos 5 second_page_fails).2
    = [(LOG_ERROR, "Fetching repos failed: GitHub repo list failed: 500 HTTP Error 500: Internal Server Error")]
  ∧ w_repo_list (_on_fetch_repos 5 second_page_fails).2
    = Some [("old/repo", "old/repo")].
Proof. split_and!; vm_compute; reflexivity. Qed.

Lemma list_user_repos_page_failure_witness :
  list_user_repos_from 1 (new_client "t") 1 [PStr "earlier"]
    (remote_world ∅ (λ _ _, HTTPFailure 500 None "HTTP Error 500"))
  = (Raise (RuntimeError "GitHub repo list failed: 500 HTTP Error 500"),
     add_sent (repos_request (new_client "t") 1)
       (remote_world ∅ (λ _ _, HTTPFailure 500 None "HTTP Error 500"))).
Proof.
  exact (proj1 list_user_repos_page_failure 0 (new_client "t") 1 [PStr "earlier"]
           (remote_world ∅ (λ _ _, HTTPFailure 500 None "HTTP Error 500"))
           500%Z None "HTTP Error 500" eq_refl).
Defined.

(** ** The operations never raise *)

Lemma guarded_run (what : string) (body : M unit) (w : world) :
  guarded what body w =
    match body w with
    | (Ok _, w') => (Ok true, w')
    | (Raise e, w') => (Ok false, add_log LOG_ERROR (what +:+ exn_str e) w')
    end.
Proof.
  unfold guarded, try_except, bind, ret, err, _log.
  by destruct (body w) as [[[]|e] w'].
Qed.

Lemma guarded_total (what : string) (body : M unit) (w : world) :
  ∃ b w', guarded what body w = (Ok b, w') ∧ reported what body w b w'.
Proof.
  rewrite guarded_run. destruct (body w) as [[[]|e] w'] eqn:E.
  - exists true, w'. split; [done|]. by exists tt.
  - exists false, (add_log LOG_ERROR (what +:+ exn_str e) w'). split; [done|].
    by exists e, w'.
Qed.

(** More fuel does not change a traversal that came to its end. *)
Lemma collect_pairs_mono (S : steps) client repo branch base_ n :
  ∀ stack pairs w r w',
    collect_pairs n S client repo branch base_ stack pairs w = (r, w') →
    r ≠ Ok None →
    ∀ m, (n ≤ m)%nat →
      collect_pairs m S client repo branch base_ stack pairs w = (r, w').
Proof.
  induction n as [|n IH]; intros stack pairs w r w' Hrun Hr m Hm.
  - destruct stack as [|p stack]; simpl in Hrun.
    + by destruct m.
    + unfold ret in Hrun. by inversion Hrun; subst.
  - destruct m as [|m]; [lia|].
    destruct stack as [|p stack]; simpl in *; [done|].
    unfold bind in *.
    destruct (st_list_dir S client repo branch p w) as [[items|e] w1]; [|done].
    destruct (collect_items S client repo branch base_ items stack pairs w1)
      as [[[stack' pairs']|e] w2]; [|done].
    apply IH; [done|done|lia].
Qed.

Lemma restore_remote_body_mono (S : steps) n w r w' :
  restore_remote_body S n w = (r, w') → r ≠ Ok None →
  ∀ m, (n ≤ m)%nat → restore_remote_body S m w = (r, w').
Proof.
  intros Hrun Hr m Hm. unfold restore_remote_body, bind, ask in *.
  destruct (_ || _); [done|].
  set (c := new_client _) in *. set (b := rstrip_slash _ +:+ _) in *.
  destruct (collect_pairs n S c _ _ b [PStr b] [] w) as [rc wc] eqn:Ec.
  assert (rc ≠ Ok None) as Hrc.
  { intros ->. unfold ret in Hrun. inversion Hrun; subst. done. }
  by rewrite (collect_pairs_mono _ _ _ _ _ _ _ _ _ _ _ Ec Hrc m Hm).
Qed.

(** ** Paths in the tree *)

Lemma resolve_app (n : node) (p q : path) :
  resolve n (p ++ q) = resolve n p ≫= λ m, resolve m q.
Proof.
  revert n. induction p as [|c p IH]; intros n; simpl; [done|].
  destruct n as [d|es]; [done|].
  destruct (es !! c) as [ch|]; simpl; [apply IH|done].
Qed.

Lemma lookup_path_app (t : gmap string node) (p q : path) :
  lookup_path t (p ++ q) = lookup_path t p ≫= λ m, resolve m q.
Proof. apply resolve_app. Qed.

Lemma path_join_name (p : path) (s : string) :
  parts_of s = [s] → startswith "/" s = false → path_join p s = p ++ [s].
Proof. unfold path_join. by intros -> ->. Qed.

(** ** Restore from a folder *)





(** ** Induction on trees, folds over directories *)

Lemma foldr_add_le {A} (g : A → nat) (l : list A) (x : A) :
  x ∈ l → (g x ≤ foldr (λ y acc, g y + acc) 0 l)%nat.
Proof.
  induction l as [|y l IH]; intros Hin; [by apply elem_of_nil in Hin|].
  apply elem_of_cons in Hin as [->|Hin]; simpl; [lia|].
  specialize (IH Hin). lia.
Qed.

Lemma node_size_child (es : gmap string node) (k : string) (c : node) :
  es !! k = Some c → (node_size c < node_size (Dir es))%nat.
Proof.
  intros Hk. simpl. rewrite map_fold_foldr.
  apply elem_of_map_to_list in Hk.
  pose proof (foldr_add_le (λ kc : string * node, node_size kc.2) _ _ Hk) as H.
  simpl in H.
  replace (foldr (uncurry (λ (_ : string) (c0 : node) (acc : nat), node_size c0 + acc)) 0
             (map_to_list es))
    with (foldr (λ (y : string * node) (acc : nat), node_size y.2 + acc) 0 (map_to_list es)).
  - lia.
  - apply foldr_ext; [|done..]. by intros [] ?.
Qed.

Lemma node_children_ind (P : node → Prop) :
  (∀ data, P (File data)) →
  (∀ es, (∀ k c, es !! k = Some c → P c) → P (Dir es)) →
  ∀ n, P n.
Proof.
  intros Hfile Hdir n.
  remember (node_size n) as s eqn:Hs.
  revert n Hs. induction s as [s IH] using lt_wf_ind. intros n ->.
  destruct n as [data|es]; [apply Hfile|].
  apply Hdir. intros k c Hk.
  apply (IH (node_size c)); [by eapply node_size_child|done].
Qed.

Lemma elem_of_map_fold_app {A B} (g : string → A → list B)
    (f : string → A → list B → list B) (m : gmap string A) (x : B) :
  (∀ k a acc, f k a acc = g k a ++ acc) →
  x ∈ map_fold f [] m ↔ ∃ k a, m !! k = Some a ∧ x ∈ g k a.
Proof.
  intros Hf. rewrite map_fold_foldr.
  assert (∀ l : list (string * A),
            x ∈ foldr (uncurry f) [] l ↔ ∃ k a, (k, a) ∈ l ∧ x ∈ g k a) as Hl.
  { induction l as [|[k a] l IH]; simpl.
    - split; [by intros ?%elem_of_nil|]. by intros (? & ? & ?%elem_of_nil & _).
    - rewrite Hf, elem_of_app, IH. split.
      + intros [Hx|(k' & a' & Hin & Hx)].
        * exists k, a. split; [left|done].
        * exists k', a'. split; [by right|done].
      + intros (k' & a' & Hin & Hx).
        apply elem_of_cons in Hin as [[= -> ->]|Hin]; [by left|].
        right. eauto. }
  rewrite Hl. split; intros (k & a & Hin & Hx); exists k, a;
    (split; [by apply elem_of_map_to_list|done]).
Qed.

Lemma map_fold_and_true {A} (g : string → A → bool) (m : gmap string A) :
  map_fold (λ k a acc, g k a && acc) true m = true ↔
  ∀ k a, m !! k = Some a → g k a = true.
Proof.
  rewrite map_fold_foldr.
  assert (∀ l : list (string * A),
            foldr (uncurry (λ k a acc, g k a && acc)) true l = true
            ↔ ∀ k a, (k, a) ∈ l → g k a = true) as Hl.
  { induction l as [|[k a] l IH]; simpl.
    - split; [|done]. by intros _ ? ? ?%elem_of_nil.
    - rewrite andb_true_iff, IH. split.
      + intros [Hk Hall] k' a' [[= -> ->]|Hin]%elem_of_cons; eauto.
      + intros Hall. split; [apply Hall; left|].
        intros k' a' Hin. apply Hall. by right. }
  rewrite Hl. split; intros H k a Hk; apply H; by apply elem_of_map_to_list.
Qed.

Lemma valid_tree_dir (es : gmap string node) :
  valid_tree (Dir es) = true ↔
  ∀ k c, es !! k = Some c → valid_name k = true ∧ valid_tree c = true.
Proof.
  simpl.
  rewrite (map_fold_and_true (λ k c, valid_name k && valid_tree c)).
  split; intros H k c Hk; specialize (H k c Hk).
  - by apply andb_true_iff in H.
  - by apply andb_true_iff.
Qed.

Lemma valid_tree_resolve (p : path) :
  ∀ n c, valid_tree n = true → resolve n p = Some c →
    Forall (λ s, valid_name s = true) p ∧ valid_tree c = true.
Proof.
  induction p as [|x p IH]; intros n c Hv Hr; simpl in Hr.
  - injection Hr as <-. by split.
  - destruct n as [|es]; [done|].
    destruct (es !! x) as [ch|] eqn:Hx; [|done]. simpl in Hr.
    apply (proj1 (valid_tree_dir es) Hv) in Hx as [Hname Hch].
    destruct (IH _ _ Hch Hr) as [Hp Hc]. split; [by constructor|done].
Qed.

(** ** The walker *)

Lemma resolve_file_cons (data : bytes) (c : string) (p : path) :
  resolve (File data) (c :: p) = None.
Proof. done. Qed.

Lemma entered_single ex root_rel f : entered ex root_rel [f].
Proof.
  intros ds d rest Heq Hne. destruct ds as [|x ds]; simpl in Heq.
  - injection Heq as _ <-. done.
  - injection Heq as _ Heq. by destruct ds.
Qed.

Lemma entered_cons ex root_rel d tail :
  tail ≠ [] →
  entered ex root_rel (d :: tail) ↔
  pruned ex root_rel d = false ∧ entered ex (root_rel ++ [d]) tail.
Proof.
  intros Hne. split.
  - intros H. split.
    + specialize (H [] d tail eq_refl Hne). by rewrite app_nil_r in H.
    + intros ds d' rest -> Hrest.
      specialize (H (d :: ds) d' rest eq_refl Hrest).
      by rewrite <- app_assoc.
  - intros [Hd H] ds d' rest Heq Hrest. destruct ds as [|x ds]; simpl in Heq.
    + injection Heq as <- <-. by rewrite app_nil_r.
    + injection Heq as <- ->. specialize (H ds d' rest eq_refl Hrest).
      by rewrite <- app_assoc in H.
Qed.

(** What the walk yields: the regular files of the tree that do not end in
    [.tmp] or [.lock] and lie in no pruned directory. *)
Lemma elem_of_walk ex cfg (n : node) :
  ∀ root_rel rel p,
    (rel, p) ∈ walk ex cfg root_rel n ↔
    ∃ tail data,
      resolve n tail = Some (File data) ∧ tail ≠ []
      ∧ rel = as_posix (root_rel ++ tail) ∧ p = cfg ++ root_rel ++ tail
      ∧ skipped_file (name tail) = false ∧ entered ex root_rel tail.
Proof.
  induction n as [data|es IH] using node_children_ind; intros root_rel rel p.
  - simpl. split; [by intros ?%elem_of_nil|].
    intros (tail & d & Hr & Hne & _). destruct tail; [done|]. done.
  - simpl. rewrite elem_of_app.
    rewrite (elem_of_map_fold_app
      (λ f c, match c with
              | File _ => if skipped_file f then []
                          else [(as_posix (root_rel ++ [f]), cfg ++ root_rel ++ [f])]
              | Dir _ => []
              end)).
    2:{ intros k [d|sub] acc; [by destruct (skipped_file k)|done]. }
    rewrite (elem_of_map_fold_app
      (λ d c, match c with
              | Dir _ => if pruned ex root_rel d then []
                         else walk ex cfg (root_rel ++ [d]) c
              | File _ => []
              end)).
    2:{ intros k [d|sub] acc; [done|by destruct (pruned ex root_rel k)]. }
    split.
    + intros [(f & c & Hf & Hin)|(d & c & Hd & Hin)].
      * destruct c as [data|sub]; [|by apply elem_of_nil in Hin].
        destruct (skipped_file f) eqn:Hs; [by apply elem_of_nil in Hin|].
        apply list_elem_of_singleton in Hin as [= -> ->].
        exists [f], data. simpl. rewrite Hf. simpl.
        split_and!; try done. apply entered_single.
      * destruct c as [data|sub]; [by apply elem_of_nil in Hin|].
        destruct (pruned ex root_rel d) eqn:Hp; [by apply elem_of_nil in Hin|].
        apply (IH d _ Hd) in Hin as (tail & data & Hr & Hne & -> & -> & Hs & He).
        exists (d :: tail), data. simpl. rewrite Hd. simpl.
        split_and!; try done.
        -- by rewrite <- app_assoc.
        -- by rewrite <- app_assoc.
        -- unfold name in *. by destruct tail.
        -- by apply entered_cons.
    + intros (tail & data & Hr & Hne & -> & -> & Hs & He).
      destruct tail as [|c tail]; [done|]. simpl in Hr.
      destruct (es !! c) as [ch|] eqn:Hc; [|done]. simpl in Hr.
      destruct tail as [|c' tail].
      * simpl in Hr. injection Hr as ->. left. exists c, (File data).
        split; [done|]. unfold name in Hs. simpl in Hs. rewrite Hs. by left.
      * right. destruct ch as [d|sub]; [done|].
        apply entered_cons in He as [Hp He]; [|done].
        exists c, (Dir sub). split; [done|]. rewrite Hp.
        apply (IH c _ Hc). exists (c' :: tail), data.
        split_and!; try done.
        -- by rewrite <- app_assoc.
        -- by rewrite <- app_assoc.
Qed.

Lemma pruned_false ex root_rel d :
  pruned ex root_rel d = false →
  startswith "." d = false
  ∧ ∀ e, e ∈ ex →
      as_posix (root_rel ++ [d]) ≠ e
      ∧ startswith (rstrip_slash e +:+ "/") (as_posix (root_rel ++ [d])) = false
      ∧ d ≠ e.
Proof.
  unfold pruned. intros [Hdot Hex]%orb_false_iff. split; [done|].
  intros e He.
  assert (excluded_by e (as_posix (root_rel ++ [d])) d = false) as Hb.
  { destruct (excluded_by e _ d) eqn:E; [|done].
    assert (existsb (λ ex0, excluded_by ex0 (as_posix (root_rel ++ [d])) d)
              (elements ex) = true) as Ht; [|congruence].
    apply existsb_exists. exists e. split; [|done].
    apply list_elem_of_In, elem_of_elements, He. }
  unfold excluded_by in Hb.
  apply orb_false_iff in Hb as [[H1 H2]%orb_false_iff H3].
  split_and!; [by apply String.eqb_neq|done|by apply String.eqb_neq].
Qed.

(** The items of [iter_obs_files], read off the tree. *)
Lemma elem_of_iter_obs_files il ic w items rel p :
  iter_obs_files il ic w = Ok items →
  (rel, p) ∈ items ↔
  ∃ cfg tail data,
    get_obs_config_dir w = Ok cfg
    ∧ file_at (w_fs w) (cfg ++ tail) = Some data ∧ tail ≠ []
    ∧ rel = as_posix tail ∧ p = cfg ++ tail
    ∧ skipped_file (name tail) = false
    ∧ entered (_excluded_dirs il ic) [] tail.
Proof.
  unfold iter_obs_files. destruct (get_obs_config_dir w) as [cfg|e]; [|done]. simpl.
  destruct (lookup_path (w_fs w) cfg) as [n|] eqn:Hn; [|done].
  intros [= <-]. rewrite elem_of_walk. split.
  - intros (tail & data & Hr & Hne & -> & -> & Hs & He).
    exists cfg, tail, data. split_and!; try done.
    unfold file_at. by rewrite lookup_path_app, Hn; simpl; rewrite Hr.
  - intros (cfg' & tail & data & [= <-] & Hf & Hne & -> & -> & Hs & He).
    exists tail, data. split_and!; try done.
    unfold file_at in Hf. rewrite lookup_path_app, Hn in Hf. simpl in Hf.
    destruct (resolve n tail) as [[d|]|]; by simplify_eq.
Qed.

(** ** Joined paths and their prefixes *)

Lemma str_prefix_cons (a b : ascii) (p s : string) :
  String.prefix (String a p) (String b s)
  = if Ascii.eqb a b then String.prefix p s else false.
Proof.
  simpl. destruct (ascii_dec a b) as [->|Hne].
  - by rewrite Ascii.eqb_refl.
  - by apply Ascii.eqb_neq in Hne as ->.
Qed.

Lemma as_posix_cons (x y : string) (l : path) :
  as_posix (x :: y :: l) = x +:+ "/" +:+ as_posix (y :: l).
Proof. reflexivity. Qed.

Lemma prefix_slash_free (x : string) :
  str_mem "/" x = false → ∀ ex, String.prefix (ex +:+ "/") x = false.
Proof.
  induction x as [|b x IH]; intros Hx ex.
  - by destruct ex.
  - simpl in Hx. apply orb_false_iff in Hx as [Hb Hx].
    destruct ex as [|a e].
    + rewrite str_app_nil_l, str_prefix_cons, Ascii.eqb_sym. by rewrite Hb.
    + rewrite str_app_cons, str_prefix_cons. destruct (Ascii.eqb a b); [by apply IH|done].
Qed.

Lemma prefix_first_slash (x : string) :
  str_mem "/" x = false →
  ∀ ex rest, String.prefix (ex +:+ "/") (x +:+ "/" +:+ rest) = true →
    ex = x ∨ ∃ ex', ex = x +:+ "/" +:+ ex' ∧ String.prefix (ex' +:+ "/") rest = true.
Proof.
  induction x as [|b x IH]; intros Hx ex rest Hp.
  - destruct ex as [|a e]; [by left|]. right.
    rewrite str_app_nil_l in Hp. rewrite !str_app_cons, str_app_nil_l in Hp.
    rewrite str_prefix_cons in Hp.
    destruct (Ascii.eqb_spec a "/") as [->|]; [|done].
    exists e. by rewrite !str_app_nil_l.
  - simpl in Hx. apply orb_false_iff in Hx as [Hb Hx].
    destruct ex as [|a e].
    + rewrite str_app_nil_l, !str_app_cons, str_app_nil_l, str_prefix_cons in Hp.
      rewrite Ascii.eqb_sym, Hb in Hp. done.
    + rewrite !str_app_cons, str_prefix_cons in Hp.
      destruct (Ascii.eqb_spec a b) as [->|]; [|done].
      destruct (IH Hx e rest Hp) as [->|(ex' & -> & Hrest)]; [by left|].
      right. exists ex'. by rewrite !str_app_cons.
Qed.

(** A joined path that starts with [ex/] has a directory on the way whose
    joined path is [ex]. *)
Lemma startswith_as_posix (tail : path) :
  Forall (λ s, str_mem "/" s = false) tail →
  ∀ ex, startswith (ex +:+ "/") (as_posix tail) = true →
    ∃ ds rest, tail = ds ++ rest ∧ ds ≠ [] ∧ rest ≠ [] ∧ ex = as_posix ds.
Proof.
  unfold startswith. induction tail as [|x tail IH]; intros Hall ex Hp.
  - by destruct ex.
  - apply Forall_cons in Hall as [Hx Hall].
    destruct tail as [|y tail].
    + change (as_posix [x]) with x in Hp. by rewrite prefix_slash_free in Hp.
    + rewrite as_posix_cons in Hp.
      destruct (prefix_first_slash x Hx ex _ Hp) as [->|(ex' & -> & Hrest)].
      * by exists [x], (y :: tail).
      * destruct (IH Hall ex' Hrest) as (ds & rest & Heq & Hds & Hrest' & ->).
        exists (x :: ds), rest. split_and!; try done.
        -- simpl. by rewrite Heq.
        -- destruct ds as [|d ds]; [done|]. by rewrite as_posix_cons.
Qed.

Lemma split_slash_free (x : string) :
  str_mem "/" x = false → split_slash x = [x].
Proof.
  induction x as [|b x IH]; intros Hx; [done|].
  simpl in *. apply orb_false_iff in Hx as [Hb Hx].
  rewrite Hb, (IH Hx). done.
Qed.

Lemma split_slash_app (x rest : string) :
  str_mem "/" x = false →
  split_slash (x +:+ "/" +:+ rest) = x :: split_slash rest.
Proof.
  induction x as [|b x IH]; intros Hx.
  - by rewrite !str_app_nil_l.
  - simpl in Hx. apply orb_false_iff in Hx as [Hb Hx].
    rewrite str_app_cons. simpl. rewrite Hb, (IH Hx). done.
Qed.

Lemma split_slash_as_posix (comps : path) :
  Forall (λ s, str_mem "/" s = false) comps → comps ≠ [] →
  split_slash (as_posix comps) = comps.
Proof.
  induction comps as [|x comps IH]; intros Hall Hne; [done|].
  apply Forall_cons in Hall as [Hx Hall].
  destruct comps as [|y comps].
  - by apply split_slash_free.
  - rewrite as_posix_cons, split_slash_app by done. by rewrite IH.
Qed.

Lemma valid_name_slash_free (s : string) :
  valid_name s = true → str_mem "/" s = false.
Proof.
  unfold valid_name. intros H.
  apply andb_true_iff in H as [[[_ H]%andb_true_iff _]%andb_true_iff _].
  by apply negb_true_iff.
Qed.

(** Joining valid names and parsing the result gives the names back. *)
Lemma parts_of_as_posix (comps : path) :
  Forall (λ s, valid_name s = true) comps → parts_of (as_posix comps) = comps.
Proof.
  intros Hall. destruct (decide (comps = [])) as [->|Hne]; [done|].
  unfold parts_of. rewrite split_slash_as_posix; [|by eapply Forall_impl;
    [done|intros; by apply valid_name_slash_free]|done].
  clear Hne. induction Hall as [|x comps Hx Hall IH]; [done|].
  rewrite filter_cons_True, IH; [done|].
  unfold valid_name in Hx.
  apply andb_true_iff in Hx as [[[H1 _]%andb_true_iff H2]%andb_true_iff _].
  apply negb_true_iff, String.eqb_neq in H1, H2. done.
Qed.

Lemma startswith_slash_as_posix (comps : path) :
  Forall (λ s, valid_name s = true) comps → startswith "/" (as_posix comps) = false.
Proof.
  intros Hall. destruct comps as [|x comps]; [done|].
  apply Forall_cons in Hall as [Hx _].
  pose proof (valid_name_slash_free x Hx) as Hs.
  unfold valid_name in Hx.
  apply andb_true_iff in Hx as [[[H1 _]%andb_true_iff _]%andb_true_iff _].
  destruct x as [|a x]; [done|]. simpl in Hs.
  apply orb_false_iff in Hs as [Ha _].
  unfold startswith.
  destruct comps; [change (as_posix [String a x]) with (String a x)
                  |rewrite as_posix_cons, str_app_cons];
    rewrite str_prefix_cons, Ascii.eqb_sym, Ha; done.
Qed.

Lemma path_join_as_posix (base_path comps : path) :
  Forall (λ s, valid_name s = true) comps →
  path_join base_path (as_posix comps) = base_path ++ comps.
Proof.
  intros Hall. unfold path_join.
  by rewrite startswith_slash_as_posix, parts_of_as_posix.
Qed.

Lemma elem_of_removelast {A} (l : list A) (d : A) :
  d ∈ removelast l → ∃ ds rest, l = ds ++ d :: rest ∧ rest ≠ [].
Proof.
  destruct l as [|x l _] using rev_ind; [by intros ?%elem_of_nil|].
  rewrite removelast_last. intros (l1 & l2 & ->)%list_elem_of_split.
  exists l1, (l2 ++ [x]). split; [by rewrite <- app_assoc|]. by destruct l2.
Qed.

Lemma excluded_dirs_elems il ic e :
  e ∈ _excluded_dirs il ic →
  e = "crashes" ∨ e = "plugin_config/cef_cache" ∨ e = "cache" ∨ e = "logs".
Proof. unfold _excluded_dirs. destruct il, ic; simpl; set_solver. Qed.

Lemma excluded_dirs_rstrip il ic e :
  e ∈ _excluded_dirs il ic → rstrip_slash e = e.
Proof. intros [-> | [-> | [-> | ->]]]%excluded_dirs_elems; reflexivity. Qed.

(** C10, as the code has it: a directory whose bare name is an entry of
    the active exclusion set is pruned at any depth, so no directory on the
    way to a yielded file bears such a name; with the default flags none is
    named [cache], [crashes] or [logs].  The name of the yielded file itself
    is not tested. *)
Theorem walker_prunes_by_name (il ic : bool) (w : world)
    (items : list (string * path)) (rel : string) (p : path) :
  iter_obs_files il ic w = Ok items → (rel, p) ∈ items →
  ∃ cfg tail,
    get_obs_config_dir w = Ok cfg ∧ p = cfg ++ tail ∧ rel = as_posix tail
    ∧ tail ≠ []
    ∧ (∀ d, d ∈ removelast tail →
        (d ∉ _excluded_dirs il ic)
        ∧ (il = false → ic = false →
             d ≠ "cache" ∧ d ≠ "crashes" ∧ d ≠ "logs")).
Proof.
  intros Hit Hin.
  apply (elem_of_iter_obs_files _ _ _ _ _ _ Hit) in Hin
    as (cfg & tail & data & Hcfg & Hf & Hne & -> & -> & Hs & He).
  exists cfg, tail. split_and!; try done.
  intros d (ds & rest & -> & Hrest)%elem_of_removelast.
  specialize (He ds d rest eq_refl Hrest). simpl in He.
  apply pruned_false in He as [_ He].
  assert (d ∉ _excluded_dirs il ic) as Hd.
  { intros Hd. by destruct (He d Hd) as (_ & _ & ?). }
  split; [done|]. intros -> ->.
  unfold _excluded_dirs in Hd. simpl in Hd.
  split_and!; intros ->; apply Hd; set_solver.
Qed.

(** A regular file named [cache] is yielded. *)
Lemma walker_yields_file_named_cache :
  iter_obs_files false false file_named_cache
  = Ok [("cache", ["home"; "u"; ".config"; "obs-studio"; "cache"])].
Proof. vm_compute. reflexivity. Qed.

Lemma walker_prunes_by_name_witness :
  ∃ cfg tail,
    get_obs_config_dir nested_logs = Ok cfg
    ∧ ["home"; "u"; ".config"; "obs-studio"; "basic"; "scene.json"] = cfg ++ tail
    ∧ "basic/scene.json" = as_posix tail ∧ tail ≠ []
    ∧ (∀ d, d ∈ removelast tail →
        (d ∉ _excluded_dirs false false)
        ∧ (false = false → false = false →
             d ≠ "cache" ∧ d ≠ "crashes" ∧ d ≠ "logs")).
Proof.
  apply (walker_prunes_by_name false false nested_logs
           [("basic/scene.json",
             ["home"; "u"; ".config"; "obs-studio"; "basic"; "scene.json"])]).
  - vm_compute. reflexivity.
  - left.
Defined.

(** The directory [basic/logs] is pruned for its name alone: its path is
    no entry of the exclusion set and lies under none. *)
Example walker_prunes_nested_logs :
  iter_obs_files false false nested_logs
  = Ok [("basic/scene.json",
         ["home"; "u"; ".config"; "obs-studio"; "basic"; "scene.json"])]
  ∧ file_at (w_fs nested_logs)
      ["home"; "u"; ".config"; "obs-studio"; "basic"; "logs"; "x.txt"] = Some [x62]
  ∧ forallb (λ ex, negb (String.eqb "basic/logs" ex)
                   && negb (startswith (ex +:+ "/") "basic/logs"))
      (elements (_excluded_dirs false false)) = true.
Proof. split_and!; vm_compute; reflexivity. Qed.

(** C4: no yielded file lies under an excluded directory.  For every entry
    of the active exclusion set, the path of a yielded file does not start
    with the entry and a slash, is not the path of a directory with that
    entry as its path, and has no directory on its way whose path is the
    entry or lies under it.  With [include_cache] the two cache entries
    leave the set and the others stay. *)
Theorem walker_excludes_subtrees :
  (∀ il ic w items rel p,
      valid_tree (Dir (w_fs w)) = true →
      iter_obs_files il ic w = Ok items → (rel, p) ∈ items →
      ∃ cfg tail,
        get_obs_config_dir w = Ok cfg ∧ p = cfg ++ tail ∧ rel = as_posix tail
        ∧ (∀ ex, ex ∈ _excluded_dirs il ic →
            startswith (ex +:+ "/") rel = false
            ∧ (is_dir (w_fs w) (cfg ++ parts_of ex) = true → rel ≠ ex)
            ∧ (∀ ds rest, tail = ds ++ rest → ds ≠ [] → rest ≠ [] →
                 as_posix ds ≠ ex
                 ∧ startswith (ex +:+ "/") (as_posix ds) = false)))
  ∧ (∀ il,
      ("cache" ∉ _excluded_dirs il true)
      ∧ ("plugin_config/cef_cache" ∉ _excluded_dirs il true)
      ∧ "crashes" ∈ _excluded_dirs il true
      ∧ ("logs" ∈ _excluded_dirs il true ↔ il = false)).
Proof.
  split.
  - intros il ic w items rel p Hv Hit Hin.
    apply (elem_of_iter_obs_files _ _ _ _ _ _ Hit) in Hin
      as (cfg & tail & data & Hcfg & Hf & Hne & -> & -> & Hs & He).
    exists cfg, tail. split_and!; try done.
    assert (Forall (λ s, valid_name s = true) tail) as Hnames.
    { unfold file_at, lookup_path in Hf.
      destruct (resolve (Dir (w_fs w)) (cfg ++ tail)) as [n|] eqn:Hr; [|done].
      destruct (valid_tree_resolve _ _ _ Hv Hr) as [Hall _].
      by apply Forall_app in Hall as [_ ?]. }
    intros ex Hex.
    assert (∀ ds rest, tail = ds ++ rest → ds ≠ [] → rest ≠ [] →
              as_posix ds ≠ ex ∧ startswith (ex +:+ "/") (as_posix ds) = false) as Hanc.
    { intros ds rest -> Hds Hrest.
      destruct ds as [|d ds _] using rev_ind; [done|].
      rewrite <- app_assoc in He. specialize (He ds d rest eq_refl Hrest).
      simpl in He. apply pruned_false in He as [_ He].
      destruct (He ex Hex) as (H1 & H2 & _).
      by rewrite (excluded_dirs_rstrip _ _ _ Hex) in H2. }
    split_and!; [| |done].
    + destruct (startswith (ex +:+ "/") (as_posix tail)) eqn:Hp; [|done].
      apply startswith_as_posix in Hp
        as (ds & rest & Heq & Hds & Hrest & Hj).
      * by destruct (Hanc ds rest Heq Hds Hrest) as [? _].
      * eapply Forall_impl; [done|]. intros. by apply valid_name_slash_free.
    + intros Hd <-. rewrite parts_of_as_posix in Hd by done.
      unfold is_dir, file_at in *.
      by destruct (lookup_path (w_fs w) (cfg ++ tail)) as [[]|].
  - intros il. unfold _excluded_dirs. destruct il; simpl; split_and!; set_solver.
Qed.

Lemma walker_excludes_subtrees_witness :
  ∃ cfg tail,
    get_obs_config_dir nested_logs = Ok cfg
    ∧ ["home"; "u"; ".config"; "obs-studio"; "basic"; "scene.json"] = cfg ++ tail
    ∧ "basic/scene.json" = as_posix tail
    ∧ (∀ ex, ex ∈ _excluded_dirs false false →
        startswith (ex +:+ "/") "basic/scene.json" = false
        ∧ (is_dir (w_fs nested_logs) (cfg ++ parts_of ex) = true →
             "basic/scene.json" ≠ ex)
        ∧ (∀ ds rest, tail = ds ++ rest → ds ≠ [] → rest ≠ [] →
             as_posix ds ≠ ex
             ∧ startswith (ex +:+ "/") (as_posix ds) = false)).
Proof.
  apply (proj1 walker_excludes_subtrees false false nested_logs
           [("basic/scene.json",
             ["home"; "u"; ".config"; "obs-studio"; "basic"; "scene.json"])]).
  - vm_compute. reflexivity.
  - vm_compute. reflexivity.
  - left.
Defined.

(** ** The disk after a change *)

Lemma is_dir_entry t p : is_dir t p = true ↔ entry_at t p = Some None.
Proof. unfold is_dir, entry_at. by destruct (lookup_path t p) as [[]|]. Qed.

Lemma is_dir_false_entry t p : is_dir t p = false ↔ entry_at t p ≠ Some None.
Proof. unfold is_dir, entry_at. by destruct (lookup_path t p) as [[]|]. Qed.

Lemma is_file_entry t p : is_file t p = true ↔ ∃ d, entry_at t p = Some (Some d).
Proof.
  unfold is_file, entry_at. destruct (lookup_path t p) as [[]|]; split;
    try (intros (? & ?)); eauto; done.
Qed.

Lemma file_at_entry t p d : file_at t p = Some d ↔ entry_at t p = Some (Some d).
Proof.
  unfold file_at, entry_at.
  destruct (lookup_path t p) as [[]|]; split; intros; by simplify_eq.
Qed.

Lemma file_at_of_entry t t' p :
  entry_at t p = entry_at t' p → file_at t p = file_at t' p.
Proof.
  unfold file_at, entry_at.
  destruct (lookup_path t p) as [[]|], (lookup_path t' p) as [[]|];
    intros; by simplify_eq.
Qed.

Lemma path_exists_entry t p : path_exists t p = true ↔ entry_at t p ≠ None.
Proof. unfold path_exists, entry_at. by destruct (lookup_path t p) as [[]|]. Qed.

Lemma path_exists_false_entry t p : path_exists t p = false ↔ entry_at t p = None.
Proof. unfold path_exists, entry_at. by destruct (lookup_path t p) as [[]|]. Qed.

Lemma lookup_path_nil t : lookup_path t [] = Some (Dir t).
Proof. done. Qed.

Lemma lookup_path_cons t c p :
  lookup_path t (c :: p) = t !! c ≫= λ n, resolve n p.
Proof. done. Qed.

Lemma resolve_dir es p : resolve (Dir es) p = lookup_path es p.
Proof. done. Qed.

Lemma lookup_path_empty c p : lookup_path ∅ (c :: p) = None.
Proof. by rewrite lookup_path_cons, lookup_empty. Qed.

(** Two paths: one runs through the other, or they part at some name. *)
Lemma path_trichotomy (p q : path) :
  (∃ r, q = p ++ r)
  ∨ (∃ x r, p = q ++ x :: r)
  ∨ (∃ l a b p' q', a ≠ b ∧ p = l ++ a :: p' ∧ q = l ++ b :: q').
Proof.
  revert q. induction p as [|a p IH]; intros q.
  - left. by exists q.
  - destruct q as [|b q].
    + right. left. by exists a, p.
    + destruct (decide (a = b)) as [->|Hne].
      * destruct (IH q) as [[r ->]|[(x & r & ->)|(l & a' & b' & p' & q' & Hn & -> & ->)]].
        -- left. by exists r.
        -- right. left. by exists x, r.
        -- right. right. by exists (b :: l), a', b', p', q'.
      * right. right. by exists [], a, b, p, q.
Qed.

Lemma at_dir_app c l p f t :
  at_dir c (l ++ p) f t = at_dir c l (at_dir c p f) t.
Proof.
  revert t. induction l as [|x l IH]; intros t; simpl; [done|].
  destruct (t !! x) as [[d|sub]|]; [done|by rewrite IH|].
  destruct c; [by rewrite IH|done].
Qed.

(** The directory a change is made in: its entries before, [∅] when the
    change makes the directory, and its entries after. *)
Lemma at_dir_here p :
  ∀ c f t t', at_dir c p f t = Ok t' →
    ∃ es es', f es = Ok es' ∧ lookup_path t' p = Some (Dir es')
      ∧ (lookup_path t p = Some (Dir es)
         ∨ (c = true ∧ lookup_path t p = None ∧ es = ∅)).
Proof.
  induction p as [|x p IH]; intros c f t t' H; simpl in H.
  - exists t, t'. split_and!; [done|done|by left].
  - rewrite !lookup_path_cons.
    destruct (t !! x) as [[d|sub]|] eqn:Hx; [done| |].
    + destruct (at_dir c p f sub) as [r|e] eqn:Hr; [|done].
      simpl in H. injection H as <-. rewrite lookup_insert_eq. simpl.
      rewrite !resolve_dir. by apply IH.
    + destruct c; [|done].
      destruct (at_dir true p f ∅) as [r|e] eqn:Hr; [|done].
      simpl in H. injection H as <-. rewrite lookup_insert_eq. simpl.
      rewrite resolve_dir.
      destruct (IH _ _ _ _ Hr) as (es & es' & Hf & Hl & Hor).
      assert (es = ∅) as ->.
      { destruct Hor as [Hor|(_ & _ & ->)]; [|done].
        destruct p; [by injection Hor as <-|by rewrite lookup_path_empty in Hor]. }
      exists ∅, es'. split_and!; [done|done|by right].
Qed.

Lemma at_dir_diverge l :
  ∀ c a p f t t' b q, at_dir c (l ++ a :: p) f t = Ok t' → b ≠ a →
    lookup_path t' (l ++ b :: q) = lookup_path t (l ++ b :: q).
Proof.
  induction l as [|x l IH]; intros c a p f t t' b q H Hne; simpl in H.
  - simpl. rewrite !lookup_path_cons.
    destruct (t !! a) as [[d|sub]|]; [done| |].
    + destruct (at_dir c p f sub) as [r|e]; [|done].
      simpl in H. injection H as <-. by rewrite lookup_insert_ne.
    + destruct c; [|done]. destruct (at_dir true p f ∅) as [r|e]; [|done].
      simpl in H. injection H as <-. by rewrite lookup_insert_ne.
  - simpl. rewrite !lookup_path_cons.
    destruct (t !! x) as [[d|sub]|] eqn:Hx; [done| |].
    + destruct (at_dir c (l ++ a :: p) f sub) as [r|e] eqn:Hr; [|done].
      simpl in H. injection H as <-. rewrite lookup_insert_eq. simpl.
      rewrite !resolve_dir. by eapply IH.
    + destruct c; [|done].
      destruct (at_dir true (l ++ a :: p) f ∅) as [r|e] eqn:Hr; [|done].
      simpl in H. injection H as <-. rewrite lookup_insert_eq. simpl.
      rewrite resolve_dir, (IH _ _ _ _ _ _ _ _ Hr Hne).
      by destruct l.
Qed.

(** A change inside a directory leaves what parted from the way to it. *)
Lemma at_dir_entry_diverge l c a p f t t' b q :
  at_dir c (l ++ a :: p) f t = Ok t' → b ≠ a →
  entry_at t' (l ++ b :: q) = entry_at t (l ++ b :: q).
Proof. intros H Hne. unfold entry_at. by rewrite (at_dir_diverge _ _ _ _ _ _ _ _ _ H Hne). Qed.

(** The directories on the way to a change are directories after it and
    were no files before. *)
Lemma at_dir_entry_above q c x p f t t' :
  at_dir c (q ++ x :: p) f t = Ok t' →
  entry_at t' q = Some None ∧ (entry_at t q = Some None ∨ (c = true ∧ entry_at t q = None)).
Proof.
  rewrite at_dir_app. intros H.
  destruct (at_dir_here _ _ _ _ _ H) as (es & es' & _ & Hl & Hor).
  unfold entry_at. rewrite Hl. split; [done|].
  destruct Hor as [->|(-> & -> & _)]; [by left|by right].
Qed.

Lemma at_dir_below p c f t t' :
  at_dir c p f t = Ok t' →
  ∃ es es', f es = Ok es'
    ∧ (lookup_path t p = Some (Dir es)
       ∨ (c = true ∧ lookup_path t p = None ∧ es = ∅))
    ∧ ∀ r, lookup_path t' (p ++ r) = lookup_path es' r.
Proof.
  intros H. destruct (at_dir_here _ _ _ _ _ H) as (es & es' & Hf & Hl & Hor).
  exists es, es'. split_and!; [done..|].
  intros r. by rewrite lookup_path_app, Hl.
Qed.

Lemma at_dir_ok p :
  ∀ c f t es es', lookup_path t p = Some (Dir es) → f es = Ok es' →
    ∃ t', at_dir c p f t = Ok t'.
Proof.
  induction p as [|x p IH]; intros c f t es es' Hl Hf; simpl.
  - injection Hl as ->. eauto.
  - rewrite lookup_path_cons in Hl.
    destruct (t !! x) as [[d|sub]|]; simpl in Hl; [by destruct p|..|done].
    rewrite resolve_dir in Hl.
    destruct (IH c f sub es es' Hl Hf) as [r ->]. simpl. eauto.
Qed.

Lemma not_prefix_app_cons {A} (p : list A) (y : A) (r : list A) :
  ¬ (p ++ y :: r) `prefix_of` p.
Proof.
  intros [k Hk]. apply (f_equal length) in Hk.
  rewrite !length_app in Hk. simpl in Hk. lia.
Qed.

Lemma not_prefix_diverge {A} (l : list A) (a b : A) (p q : list A) :
  a ≠ b → ¬ (l ++ b :: q) `prefix_of` (l ++ a :: p).
Proof.
  intros Hne [k Hk]. rewrite <- app_assoc in Hk. apply app_inv_head in Hk.
  simpl in Hk. by injection Hk.
Qed.

Lemma mkdir_p_at_dir p t t' : mkdir_p p t = Ok t' ↔ at_dir true p Ok t = Ok t'.
Proof.
  unfold mkdir_p. destruct (at_dir true p Ok t); [done|].
  by destruct (is_file t p).
Qed.

(** [mkdir(parents=True, exist_ok=True)] makes directories of the path and
    of what leads to it, and changes nothing else. *)
Lemma mkdir_p_entry p t t' q :
  mkdir_p p t = Ok t' →
  entry_at t' q = if bool_decide (q `prefix_of` p) then Some None else entry_at t q.
Proof.
  intros H%mkdir_p_at_dir.
  destruct (path_trichotomy p q)
    as [[r ->]|[(x & r & ->)|(l & a & b & p' & q' & Hn & -> & ->)]].
  - destruct (at_dir_below _ _ _ _ _ H) as (es & es' & [= <-] & Hor & Hl).
    destruct r as [|y r].
    + rewrite app_nil_r, bool_decide_eq_true_2 by done.
      unfold entry_at. specialize (Hl []). rewrite app_nil_r in Hl. by rewrite Hl.
    + rewrite bool_decide_eq_false_2 by apply not_prefix_app_cons.
      unfold entry_at. rewrite Hl, lookup_path_app.
      destruct Hor as [->|(_ & -> & ->)]; [done|]. simpl.
      by rewrite lookup_path_empty.
  - rewrite bool_decide_eq_true_2 by (by exists (x :: r)).
    by destruct (at_dir_entry_above _ _ _ _ _ _ _ H) as [-> _].
  - rewrite bool_decide_eq_false_2 by (by apply not_prefix_diverge).
    by eapply at_dir_entry_diverge.
Qed.

Lemma mkdir_p_ok p :
  ∀ t, (∀ q, q `prefix_of` p → is_file t q = false) → ∃ t', mkdir_p p t = Ok t'.
Proof.
  intros t H. setoid_rewrite mkdir_p_at_dir. revert t H.
  induction p as [|x p IH]; intros t H; simpl; [eauto|].
  destruct (t !! x) as [[d|sub]|] eqn:Hx.
  - specialize (H [x]). unfold is_file in H. rewrite lookup_path_cons, Hx in H.
    simpl in H. by discriminate H; exists p.
  - destruct (IH sub) as [r ->]; [|simpl; eauto].
    intros q [k ->]. specialize (H (x :: q)).
    unfold is_file in *. rewrite lookup_path_cons, Hx in H. simpl in H.
    apply H. by exists k.
  - destruct (IH ∅) as [r ->]; [|simpl; eauto].
    intros q _. unfold is_file. by destruct q; [|rewrite lookup_path_empty].
Qed.

(** A directory that is there already: nothing changes. *)
Lemma mkdir_p_existing p :
  ∀ t, is_dir t p = true → mkdir_p p t = Ok t.
Proof.
  intros t H. apply mkdir_p_at_dir. revert t H.
  induction p as [|x p IH]; intros t H; simpl; [done|].
  unfold is_dir in H. rewrite lookup_path_cons in H.
  destruct (t !! x) as [[d|sub]|] eqn:Hx; simpl in H; [by destruct p| |done].
  rewrite resolve_dir in H. rewrite (IH sub); [|done]. simpl.
  by rewrite insert_id.
Qed.

Lemma parent_snoc (l : path) (n : string) : parent (l ++ [n]) = l.
Proof. apply removelast_last. Qed.

Lemma name_snoc (l : path) (n : string) : name (l ++ [n]) = n.
Proof. apply last_last. Qed.

Lemma write_file_at_dir l n data t :
  write_file (l ++ [n]) data t
  = at_dir false l
      (λ es, match es !! n with
             | Some (Dir _) => Raise (IsADirectoryError (as_posix (l ++ [n])))
             | _ => Ok (<[n := File data]> es)
             end) t.
Proof.
  unfold write_file. rewrite parent_snoc, name_snoc. by destruct l.
Qed.

(** Writing a file changes the entry of that file and nothing else. *)
Lemma write_file_entry l n data t t' q :
  write_file (l ++ [n]) data t = Ok t' →
  entry_at t' q = if bool_decide (q = l ++ [n]) then Some (Some data) else entry_at t q.
Proof.
  rewrite write_file_at_dir. intros H.
  destruct (path_trichotomy l q)
    as [[r ->]|[(x & r & ->)|(k & a & b & p' & q' & Hn & -> & ->)]].
  - destruct (at_dir_below _ _ _ _ _ H) as (es & es' & Hf & Hor & Hl).
    destruct Hor as [Hes|(? & _)]; [|done].
    assert (es' = <[n := File data]> es ∧ ∀ sub, es !! n ≠ Some (Dir sub))
      as [-> Hnd].
    { destruct (es !! n) as [[d|sub]|]; [|done|]; by injection Hf as <-. }
    unfold entry_at. rewrite Hl, lookup_path_app, Hes. simpl. rewrite resolve_dir.
    destruct r as [|y r].
    + rewrite bool_decide_eq_false_2; [done|].
      intros Heq. by apply app_inv_head in Heq.
    + rewrite !lookup_path_cons. destruct (decide (y = n)) as [->|Hy].
      * rewrite lookup_insert_eq. simpl. destruct r as [|z r].
        -- by rewrite bool_decide_eq_true_2.
        -- rewrite bool_decide_eq_false_2;
             [|intros Heq; apply app_inv_head in Heq; by simplify_eq].
           destruct (es !! n) as [[d|sub]|] eqn:E; simpl; [done| |done].
           by destruct (Hnd sub).
      * rewrite lookup_insert_ne by done.
        rewrite bool_decide_eq_false_2; [done|].
        intros Heq; apply app_inv_head in Heq; by simplify_eq.
  - rewrite bool_decide_eq_false_2.
    + destruct (at_dir_entry_above _ _ _ _ _ _ _ H) as [-> [->|(? & _)]]; done.
    + intros Heq. apply (f_equal length) in Heq.
      rewrite ?length_app in Heq. simpl in Heq. lia.
  - rewrite bool_decide_eq_false_2.
    + by eapply at_dir_entry_diverge.
    + intros Heq. rewrite <- app_assoc in Heq. apply app_inv_head in Heq.
      simpl in Heq. by simplify_eq.
Qed.

Lemma write_file_ok l n data t :
  entry_at t l = Some None → entry_at t (l ++ [n]) ≠ Some None →
  ∃ t', write_file (l ++ [n]) data t = Ok t'.
Proof.
  rewrite write_file_at_dir. unfold entry_at.
  destruct (lookup_path t l) as [[d|es]|] eqn:Hl; [done| |done].
  intros _ Hn. rewrite lookup_path_app, Hl in Hn. simpl in Hn.
  eapply at_dir_ok; [done|].
  destruct (es !! n) as [[d|sub]|]; simpl in Hn; done.
Qed.

(** A change of one entry of a directory leaves the other entries. *)
Lemma at_dir_sibling l c f t t' n b q :
  at_dir c l f t = Ok t' →
  (∀ es es', f es = Ok es' → es' !! b = es !! b) →
  b ≠ n →
  lookup_path t' (l ++ b :: q) = lookup_path t (l ++ b :: q).
Proof.
  intros H Hf _.
  destruct (at_dir_below _ _ _ _ _ H) as (es & es' & Hes & Hor & Hl).
  rewrite Hl, lookup_path_app, !lookup_path_cons, (Hf _ _ Hes).
  destruct Hor as [->|(_ & -> & ->)]; [done|]. by rewrite lookup_empty.
Qed.

(** A change made through the parent of [p = k ++ a :: p'] to the entry
    named as [p] leaves every path that parts from [p] after [k]. *)
Lemma at_parent_frame c p f t t' k a p' b q :
  p = k ++ a :: p' →
  at_dir c (parent p) f t = Ok t' →
  (∀ es es' y, f es = Ok es' → y ≠ name p → es' !! y = es !! y) →
  b ≠ a →
  lookup_path t' (k ++ b :: q) = lookup_path t (k ++ b :: q).
Proof.
  intros -> H Hf Hne.
  destruct p' as [|x p' _] using rev_ind.
  - change (k ++ [a]) with (k ++ [a]) in *. rewrite parent_snoc in H.
    eapply (at_dir_sibling _ _ _ _ _ a); [done| |done].
    intros es es' Hes. apply (Hf _ _ _ Hes). by rewrite name_snoc.
  - replace (k ++ a :: p' ++ [x]) with ((k ++ a :: p') ++ [x]) in H
      by (by rewrite <- app_assoc).
    rewrite parent_snoc in H. by eapply at_dir_diverge.
Qed.

Lemma mkdir_p_frame k a p' t t' b q :
  mkdir_p (k ++ a :: p') t = Ok t' → b ≠ a →
  lookup_path t' (k ++ b :: q) = lookup_path t (k ++ b :: q).
Proof. intros H%mkdir_p_at_dir Hne. by eapply at_dir_diverge. Qed.

Lemma write_file_frame k a p' data t t' b q :
  write_file (k ++ a :: p') data t = Ok t' → b ≠ a →
  lookup_path t' (k ++ b :: q) = lookup_path t (k ++ b :: q).
Proof.
  unfold write_file. destruct (k ++ a :: p') as [|x r] eqn:E; [done|].
  rewrite <- E. intros H Hne.
  eapply (at_parent_frame _ _ _ _ _ _ _ _ _ _ eq_refl H); [|done].
  intros es es' y Hes Hy. destruct (es !! name (k ++ a :: p')) as [[]|];
    simplify_eq; by rewrite lookup_insert_ne.
Qed.

Lemma unlink_frame k a p' t t' b q :
  unlink (k ++ a :: p') t = Ok t' → b ≠ a →
  lookup_path t' (k ++ b :: q) = lookup_path t (k ++ b :: q).
Proof.
  unfold unlink. destruct (k ++ a :: p') as [|x r] eqn:E; [done|].
  rewrite <- E. intros H Hne.
  eapply (at_parent_frame _ _ _ _ _ _ _ _ _ _ eq_refl H); [|done].
  intros es es' y Hes Hy. destruct (es !! name (k ++ a :: p')) as [[]|];
    simplify_eq; by rewrite lookup_delete_ne.
Qed.

Lemma rmtree_ignore_frame k a p' t b q :
  b ≠ a →
  lookup_path (rmtree_ignore (k ++ a :: p') t) (k ++ b :: q)
  = lookup_path t (k ++ b :: q).
Proof.
  intros Hne. unfold rmtree_ignore.
  destruct (k ++ a :: p') as [|x r] eqn:E; [done|]. rewrite <- E.
  destruct (is_dir t (k ++ a :: p')); [|done].
  destruct (at_dir false _ _ t) as [t'|e] eqn:H; [|done].
  eapply (at_parent_frame _ _ _ _ _ _ _ _ _ _ eq_refl H); [|done].
  intros es es' y [= <-] Hy. by rewrite lookup_delete_ne.
Qed.

Lemma copytree_frame src k a p' t t' b q :
  copytree src (k ++ a :: p') t = Ok t' → b ≠ a →
  lookup_path t' (k ++ b :: q) = lookup_path t (k ++ b :: q).
Proof.
  unfold copytree. destruct (lookup_path t src) as [[d|es]|]; [done| |done].
  destruct (path_exists t _); [done|]. intros H Hne.
  eapply (at_parent_frame _ _ _ _ _ _ _ _ _ _ eq_refl H); [|done].
  intros ds ds' y [= <-] Hy. by rewrite lookup_insert_ne.
Qed.

(** After [rmtree] of a directory the path is free. *)
Lemma rmtree_ignore_gone l n t :
  is_dir t (l ++ [n]) = true →
  lookup_path (rmtree_ignore (l ++ [n]) t) (l ++ [n]) = None.
Proof.
  intros Hd.
  assert (∃ es, lookup_path t l = Some (Dir es)) as [es Hl].
  { unfold is_dir in Hd. rewrite lookup_path_app in Hd.
    destruct (lookup_path t l) as [[d|es]|]; try done. eauto. }
  destruct (at_dir_ok l false (λ es, Ok (delete n es)) t es _ Hl eq_refl) as [t' Ht].
  assert (rmtree_ignore (l ++ [n]) t = t') as ->.
  { unfold rmtree_ignore. rewrite Hd, parent_snoc, name_snoc, Ht. by destruct l. }
  destruct (at_dir_below _ _ _ _ _ Ht) as (es0 & es' & [= <-] & _ & Hb).
  by rewrite Hb, lookup_path_cons, lookup_delete_eq.
Qed.

(** [copytree] puts a copy of the source at a free path in a directory. *)
Lemma copytree_copy src l n t es :
  lookup_path t src = Some (Dir es) → is_dir t l = true →
  lookup_path t (l ++ [n]) = None →
  ∃ t', copytree src (l ++ [n]) t = Ok t'
        ∧ lookup_path t' (l ++ [n]) = Some (Dir es).
Proof.
  intros Hsrc Hl Hfree. unfold copytree, path_exists. rewrite Hsrc, Hfree.
  rewrite parent_snoc, name_snoc.
  unfold is_dir in Hl. destruct (lookup_path t l) as [[d|ls]|] eqn:Hls; try done.
  destruct (at_dir_ok l true (λ ds, Ok (<[n := Dir es]> ds)) t ls _ Hls eq_refl)
    as [t' Ht].
  exists t'. split; [done|].
  destruct (at_dir_below _ _ _ _ _ Ht) as (es0 & es' & [= <-] & _ & Hb).
  by rewrite Hb, lookup_path_cons, lookup_insert_eq.
Qed.

Lemma copytree_taken src p t d :
  lookup_path t p = Some (File d) → ∃ e, copytree src p t = Raise e.
Proof.
  intros Hp. unfold copytree, path_exists. rewrite Hp.
  destruct (lookup_path t src) as [[|]|]; eauto.
Qed.

(** ** The snapshot before a restore *)

Lemma config_dir_parent w cfg :
  get_obs_config_dir w = Ok cfg → ∃ b, cfg = b ++ ["obs-studio"].
Proof.
  unfold get_obs_config_dir.
  destruct (startswith "win" (w_platform w)).
  - destruct (w_environ w !! "APPDATA") as [a|]; [|done].
    destruct (String.eqb a ""); [done|]. rewrite path_join_obs_studio.
    intros [= <-]. eauto.
  - destruct (String.eqb _ "darwin").
    { rewrite path_join_obs_studio. intros [= <-]. eauto. }
    destruct (w_environ w !! "XDG_CONFIG_HOME") as [x|];
      [destruct (String.eqb x "")|]; rewrite path_join_obs_studio;
      intros [= <-]; eauto.
Qed.

Lemma str_mem_app c (a b : string) :
  str_mem c (a +:+ b) = str_mem c a || str_mem c b.
Proof.
  induction a as [|x a IH]; [done|]. rewrite str_app_cons. simpl.
  by rewrite IH, orb_assoc.
Qed.

Lemma snapshot_name_parts w :
  str_mem "/" (w_now w) = false →
  parts_of (snapshot_name w) = [snapshot_name w]
  ∧ startswith "/" (snapshot_name w) = false
  ∧ snapshot_name w ≠ "obs-studio".
Proof.
  intros Hnow. unfold snapshot_name, now_stamp. split_and!.
  - unfold parts_of. rewrite split_slash_free.
    + rewrite filter_cons_True; [done|]. split; discriminate.
    + by rewrite str_mem_app, Hnow.
  - reflexivity.
  - intros H. apply (f_equal String.length) in H.
    rewrite str_length_app in H. simpl in H. lia.
Qed.

Lemma snapshot_path_eq w b :
  str_mem "/" (w_now w) = false →
  snapshot_path (b ++ ["obs-studio"]) w = b ++ [snapshot_name w].
Proof.
  intros Hnow. destruct (snapshot_name_parts w Hnow) as (Hp & Hs & _).
  unfold snapshot_path. rewrite parent_snoc.
  fold (snapshot_name w). by apply path_join_name.
Qed.

Lemma startswith_app (p r : string) : startswith p (p +:+ r) = true.
Proof.
  unfold startswith. induction p as [|a p IH]; [by destruct r|].
  by rewrite str_app_cons, str_prefix_cons, Ascii.eqb_refl.
Qed.

Lemma lookup_path_parent_dir t l x r n :
  lookup_path t (l ++ x :: r) = Some n → ∃ es, lookup_path t l = Some (Dir es).
Proof.
  rewrite lookup_path_app. destruct (lookup_path t l) as [[d|es]|]; try done.
  eauto.
Qed.

(** The snapshot step when the configuration directory is there: it never
    raises; only the entry of the snapshot in the parent directory can
    change; the snapshot is a copy of the configuration directory unless a
    regular file has its name, and then the disk stays as it is and a
    warning is logged. *)
Lemma backup_current_config_run w b :
  get_obs_config_dir w = Ok (b ++ ["obs-studio"]) →
  is_dir (w_fs w) (b ++ ["obs-studio"]) = true →
  str_mem "/" (w_now w) = false →
  let l1 := "Backing up current config to " +:+ path_str (b ++ [snapshot_name w]) in
  ∃ t1,
    (∀ x q, x ≠ snapshot_name w →
       lookup_path t1 (b ++ x :: q) = lookup_path (w_fs w) (b ++ x :: q))
  ∧ (is_file (w_fs w) (b ++ [snapshot_name w]) = false →
       lookup_path t1 (b ++ [snapshot_name w])
       = lookup_path (w_fs w) (b ++ ["obs-studio"])
       ∧ _backup_current_config w = (Ok tt, set_fs t1 (add_log LOG_INFO l1 w)))
  ∧ (is_file (w_fs w) (b ++ [snapshot_name w]) = true →
       t1 = w_fs w
       ∧ ∃ e, _backup_current_config w
              = (Ok tt, set_fs t1
                   (add_log LOG_WARNING
                      ("Unable to backup previous state: " +:+ exn_str e)
                      (add_log LOG_INFO l1 w)))).
Proof.
  intros Hcfg Hdir Hnow l1.
  destruct (snapshot_name_parts w Hnow) as (_ & _ & Hsn).
  set (cfg := b ++ ["obs-studio"]) in *. set (snap := b ++ [snapshot_name w]) in *.
  assert (∃ es, lookup_path (w_fs w) cfg = Some (Dir es)) as [es Hes].
  { unfold is_dir in Hdir. destruct (lookup_path (w_fs w) cfg) as [[]|]; eauto; done. }
  assert (path_exists (w_fs w) cfg = true) as Hex.
  { unfold path_exists. by rewrite Hes. }
  assert (_backup_current_config w
          = try_except (snapshot_to cfg snap)
              (λ e, warn ("Unable to backup previous state: " +:+ exn_str e)) w) as Hrun.
  { unfold _backup_current_config, bind, ask_result, ask.
    rewrite Hcfg, Hex. simpl. unfold cfg. by rewrite snapshot_path_eq. }
  unfold try_except, snapshot_to, bind, info, _log, ask in Hrun. simpl in Hrun.
  fold l1 in Hrun.
  destruct (lookup_path (w_fs w) snap) as [[d|ss]|] eqn:Hsnap.
  - (* a regular file has the name *)
    exists (w_fs w).
    assert (path_exists (w_fs w) snap = true) as Hthere
      by (unfold path_exists; by rewrite Hsnap).
    assert (is_file (w_fs w) snap = true) as Hfile
      by (unfold is_file; by rewrite Hsnap).
    rewrite Hthere in Hrun. unfold fs_do, fs_try in Hrun. simpl in Hrun.
    assert (rmtree_ignore snap (w_fs w) = w_fs w) as Hrm.
    { unfold rmtree_ignore, is_dir. rewrite Hsnap. by destruct snap. }
    rewrite Hrm in Hrun.
    destruct (copytree_taken cfg snap (w_fs w) d Hsnap) as [e He].
    rewrite He in Hrun. unfold warn, _log in Hrun.
    split_and!; [done|by rewrite Hfile|].
    intros _. split; [done|]. by exists e.
  - (* a directory has the name: it is replaced *)
    assert (path_exists (w_fs w) snap = true) as Hthere
      by (unfold path_exists; by rewrite Hsnap).
    rewrite Hthere in Hrun. unfold fs_do, fs_try in Hrun. simpl in Hrun.
    set (t0 := rmtree_ignore snap (w_fs w)) in *.
    assert (lookup_path t0 cfg = Some (Dir es)) as Hes0.
    { unfold t0, snap, cfg. rewrite rmtree_ignore_frame; [done|by apply not_eq_sym]. }
    assert (lookup_path t0 snap = None) as Hfree.
    { apply rmtree_ignore_gone. fold snap. unfold is_dir. by rewrite Hsnap. }
    destruct (lookup_path_parent_dir _ _ _ _ _ Hes0) as [bs Hb].
    destruct (copytree_copy cfg b (snapshot_name w) t0 es Hes0) as (t1 & Hcp & Hl1);
      [unfold is_dir; by rewrite Hb|done|].
    fold snap in Hcp, Hl1. rewrite Hcp in Hrun.
    assert (is_file (w_fs w) snap = false) as Hnf
      by (unfold is_file; by rewrite Hsnap).
    exists t1. split_and!; [| |by rewrite Hnf].
    + intros x q Hx. unfold snap in Hcp.
      rewrite (copytree_frame _ _ _ [] _ _ _ _ Hcp Hx).
      unfold t0, snap. by rewrite (rmtree_ignore_frame b _ []).
    + intros _. split; [|done]. by rewrite Hl1, Hes.
  - (* the name is free *)
    assert (path_exists (w_fs w) snap = false) as Hthere
      by (unfold path_exists; by rewrite Hsnap).
    rewrite Hthere in Hrun. unfold ret, fs_try in Hrun. simpl in Hrun.
    destruct (lookup_path_parent_dir _ _ _ _ _ Hes) as [bs Hb].
    destruct (copytree_copy cfg b (snapshot_name w) (w_fs w) es Hes) as (t1 & Hcp & Hl1);
      [unfold is_dir; by rewrite Hb|done|].
    fold snap in Hcp, Hl1. rewrite Hcp in Hrun.
    assert (is_file (w_fs w) snap = false) as Hnf
      by (unfold is_file; by rewrite Hsnap).
    exists t1. split_and!; [| |by rewrite Hnf].
    + intros x q Hx. unfold snap in Hcp.
      by rewrite (copytree_frame _ _ _ [] _ _ _ _ Hcp Hx).
    + intros _. split; [|done]. by rewrite Hl1, Hes.
Qed.

Lemma set_fs_id w : set_fs (w_fs w) w = w.
Proof. by destruct w. Qed.

Lemma mkdir_p_below p t t' y r :
  mkdir_p p t = Ok t' →
  lookup_path t' (p ++ y :: r) = lookup_path t (p ++ y :: r).
Proof.
  intros H%mkdir_p_at_dir.
  destruct (at_dir_below _ _ _ _ _ H) as (es & es' & [= <-] & Hor & Hl).
  rewrite Hl, lookup_path_app.
  destruct Hor as [->|(_ & -> & ->)]; [done|]. by rewrite lookup_path_empty.
Qed.

(** With the configuration directory in place, a restore takes the
    snapshot and then writes. *)
Lemma restore_pairs_run pairs w cfg :
  get_obs_config_dir w = Ok cfg → is_dir (w_fs w) cfg = true →
  _restore_pairs_to_config pairs w
  = (let* _ := _backup_current_config in for_each pairs (write_pair cfg)) w.
Proof.
  intros Hcfg Hdir. unfold _restore_pairs_to_config.
  unfold bind at 1, ask_result at 1. rewrite Hcfg.
  unfold bind at 1, fs_try at 1. rewrite (mkdir_p_existing _ _ Hdir).
  by rewrite set_fs_id.
Qed.

Lemma extract_zip_run zp w cfg :
  get_obs_config_dir w = Ok cfg → is_dir (w_fs w) cfg = true →
  _extract_zip_to_config zp w
  = (let* _ := _backup_current_config in unpack_zip cfg zp) w.
Proof.
  intros Hcfg Hdir.
  assert (path_exists (w_fs w) cfg = true) as Hex.
  { unfold is_dir, path_exists in *. by destruct (lookup_path (w_fs w) cfg). }
  unfold _extract_zip_to_config, _backup_current_config.
  unfold bind, ask_result, ask, try_except, ret. rewrite Hcfg, Hex. simpl.
  rewrite Hex. done.
Qed.

Lemma same_beside_config_refl b t : same_beside_config b t t.
Proof. by intros x q _. Qed.

Lemma same_beside_config_trans b t1 t2 t3 :
  same_beside_config b t1 t2 → same_beside_config b t2 t3 →
  same_beside_config b t1 t3.
Proof. intros H1 H2 x q Hx. by rewrite (H2 x q Hx), (H1 x q Hx). Qed.

Lemma clear_dest_frame b parts w r w' :
  clear_dest (b ++ "obs-studio" :: parts) w = (r, w') →
  same_beside_config b (w_fs w) (w_fs w').
Proof.
  unfold clear_dest, bind, ask, fs_do, try_except, fs_try, ret.
  destruct (path_exists _ _); [|intros [= _ <-]; apply same_beside_config_refl].
  destruct (is_dir _ _).
  - intros [= _ <-]. simpl. intros x q Hx. by apply rmtree_ignore_frame.
  - destruct (unlink _ _) as [t'|e] eqn:Hu; intros [= _ <-];
      [|apply same_beside_config_refl].
    simpl. intros x q Hx. by eapply unlink_frame.
Qed.

Lemma ensure_parent_frame b parts w r w' :
  ensure_parent (b ++ "obs-studio" :: parts) w = (r, w') →
  same_beside_config b (w_fs w) (w_fs w').
Proof.
  unfold ensure_parent, fs_try.
  destruct (mkdir_p _ _) as [t'|e] eqn:Hm; intros [= _ <-];
    [|apply same_beside_config_refl].
  simpl. intros x q Hx.
  destruct parts as [|z parts _] using rev_ind.
  - change (b ++ ["obs-studio"]) with (b ++ ["obs-studio"]) in Hm.
    rewrite parent_snoc in Hm. by eapply mkdir_p_below.
  - replace (b ++ "obs-studio" :: parts ++ [z])
      with ((b ++ "obs-studio" :: parts) ++ [z]) in Hm by (by rewrite <- app_assoc).
    rewrite parent_snoc in Hm. by eapply mkdir_p_frame.
Qed.

(** Writing a pair whose path is safe touches the configuration directory
    only, whether it ends well or not. *)
Lemma write_pair_frame b pair w r w' :
  safe_rel pair.1 →
  write_pair (b ++ ["obs-studio"]) pair w = (r, w') →
  same_beside_config b (w_fs w) (w_fs w').
Proof.
  destruct pair as [rel data]. simpl. intros Hsafe.
  unfold write_pair. unfold bind at 1, ask_result at 1.
  destruct rel as [| | |s| |]; simpl; try (intros [= _ <-]; apply same_beside_config_refl).
  destruct (Hsafe s eq_refl) as [Hrel _].
  unfold path_join. rewrite Hrel, <- app_assoc. simpl.
  set (dest := b ++ "obs-studio" :: parts_of s).
  unfold bind at 1.
  destruct (clear_dest dest w) as [[[]|e] w1] eqn:H1;
    [|intros [= _ <-]; by eapply clear_dest_frame].
  unfold bind at 1.
  destruct (ensure_parent dest w1) as [[[]|e] w2] eqn:H2.
  - unfold fs_try. destruct (write_file dest data (w_fs w2)) as [t3|e] eqn:H3;
      intros [= _ <-]; simpl.
    + eapply same_beside_config_trans; [by eapply clear_dest_frame|].
      eapply same_beside_config_trans; [by eapply ensure_parent_frame|].
      intros x q Hx. by eapply write_file_frame.
    + eapply same_beside_config_trans; [by eapply clear_dest_frame|].
      by eapply ensure_parent_frame.
  - intros [= _ <-].
    eapply same_beside_config_trans; [by eapply clear_dest_frame|].
    by eapply ensure_parent_frame.
Qed.

Lemma write_pairs_frame b pairs :
  Forall (λ pair, safe_rel pair.1) pairs →
  ∀ w r w', for_each pairs (write_pair (b ++ ["obs-studio"])) w = (r, w') →
    same_beside_config b (w_fs w) (w_fs w').
Proof.
  induction 1 as [|pair pairs Hsafe _ IH]; intros w r w'; simpl.
  - intros [= _ <-]. apply same_beside_config_refl.
  - unfold bind.
    destruct (write_pair _ pair w) as [[[]|e] w1] eqn:H1.
    + intros H2. eapply same_beside_config_trans;
        [by eapply write_pair_frame|by eapply IH].
    + intros [= _ <-]. by eapply write_pair_frame.
Qed.

(** C2, as the code has it by design: a restore that reaches the overwrite
    pass with the configuration directory in place takes its snapshot
    first.  The snapshot step never raises; it changes nothing in the parent
    directory but the entry [obs-studio.before-restore-<timestamp>], which
    becomes a copy of the configuration directory; when a regular file has
    that name nothing is copied, a warning is logged, and the restore goes
    on all the same.  The pairs written afterwards stay inside the
    configuration directory, so the restore leaves no other directory
    beside it. *)
Theorem restore_takes_snapshot (w : world) (cfg : path) :
  get_obs_config_dir w = Ok cfg →
  is_dir (w_fs w) cfg = true →
  str_mem "/" (w_now w) = false →
  let snap := parent cfg ++ [snapshot_name w] in
  let line := (LOG_INFO, "Backing up current config to " +:+ path_str snap) in
  ∃ w1,
    _backup_current_config w = (Ok tt, w1)
    ∧ (∀ pairs,
         _restore_pairs_to_config pairs w = for_each pairs (write_pair cfg) w1)
    ∧ (∀ zp, _extract_zip_to_config zp w = unpack_zip cfg zp w1)
    ∧ (∀ x q, x ≠ snapshot_name w →
         lookup_path (w_fs w1) (parent cfg ++ x :: q)
         = lookup_path (w_fs w) (parent cfg ++ x :: q))
    ∧ (is_file (w_fs w) snap = false →
         lookup_path (w_fs w1) snap = lookup_path (w_fs w) cfg
         ∧ w_log w1 = w_log w ++ [line])
    ∧ (is_file (w_fs w) snap = true →
         w_fs w1 = w_fs w
         ∧ ∃ e, w_log w1 = w_log w ++
                  [line; (LOG_WARNING,
                          "Unable to backup previous state: " +:+ exn_str e)])
    ∧ (∀ pairs r w2,
         Forall (λ pair, safe_rel pair.1) pairs →
         _restore_pairs_to_config pairs w = (r, w2) →
         same_beside_config (parent cfg) (w_fs w1) (w_fs w2)).
Proof.
  intros Hcfg Hdir Hnow snap line.
  destruct (config_dir_parent _ _ Hcfg) as [b ->].
  subst snap line. rewrite parent_snoc.
  destruct (backup_current_config_run w b Hcfg Hdir Hnow) as (t1 & Hframe & Hcopy & Hfail).
  destruct (is_file (w_fs w) (b ++ [snapshot_name w])) eqn:Hf.
  - destruct (Hfail eq_refl) as (-> & e & Hrun).
    eexists. split; [exact Hrun|].
    split_and!; try done.
    + intros pairs. rewrite (restore_pairs_run _ _ _ Hcfg Hdir).
      unfold bind. by rewrite Hrun.
    + intros zp. rewrite (extract_zip_run _ _ _ Hcfg Hdir).
      unfold bind. by rewrite Hrun.
    + intros _. split; [done|]. exists e. simpl. by rewrite <- app_assoc.
    + intros pairs r w2 Hsafe. rewrite (restore_pairs_run _ _ _ Hcfg Hdir).
      unfold bind. rewrite Hrun. by apply write_pairs_frame.
  - destruct (Hcopy eq_refl) as (Hsnap & Hrun).
    eexists. split; [exact Hrun|].
    split_and!; try done.
    + intros pairs. rewrite (restore_pairs_run _ _ _ Hcfg Hdir).
      unfold bind. by rewrite Hrun.
    + intros zp. rewrite (extract_zip_run _ _ _ Hcfg Hdir).
      unfold bind. by rewrite Hrun.
    + intros pairs r w2 Hsafe. rewrite (restore_pairs_run _ _ _ Hcfg Hdir).
      unfold bind. rewrite Hrun. by apply write_pairs_frame.
Qed.

(** The configuration directory is there, the source is not: the restore
    is refused and no snapshot is taken. *)
Lemma refused_restore_takes_no_snapshot :
  is_dir (w_fs missing_source) ["home"; "u"; ".config"; "obs-studio"] = true
  ∧ (do_restore_local bar_steps missing_source).1 = Ok false
  ∧ w_fs (do_restore_local bar_steps missing_source).2 = w_fs missing_source
  ∧ path_exists (w_fs (do_restore_local bar_steps missing_source).2)
      ["home"; "u"; ".config"; "obs-studio.before-restore-20240101-000000"] = false
  ∧ w_log (do_restore_local bar_steps missing_source).2
    = [(LOG_ERROR, "Local restore failed: Path not found.")].
Proof. split_and!; vm_compute; reflexivity. Qed.

Lemma restore_takes_snapshot_witness :
  ∃ w1,
    _backup_current_config snapshot_name_taken = (Ok tt, w1)
    ∧ w_fs w1 = w_fs snapshot_name_taken
    ∧ ∃ e, w_log w1
           = [(LOG_INFO, "Backing up current config to /home/u/.config/obs-studio.before-restore-20240101-000000");
              (LOG_WARNING, "Unable to backup previous state: " +:+ exn_str e)].
Proof.
  destruct (restore_takes_snapshot snapshot_name_taken
              ["home"; "u"; ".config"; "obs-studio"] eq_refl eq_refl eq_refl)
    as (w1 & Hrun & _ & _ & _ & _ & Hfail & _).
  exists w1. split; [exact Hrun|]. exact (Hfail eq_refl).
Defined.

(** Without a configuration directory the restore makes it, and the
    snapshot that follows is a copy of the empty directory. *)
Example restore_into_absent_config :
  path_exists (w_fs absent_config) ["home"; "u"; ".config"; "obs-studio"] = false
  ∧ (_restore_from_folder ["bk"] absent_config).1 = Ok tt
  ∧ lookup_path (w_fs (_restore_from_folder ["bk"] absent_config).2)
      ["home"; "u"; ".config"; "obs-studio.before-restore-20240101-000000"]
    = Some (Dir ∅)
  ∧ file_at (w_fs (_restore_from_folder ["bk"] absent_config).2)
      ["home"; "u"; ".config"; "obs-studio"; "basic.ini"] = Some [x61].
Proof. split_and!; vm_compute; reflexivity. Qed.

(** ** Backup and restore of the same tree *)

Lemma unlink_at_dir l n t :
  unlink (l ++ [n]) t
  = at_dir false l
      (λ es, match es !! n with
             | Some (File _) => Ok (delete n es)
             | Some (Dir _) => Raise (IsADirectoryError (as_posix (l ++ [n])))
             | None => Raise (FileNotFoundError (as_posix (l ++ [n])))
             end) t.
Proof. unfold unlink. rewrite parent_snoc, name_snoc. by destruct l. Qed.

(** Removing a file changes the entry of that file and nothing else. *)
Lemma unlink_entry l n t t' q :
  unlink (l ++ [n]) t = Ok t' →
  entry_at t' q = if bool_decide (q = l ++ [n]) then None else entry_at t q.
Proof.
  rewrite unlink_at_dir. intros H.
  destruct (path_trichotomy l q)
    as [[r ->]|[(x & r & ->)|(k & a & b & p' & q' & Hn & -> & ->)]].
  - destruct (at_dir_below _ _ _ _ _ H) as (es & es' & Hf & Hor & Hl).
    destruct Hor as [Hes|(? & _)]; [|done].
    assert (es' = delete n es ∧ ∃ d, es !! n = Some (File d)) as [-> [d Hd]].
    { destruct (es !! n) as [[d|sub]|]; [|done..]. injection Hf as <-. eauto. }
    unfold entry_at. rewrite Hl, lookup_path_app, Hes. simpl. rewrite resolve_dir.
    destruct r as [|y r].
    + rewrite bool_decide_eq_false_2; [done|].
      intros Heq. by apply app_inv_head in Heq.
    + rewrite !lookup_path_cons. destruct (decide (y = n)) as [->|Hy].
      * rewrite lookup_delete_eq, Hd. simpl. destruct r as [|z r].
        -- by rewrite bool_decide_eq_true_2.
        -- rewrite bool_decide_eq_false_2; [done|].
           intros Heq; apply app_inv_head in Heq; by simplify_eq.
      * rewrite lookup_delete_ne by done.
        rewrite bool_decide_eq_false_2; [done|].
        intros Heq; apply app_inv_head in Heq; by simplify_eq.
  - rewrite bool_decide_eq_false_2.
    + destruct (at_dir_entry_above _ _ _ _ _ _ _ H) as [-> [->|(? & _)]]; done.
    + intros Heq. apply (f_equal length) in Heq.
      rewrite ?length_app in Heq. simpl in Heq. lia.
  - rewrite bool_decide_eq_false_2.
    + by eapply at_dir_entry_diverge.
    + intros Heq. rewrite <- app_assoc in Heq. apply app_inv_head in Heq.
      simpl in Heq. by simplify_eq.
Qed.

Lemma unlink_ok l n t d :
  entry_at t (l ++ [n]) = Some (Some d) → ∃ t', unlink (l ++ [n]) t = Ok t'.
Proof.
  rewrite unlink_at_dir. unfold entry_at. rewrite lookup_path_app.
  destruct (lookup_path t l) as [[x|es]|] eqn:Hl; simpl; [done| |done].
  intros Hn. eapply at_dir_ok; [done|].
  destruct (es !! n) as [[x|sub]|]; simpl in Hn; done.
Qed.

(** What leads to something is a directory. *)
Lemma entry_at_above t p x r :
  entry_at t (p ++ x :: r) ≠ None → entry_at t p = Some None.
Proof.
  unfold entry_at. rewrite lookup_path_app.
  by destruct (lookup_path t p) as [[d|es]|].
Qed.

Lemma prefix_app_cases {A} (q p m : list A) :
  q `prefix_of` (p ++ m) →
  q `prefix_of` p ∨ ∃ q', q = p ++ q' ∧ q' `prefix_of` m.
Proof.
  revert q. induction p as [|a p IH]; intros q Hq.
  - right. by exists q.
  - destruct q as [|b q]; [left; apply prefix_nil|].
    simpl in Hq. destruct Hq as [k Hk]. injection Hk as -> Hk.
    destruct (IH q) as [Hl|(q' & -> & Hq')]; [by exists k| |].
    + left. by apply prefix_cons.
    + right. by exists q'.
Qed.

(** The files [rglob] finds: every regular file below the node. *)
Lemma elem_of_rglob_files (n : node) :
  ∀ rel p data,
    (p, data) ∈ rglob_files rel n ↔
    ∃ tail, resolve n tail = Some (File data) ∧ tail ≠ [] ∧ p = rel ++ tail.
Proof.
  induction n as [d|es IH] using node_children_ind; intros rel p data.
  - simpl. split; [by intros ?%elem_of_nil|].
    intros (tail & Hr & Hne & _). by destruct tail.
  - simpl. rewrite elem_of_app.
    rewrite (elem_of_map_fold_app
      (λ f c, match c with File x => [(rel ++ [f], x)] | Dir _ => [] end)).
    2:{ by intros k [x|sub] acc. }
    rewrite (elem_of_map_fold_app
      (λ d c, match c with Dir _ => rglob_files (rel ++ [d]) c | File _ => [] end)).
    2:{ by intros k [x|sub] acc. }
    split.
    + intros [(f & c & Hf & Hin)|(d & c & Hd & Hin)].
      * destruct c as [x|sub]; [|by apply elem_of_nil in Hin].
        apply list_elem_of_singleton in Hin as [= -> ->].
        exists [f]. simpl. by rewrite Hf.
      * destruct c as [x|sub]; [by apply elem_of_nil in Hin|].
        apply (IH d _ Hd) in Hin as (tail & Hr & Hne & ->).
        exists (d :: tail). simpl. rewrite Hd. simpl.
        split_and!; [done|done|by rewrite <- app_assoc].
    + intros (tail & Hr & Hne & ->).
      destruct tail as [|c tail]; [done|]. simpl in Hr.
      destruct (es !! c) as [ch|] eqn:Hc; [|done]. simpl in Hr.
      destruct tail as [|c' tail].
      * simpl in Hr. injection Hr as ->. left. exists c, (File data).
        split; [done|]. by left.
      * right. destruct ch as [x|sub]; [done|].
        exists c, (Dir sub). split; [done|].
        apply (IH c _ Hc). exists (c' :: tail).
        split_and!; [done|done|by rewrite <- app_assoc].
Qed.
Lemma entry_file_lookup t p d :
  entry_at t p = Some (Some d) ↔ lookup_path t p = Some (File d).
Proof.
  unfold entry_at. destruct (lookup_path t p) as [[]|]; split; intros; by simplify_eq.
Qed.

Lemma prefix_length_le {A} (q p : list A) : q `prefix_of` p → (length q ≤ length p)%nat.
Proof. intros [k ->]. rewrite length_app. lia. Qed.

Lemma backup_step fs0 cfg troot written tail w :
  (∀ q m, ¬ (cfg ++ q) `prefix_of` (troot ++ m)) →
  bundle_inv fs0 cfg troot written (w_fs w) →
  good_tail fs0 cfg tail →
  ∃ t', copy_item troot (item_of cfg tail) w = (Ok tt, set_fs t' w)
        ∧ bundle_inv fs0 cfg troot (written ++ [tail]) t'.
Proof.
  intros Hapart (I1 & I2 & I3 & I4 & I5) (Hne & Hval & data & Hdata).
  destruct tail as [|f m _] using rev_ind; [done|]. clear Hne.
  unfold copy_item, item_of. rewrite path_join_as_posix by done.
  assert (∀ q', q' `prefix_of` m → entry_at fs0 (cfg ++ q') = Some None) as Hdirs.
  { intros q' [r ->]. eapply (entry_at_above _ _ (hd f r) (tl (r ++ [f]))).
    replace ((cfg ++ q') ++ hd f r :: tl (r ++ [f])) with (cfg ++ (q' ++ r) ++ [f]).
    - by rewrite Hdata.
    - rewrite <- !app_assoc. by destruct r. }
  assert (∀ q, q `prefix_of` (troot ++ m) → is_file (w_fs w) q = false) as Hnofile.
  { intros q Hq. destruct (is_file (w_fs w) q) eqn:E; [|done].
    apply is_file_entry in E as [d E].
    apply prefix_app_cases in Hq as [Hq|(q' & -> & Hq')].
    - by destruct (I2 q d Hq).
    - apply I3 in E as [_ E]. rewrite (Hdirs q' Hq') in E. done. }
  assert (parent (troot ++ m ++ [f]) = troot ++ m) as Hpar.
  { rewrite app_assoc. apply parent_snoc. }
  unfold ensure_parent, bind, fs_try. rewrite Hpar.
  destruct (mkdir_p_ok _ _ Hnofile) as [t1 Ht1]. rewrite Ht1. simpl.
  pose proof (λ q, mkdir_p_entry _ _ _ q Ht1) as E1.
  assert (∀ q, entry_at t1 (cfg ++ q) = entry_at fs0 (cfg ++ q)) as I1'.
  { intros q. rewrite E1, bool_decide_eq_false_2; [apply I1|apply Hapart]. }
  assert (lookup_path t1 (cfg ++ m ++ [f]) = Some (File data)) as Hread.
  { apply entry_file_lookup. by rewrite I1'. }
  assert (entry_at t1 (troot ++ m) = Some None) as Hparent.
  { by rewrite E1, bool_decide_eq_true_2. }
  assert (entry_at t1 (troot ++ m ++ [f]) ≠ Some None) as Hdest.
  { rewrite E1, bool_decide_eq_false_2.
    - intros Hd%I4. by rewrite Hdata in Hd.
    - rewrite app_assoc. intros H%prefix_length_le. rewrite length_app in H. simpl in H. lia. }
  unfold copy2, read_file. rewrite Hread. simpl.
  assert (is_dir t1 (troot ++ m ++ [f]) = false) as -> by (by apply is_dir_false_entry).
  rewrite app_assoc in Hdest |- *.
  destruct (write_file_ok _ _ data _ Hparent Hdest) as [t2 Ht2]. rewrite Ht2.
  exists t2. split; [done|].
  pose proof (λ q, write_file_entry _ _ _ _ _ q Ht2) as E2.
  rewrite <- app_assoc in E2.
  split_and!.
  - intros q. rewrite E2, bool_decide_eq_false_2; [apply I1'|].
    intros Heq. apply (Hapart q (m ++ [f])). by rewrite Heq.
  - intros q d Hq. rewrite E2, bool_decide_eq_false_2.
    + rewrite E1, bool_decide_eq_true_2; [done|].
      destruct Hq as [r ->]. exists (r ++ m). by rewrite <- app_assoc.
    + intros ->. apply prefix_length_le in Hq. rewrite !length_app in Hq. simpl in Hq. lia.
  - intros q d. rewrite E2. case_bool_decide as Hq.
    + apply app_inv_head in Hq as ->. intros [= <-].
      split; [apply elem_of_app; right; by left|done].
    + rewrite E1. case_bool_decide; [done|].
      intros [? ?]%I3. split; [apply elem_of_app; by left|done].
  - intros q. rewrite E2. case_bool_decide as Hq; [done|].
    rewrite E1. case_bool_decide as Hp; [|apply I4].
    intros _. apply prefix_app_cases in Hp as [Hp|(q' & Heq & Hq')].
    + apply prefix_length_le in Hp. rewrite length_app in Hp.
      assert (q = []) as -> by (destruct q; [done|simpl in Hp; lia]).
      apply (Hdirs []). apply prefix_nil.
    + apply app_inv_head in Heq as <-. by apply Hdirs.
  - intros q [Hq|Hq%list_elem_of_singleton]%elem_of_app.
    + destruct (I5 q Hq) as (d & Hd0 & Hd).
      exists d. split; [done|]. rewrite E2. case_bool_decide as Heq.
      * apply app_inv_head in Heq as ->. rewrite Hdata in Hd0. by simplify_eq.
      * rewrite E1, bool_decide_eq_false_2; [done|].
        intros Hp. specialize (Hnofile _ Hp).
        assert (is_file (w_fs w) (troot ++ q) = true); [|congruence].
        apply is_file_entry. eauto.
    + subst q. exists data. split; [done|]. by rewrite E2, bool_decide_eq_true_2.
Qed.
Lemma set_fs_set_fs t t' w : set_fs t' (set_fs t w) = set_fs t' w.
Proof. done. Qed.

Lemma for_each_cons_ok {A} (x : A) (l : list A) (body : A → M unit) w w1 :
  body x w = (Ok tt, w1) → for_each (x :: l) body w = for_each l body w1.
Proof. simpl. unfold bind. by intros ->. Qed.

Lemma backup_loop fs0 cfg troot tails :
  (∀ q m, ¬ (cfg ++ q) `prefix_of` (troot ++ m)) →
  Forall (good_tail fs0 cfg) tails →
  ∀ written w,
    bundle_inv fs0 cfg troot written (w_fs w) →
    ∃ t', for_each (map (item_of cfg) tails) (copy_item troot) w = (Ok tt, set_fs t' w)
          ∧ bundle_inv fs0 cfg troot (written ++ tails) t'.
Proof.
  intros Hapart. induction 1 as [|tail tails Hgood _ IH]; intros written w Hinv.
  - exists (w_fs w). simpl. unfold ret. rewrite set_fs_id, app_nil_r. done.
  - destruct (backup_step _ _ _ _ _ _ Hapart Hinv Hgood) as (t1 & Hrun & Hinv1).
    destruct (IH (written ++ [tail]) (set_fs t1 w) Hinv1) as (t' & Hrun' & Hinv').
    exists t'. simpl map. rewrite (for_each_cons_ok _ _ _ _ _ Hrun), Hrun'.
    split; [done|]. by rewrite <- app_assoc in Hinv'.
Qed.

(** Writing back a file of the configuration directory with its own bytes
    leaves the directory as it is. *)
Lemma restore_step fs0 cfg file w :
  (∀ q, entry_at (w_fs w) (cfg ++ q) = entry_at fs0 (cfg ++ q)) →
  file.1 ≠ [] → Forall (λ s, valid_name s = true) file.1 →
  entry_at fs0 (cfg ++ file.1) = Some (Some file.2) →
  ∃ t', write_pair cfg (pair_of file) w = (Ok tt, set_fs t' w)
        ∧ ∀ q, entry_at t' (cfg ++ q) = entry_at fs0 (cfg ++ q).
Proof.
  destruct file as [tail data]. simpl. intros K Hne Hval Hdata.
  destruct tail as [|f m _] using rev_ind; [done|]. clear Hne.
  unfold write_pair, pair_of. unfold bind at 1, ask_result at 1. simpl.
  rewrite path_join_as_posix by done.
  set (dest := cfg ++ m ++ [f]).
  assert (entry_at (w_fs w) dest = Some (Some data)) as Hcur
    by (unfold dest; by rewrite K).
  assert (entry_at fs0 (cfg ++ m) = Some None) as Hpar0.
  { eapply (entry_at_above _ _ f []). rewrite <- app_assoc. by rewrite Hdata. }
  (* what is there is unlinked *)
  unfold clear_dest, bind, ask, try_except, fs_try.
  assert (path_exists (w_fs w) dest = true) as ->.
  { apply path_exists_entry. by rewrite Hcur. }
  assert (is_dir (w_fs w) dest = false) as ->.
  { apply is_dir_false_entry. by rewrite Hcur. }
  unfold dest in Hcur |- *. rewrite app_assoc in Hcur |- *.
  destruct (unlink_ok _ _ _ _ Hcur) as [ta Hta]. rewrite Hta. simpl.
  pose proof (λ q, unlink_entry _ _ _ _ q Hta) as Ea.
  (* the parent is there already *)
  unfold ensure_parent, fs_try. rewrite parent_snoc. simpl.
  assert (is_dir ta (cfg ++ m) = true) as Hpar.
  { apply is_dir_entry. rewrite Ea, bool_decide_eq_false_2.
    - by rewrite K.
    - intros Heq. apply (f_equal length) in Heq. rewrite !length_app in Heq.
      simpl in Heq. lia. }
  rewrite (mkdir_p_existing _ _ Hpar). simpl.
  (* the file is written *)
  assert (entry_at ta ((cfg ++ m) ++ [f]) ≠ Some None) as Hfree.
  { by rewrite Ea, bool_decide_eq_true_2. }
  apply is_dir_entry in Hpar.
  destruct (write_file_ok _ _ data _ Hpar Hfree) as [tb Htb]. rewrite Htb.
  exists tb. split; [done|].
  intros q. rewrite (write_file_entry _ _ _ _ _ _ Htb), Ea.
  case_bool_decide as Heq; [|apply K].
  by rewrite Heq, <- app_assoc, Hdata.
Qed.

Lemma restore_loop fs0 cfg files :
  Forall (λ file : path * bytes,
            file.1 ≠ [] ∧ Forall (λ s, valid_name s = true) file.1
            ∧ entry_at fs0 (cfg ++ file.1) = Some (Some file.2)) files →
  ∀ w,
    (∀ q, entry_at (w_fs w) (cfg ++ q) = entry_at fs0 (cfg ++ q)) →
    ∃ t', for_each (map pair_of files) (write_pair cfg) w = (Ok tt, set_fs t' w)
          ∧ ∀ q, entry_at t' (cfg ++ q) = entry_at fs0 (cfg ++ q).
Proof.
  induction 1 as [|file files (Hne & Hval & Hdata) _ IH]; intros w K.
  - exists (w_fs w). simpl. unfold ret. by rewrite set_fs_id.
  - destruct (restore_step _ _ _ _ K Hne Hval Hdata) as (t1 & Hrun & K1).
    destruct (IH (set_fs t1 w) K1) as (t' & Hrun' & K').
    exists t'. simpl map. by rewrite (for_each_cons_ok _ _ _ _ _ Hrun), Hrun'.
Qed.
Lemma Forall_exists_map {A B} (f : B → A) (P : B → Prop) (l : list A) :
  Forall (λ x, ∃ y, x = f y ∧ P y) l → ∃ l', l = map f l' ∧ Forall P l'.
Proof.
  induction 1 as [|x l (y & -> & Hy) _ (l' & -> & Hl')].
  - by exists [].
  - exists (y :: l'). split; [done|by constructor].
Qed.

(** The items of the walker are the files at good paths. *)
Lemma iter_obs_files_tails il ic w cfg items :
  valid_tree (Dir (w_fs w)) = true →
  get_obs_config_dir w = Ok cfg →
  iter_obs_files il ic w = Ok items →
  ∃ tails, items = map (item_of cfg) tails ∧ Forall (good_tail (w_fs w) cfg) tails.
Proof.
  intros Hv Hcfg Hit. apply Forall_exists_map, Forall_forall.
  intros [rel p] Hin.
  apply (elem_of_iter_obs_files _ _ _ _ _ _ Hit) in Hin
    as (cfg' & tail & data & Hcfg' & Hf & Hne & -> & -> & _ & _).
  rewrite Hcfg in Hcfg'. injection Hcfg' as <-.
  exists tail. split; [done|]. split_and!; [done| |].
  - unfold file_at, lookup_path in Hf.
    destruct (resolve (Dir (w_fs w)) (cfg ++ tail)) as [n|] eqn:Hr; [|done].
    destruct (valid_tree_resolve _ _ _ Hv Hr) as [Hall _].
    by apply Forall_app in Hall as [_ ?].
  - exists data. by apply file_at_entry.
Qed.

(** The configuration directory and a bundle outside of it have no path in
    common. *)
Lemma bundle_apart t cfg broot :
  entry_at t cfg ≠ None → entry_at t broot = None → ¬ cfg `prefix_of` broot →
  ∀ q m, ¬ (cfg ++ q) `prefix_of` ((broot ++ ["obs-studio"]) ++ m).
Proof.
  intros Hcfg Hfree Hout q m.
  destruct (path_trichotomy cfg broot)
    as [[r ->]|[(x & r & ->)|(l & a & b & p' & q' & Hn & -> & ->)]].
  - destruct Hout. by exists r.
  - apply entry_at_above in Hcfg. by rewrite Hcfg in Hfree.
  - rewrite <- !app_assoc. simpl. by apply not_prefix_diverge.
Qed.

Lemma backup_name_parts w :
  str_mem "/" (hostname w) = false → str_mem "/" (w_now w) = false →
  ∀ base_dir, bundle_root base_dir w = base_dir ++ [make_backup_folder_name w].
Proof.
  intros Hhost Hnow base_dir. unfold bundle_root. apply path_join_name; [|reflexivity].
  unfold parts_of, make_backup_folder_name, now_stamp. rewrite split_slash_free.
  - rewrite filter_cons_True; [done|]. split; discriminate.
  - by rewrite !str_mem_app, Hhost, Hnow.
Qed.
(** A local backup into a new folder outside the configuration directory:
    it ends well and the bundle holds the files the walker yielded. *)
Lemma backup_run w cfg base_dir il ic items :
  valid_tree (Dir (w_fs w)) = true →
  get_obs_config_dir w = Ok cfg →
  iter_obs_files il ic w = Ok items →
  str_mem "/" (hostname w) = false → str_mem "/" (w_now w) = false →
  is_ok (mkdir_p base_dir (w_fs w)) = true →
  path_exists (w_fs w) (bundle_root base_dir w) = false →
  ¬ cfg `prefix_of` bundle_root base_dir w →
  ∃ tails t',
    items = map (item_of cfg) tails
    ∧ Forall (good_tail (w_fs w) cfg) tails
    ∧ create_local_backup_folder base_dir il ic w
      = (Ok (bundle_root base_dir w), set_fs t' w)
    ∧ bundle_inv (w_fs w) cfg (bundle_root base_dir w ++ ["obs-studio"]) tails t'.
Proof.
  intros Hv Hcfg Hit Hhost Hnow Hmk Hfresh Hout.
  destruct (iter_obs_files_tails _ _ _ _ _ Hv Hcfg Hit) as (tails & -> & Hgood).
  exists tails.
  pose proof (backup_name_parts w Hhost Hnow base_dir) as Hroot.
  set (broot := bundle_root base_dir w) in *.
  set (troot := broot ++ ["obs-studio"]).
  destruct (mkdir_p base_dir (w_fs w)) as [t0|e] eqn:Ht0; [clear Hmk|done].
  pose proof (λ q, mkdir_p_entry _ _ _ q Ht0) as E0.
  apply path_exists_false_entry in Hfresh.
  assert (entry_at (w_fs w) cfg ≠ None) as Hthere.
  { unfold iter_obs_files in Hit. rewrite Hcfg in Hit. simpl in Hit.
    unfold entry_at. by destruct (lookup_path (w_fs w) cfg) as [[]|]. }
  assert (∀ q, ¬ (cfg ++ q) `prefix_of` base_dir) as Hnp.
  { intros q [r Hr]. apply Hout. rewrite Hroot, Hr.
    exists (q ++ r ++ [make_backup_folder_name w]). by rewrite <- !app_assoc. }
  (* the configuration directory is as it was *)
  assert (lookup_path t0 cfg = lookup_path (w_fs w) cfg) as Hsame.
  { destruct (path_trichotomy base_dir cfg)
      as [[r Hr]|[(x & r & Hr)|(l & a & b & p' & q' & Hn & Hb & Hc)]].
    - destruct r as [|x r].
      + destruct (Hnp []). rewrite app_nil_r in Hr |- *. by rewrite Hr.
      + assert (is_dir (w_fs w) base_dir = true) as Hd.
        { apply is_dir_entry. eapply entry_at_above. by rewrite <- Hr. }
        rewrite (mkdir_p_existing _ _ Hd) in Ht0. by injection Ht0 as <-.
    - destruct (Hnp []). rewrite app_nil_r. by exists (x :: r).
    - rewrite Hb in Ht0. rewrite Hc. eapply mkdir_p_frame; [done|]. by apply not_eq_sym. }
  assert (iter_obs_files il ic (set_fs t0 w) = Ok (map (item_of cfg) tails)) as Hit0.
  { rewrite <- Hit. unfold iter_obs_files.
    change (get_obs_config_dir (set_fs t0 w)) with (get_obs_config_dir w).
    rewrite Hcfg. simpl. by rewrite Hsame. }
  (* the bundle is empty *)
  assert (∀ q, entry_at (w_fs w) (troot ++ q) = None) as Hempty.
  { intros q. destruct (entry_at (w_fs w) (troot ++ q)) eqn:E; [|done].
    unfold troot in E. rewrite <- app_assoc in E. simpl in E.
    assert (entry_at (w_fs w) broot = Some None) as Hb; [|by rewrite Hb in Hfresh].
    eapply entry_at_above. by rewrite E. }
  assert (bundle_inv (w_fs w) cfg troot [] t0) as Hinv.
  { split_and!.
    - intros q. rewrite E0, bool_decide_eq_false_2; [done|apply Hnp].
    - intros q d Hq. rewrite E0. case_bool_decide as Hp; [done|].
      unfold troot in Hq. rewrite Hroot, <- app_assoc in Hq. simpl in Hq.
      apply prefix_app_cases in Hq as [Hq|(q' & -> & Hq')]; [by destruct Hp|].
      destruct q' as [|x q']; [by rewrite app_nil_r in Hp|].
      destruct Hq' as [r Hr]. injection Hr as <- Hr.
      destruct q' as [|y q'].
      + by rewrite <- Hroot, Hfresh.
      + injection Hr as <- Hr.
        replace (base_dir ++ make_backup_folder_name w :: "obs-studio" :: q')
          with (troot ++ q'); [by rewrite Hempty|].
        unfold troot. rewrite Hroot, <- !app_assoc. done.
    - intros q d. rewrite E0. case_bool_decide; [done|]. by rewrite Hempty.
    - intros q. rewrite E0. case_bool_decide as Hp; [|by rewrite Hempty].
      apply prefix_length_le in Hp. unfold troot in Hp. rewrite Hroot in Hp.
      rewrite !length_app in Hp. simpl in Hp. lia.
    - by intros q ?%elem_of_nil. }
  assert (∀ q m, ¬ (cfg ++ q) `prefix_of` (troot ++ m)) as Hapart.
  { by apply (bundle_apart (w_fs w)). }
  destruct (backup_loop _ _ _ _ Hapart Hgood [] (set_fs t0 w) Hinv) as (t' & Hrun & Hinv').
  exists t'. split_and!; [done|done| |done].
  unfold create_local_backup_folder.
  unfold bind at 1, ask_result at 1. rewrite Hcfg.
  unfold bind at 1, fs_try at 1. rewrite Ht0.
  unfold bind at 1, ask at 1.
  unfold bind at 1, ask_result at 1. rewrite Hit0.
  change (path_join base_dir (make_backup_folder_name (set_fs t0 w))) with broot.
  rewrite path_join_obs_studio. fold troot.
  unfold bind. rewrite Hrun. done.
Qed.
(** A restore from the bundle just written, over the configuration
    directory as it was backed up: it ends well and every entry below the
    configuration directory is as before. *)
Lemma restore_run w cfg broot tails t' :
  get_obs_config_dir w = Ok cfg →
  str_mem "/" (w_now w) = false →
  tails ≠ [] →
  Forall (good_tail (w_fs w) cfg) tails →
  bundle_inv (w_fs w) cfg (broot ++ ["obs-studio"]) tails t' →
  ∃ w2, _restore_from_folder broot (set_fs t' w) = (Ok tt, w2)
        ∧ ∀ q, entry_at (w_fs w2) (cfg ++ q) = entry_at (w_fs w) (cfg ++ q).
Proof.
  intros Hcfg Hnow Hne Hgood (I1 & I2 & I3 & I4 & I5).
  set (troot := broot ++ ["obs-studio"]) in *.
  destruct (config_dir_parent _ _ Hcfg) as [b ->].
  set (cfg := b ++ ["obs-studio"]) in *.
  set (w1 := set_fs t' w).
  (* the bundle is there *)
  destruct tails as [|tail0 tails0]; [done|]. clear Hne.
  destruct (I5 tail0) as (d0 & _ & Hd0); [by left|].
  assert (tail0 ≠ []) as Hne0.
  { apply Forall_cons in Hgood as [(? & _) _]. done. }
  destruct tail0 as [|x0 r0]; [done|]. clear Hne0.
  assert (entry_at t' troot = Some None) as Htroot.
  { eapply entry_at_above. by rewrite Hd0. }
  assert (entry_at t' broot = Some None) as Hbroot.
  { eapply (entry_at_above _ _ "obs-studio" []). fold troot. by rewrite Htroot. }
  assert (∃ es, lookup_path t' troot = Some (Dir es)) as [es Hes].
  { unfold entry_at in Htroot. destruct (lookup_path t' troot) as [[]|]; by eauto. }
  (* the pairs it holds *)
  assert (read_pairs t' (restore_root t' broot) = map pair_of (rglob_files [] (Dir es)))
    as Hpairs.
  { unfold restore_root. rewrite path_join_obs_studio. fold troot.
    assert (path_exists t' troot = true) as ->
      by (apply path_exists_entry; by rewrite Htroot).
    unfold read_pairs. by rewrite Hes. }
  assert (Forall (λ file : path * bytes,
            file.1 ≠ [] ∧ Forall (λ s, valid_name s = true) file.1
            ∧ entry_at (w_fs w) (cfg ++ file.1) = Some (Some file.2))
            (rglob_files [] (Dir es))) as Hfiles.
  { apply Forall_forall. intros [p data] Hin.
    apply elem_of_rglob_files in Hin as (tail & Hr & Hne & ->). simpl.
    assert (entry_at t' (troot ++ tail) = Some (Some data)) as Hin.
    { apply entry_file_lookup. by rewrite lookup_path_app, Hes. }
    apply I3 in Hin as [Hin Hdata]. split_and!; [done| |done].
    by destruct (proj1 (Forall_forall _ _) Hgood _ Hin) as (_ & ? & _). }
  (* the snapshot leaves the configuration directory alone *)
  assert (is_dir (w_fs w1) cfg = true) as Hdir.
  { apply is_dir_entry. simpl. rewrite <- (app_nil_r cfg), I1, app_nil_r.
    destruct (I5 (x0 :: r0)) as (d & Hd & _); [by left|].
    eapply entry_at_above. by rewrite Hd. }
  destruct (backup_current_config_run w1 b Hcfg Hdir Hnow) as (t1 & Hframe & Hcopy & Hfail).
  destruct (snapshot_name_parts w Hnow) as (_ & _ & Hsn).
  assert (∃ w1', _backup_current_config w1 = (Ok tt, w1') ∧ w_fs w1' = t1)
    as (w1' & Hsnap & Hfs1).
  { destruct (is_file (w_fs w1) (b ++ [snapshot_name w1])).
    - destruct (Hfail eq_refl) as (_ & e & ->). eauto.
    - destruct (Hcopy eq_refl) as (_ & ->). eauto. }
  assert (∀ q, entry_at (w_fs w1') (cfg ++ q) = entry_at (w_fs w) (cfg ++ q)) as K.
  { intros q. rewrite <- I1, Hfs1. unfold entry_at, cfg. rewrite <- !app_assoc.
    simpl. rewrite Hframe; [done|by apply not_eq_sym]. }
  destruct (restore_loop _ _ _ Hfiles w1' K) as (t2 & Hloop & K2).
  exists (set_fs t2 w1'). split; [|done].
  unfold _restore_from_folder, bind at 1, ask at 1.
  change (w_fs w1) with t'.
  assert (path_exists t' broot = true) as ->
    by (apply path_exists_entry; by rewrite Hbroot).
  assert (is_dir t' broot = true) as -> by (by apply is_dir_entry).
  change (negb true || negb true) with false. cbv iota.
  rewrite Hpairs. rewrite (restore_pairs_run _ w1 _ Hcfg Hdir).
  unfold bind. by rewrite Hsnap, Hloop.
Qed.

(** C1: a local backup followed by a restore from the bundle it wrote.
    When the walker yields at least one file, the host name and the time
    stamp hold no slash, the backup directory can be created, the bundle
    directory is not there yet and does not lie below the configuration
    directory: the backup returns the bundle directory, the restore ends
    well, the files of the bundle are the files the walker yielded with
    the bytes they have in the configuration directory, every file the
    walker yielded is in the configuration directory after the restore
    with the bytes it had, and no file below the configuration directory
    is added, removed or changed (the files the walker skipped stay). *)
Theorem backup_then_restore (w : world) (cfg base_dir : path) (il ic : bool)
    (items : list (string * path)) :
  valid_tree (Dir (w_fs w)) = true →
  get_obs_config_dir w = Ok cfg →
  iter_obs_files il ic w = Ok items →
  items ≠ [] →
  str_mem "/" (hostname w) = false →
  str_mem "/" (w_now w) = false →
  is_ok (mkdir_p base_dir (w_fs w)) = true →
  path_exists (w_fs w) (bundle_root base_dir w) = false →
  ¬ cfg `prefix_of` bundle_root base_dir w →
  ∃ w1 w2,
    create_local_backup_folder base_dir il ic w = (Ok (bundle_root base_dir w), w1)
    ∧ _restore_from_folder (bundle_root base_dir w) w1 = (Ok tt, w2)
    ∧ (∀ q d, file_at (w_fs w1) (bundle_root base_dir w ++ "obs-studio" :: q) = Some d
         ↔ (as_posix q, cfg ++ q) ∈ items ∧ file_at (w_fs w) (cfg ++ q) = Some d)
    ∧ (∀ rel p, (rel, p) ∈ items →
         ∃ d, file_at (w_fs w) p = Some d ∧ file_at (w_fs w2) p = Some d)
    ∧ (∀ q, file_at (w_fs w2) (cfg ++ q) = file_at (w_fs w) (cfg ++ q)).
Proof.
  intros Hv Hcfg Hit Hne Hhost Hnow Hmk Hfresh Hout.
  destruct (backup_run _ _ _ _ _ _ Hv Hcfg Hit Hhost Hnow Hmk Hfresh Hout)
    as (tails & t' & -> & Hgood & Hrun & Hinv).
  assert (tails ≠ []) as Hne' by (by destruct tails).
  destruct (restore_run _ _ _ _ _ Hcfg Hnow Hne' Hgood Hinv) as (w2 & Hres & K).
  destruct Hinv as (_ & _ & I3 & _ & I5).
  exists (set_fs t' w), w2. split_and!; [done|done| | |].
  - intros q d. simpl. rewrite !file_at_entry.
    replace (bundle_root base_dir w ++ "obs-studio" :: q)
      with ((bundle_root base_dir w ++ ["obs-studio"]) ++ q)
      by (by rewrite <- app_assoc).
    split.
    + intros [Hin Hd]%I3. split; [|done].
      apply list_elem_of_fmap. by exists q.
    + intros [Hin Hd]. apply list_elem_of_fmap in Hin as (q' & Heq & Hin).
      injection Heq as _ ->%app_inv_head.
      destruct (I5 _ Hin) as (d' & Hd' & Hb). congruence.
  - intros rel p Hin. apply list_elem_of_fmap in Hin as (q & Heq & Hin).
    injection Heq as -> ->.
    destruct (I5 _ Hin) as (d & Hd & _). exists d.
    rewrite (file_at_of_entry _ _ _ (K q)). split; by apply file_at_entry.
  - intros q. by apply file_at_of_entry.
Qed.

(** After a backup and a restore of [nested_logs] the configuration
    directory still holds [logs/a.log] and [basic/logs/x.txt], which the
    walker did not yield: the restore removes nothing. *)
Lemma restore_keeps_skipped_files :
  let backup := create_local_backup_folder ["backups"] false false nested_logs in
  let restore := _restore_from_folder ["backups"; "obs-config-pc-20240101-000000"] backup.2 in
  iter_obs_files false false nested_logs
  = Ok [("basic/scene.json", ["home"; "u"; ".config"; "obs-studio"; "basic"; "scene.json"])]
  ∧ backup.1 = Ok ["backups"; "obs-config-pc-20240101-000000"]
  ∧ restore.1 = Ok tt
  ∧ file_at (w_fs restore.2) ["home"; "u"; ".config"; "obs-studio"; "logs"; "a.log"]
    = Some [x64]
  ∧ file_at (w_fs restore.2) ["home"; "u"; ".config"; "obs-studio"; "basic"; "logs"; "x.txt"]
    = Some [x62].
Proof. split_and!; vm_compute; reflexivity. Qed.

Lemma backup_then_restore_witness :
  ∃ w1 w2,
    create_local_backup_folder ["backups"] false false nested_logs
    = (Ok ["backups"; "obs-config-pc-20240101-000000"], w1)
    ∧ _restore_from_folder ["backups"; "obs-config-pc-20240101-000000"] w1 = (Ok tt, w2)
    ∧ file_at (w_fs w1)
        ["backups"; "obs-config-pc-20240101-000000"; "obs-studio"; "basic"; "scene.json"]
      = Some [x63]
    ∧ file_at (w_fs w2) ["home"; "u"; ".config"; "obs-studio"; "basic"; "scene.json"]
      = Some [x63].
Proof.
  assert (¬ ["home"; "u"; ".config"; "obs-studio"]
            `prefix_of` bundle_root ["backups"] nested_logs) as Hout.
  { intros [k Hk]. vm_compute in Hk. discriminate Hk. }
  destruct (backup_then_restore nested_logs ["home"; "u"; ".config"; "obs-studio"]
              ["backups"] false false
              [("basic/scene.json", ["home"; "u"; ".config"; "obs-studio"; "basic"; "scene.json"])]
              eq_refl eq_refl eq_refl ltac:(discriminate) eq_refl eq_refl eq_refl eq_refl Hout)
    as (w1 & w2 & Hrun & Hres & Hbundle & Hback & _).
  exists w1, w2. split; [exact Hrun|]. split; [exact Hres|]. split.
  - apply (Hbundle ["basic"; "scene.json"]). split; [by left|reflexivity].
  - destruct (Hback _ _ ltac:(by left)) as (d & Hd & Hd2).
    rewrite Hd2, <- Hd. reflexivity.
Defined.

(** When the walker yields nothing no bundle directory is written, and the
    restore refuses the path the backup returned. *)
Example backup_of_empty_config :
  let w := linux_world (config_disk ∅) in
  let backup := create_local_backup_folder ["backups"] false false w in
  iter_obs_files false false w = Ok []
  ∧ backup.1 = Ok ["backups"; "obs-config-pc-20240101-000000"]
  ∧ path_exists (w_fs backup.2) ["backups"; "obs-config-pc-20240101-000000"] = false
  ∧ (_restore_from_folder ["backups"; "obs-config-pc-20240101-000000"] backup.2).1
    = Raise (RuntimeError "Invalid backup folder.").
Proof. split_and!; vm_compute; reflexivity. Qed.

(** ** The remote restore *)

Lemma list_dir_list c owner_repo branch p w l :
  w_http w (w_sent w) (contents_request c owner_repo branch p 30)
  = Response (Some (PList l)) →
  list_dir c owner_repo branch (PStr p) w
  = (Ok l, add_sent (contents_request c owner_repo branch p 30) w).
Proof.
  unfold contents_request.
  destruct (contents_url_str c owner_repo branch p) as [url Hurl].
  rewrite Hurl. intros Hout.
  unfold list_dir, bind, ask_result, urlopen. by rewrite Hurl, Hout.
Qed.

Lemma sum_list_app_nat (l k : list nat) :
  sum_list (l ++ k) = (sum_list l + sum_list k)%nat.
Proof. induction l as [|x l IH]; simpl; [done|]. rewrite IH. lia. Qed.

Lemma sum_list_rev_nat (l : list nat) : sum_list (rev l) = sum_list l.
Proof.
  induction l as [|x l IH]; simpl; [done|].
  rewrite sum_list_app_nat, IH. simpl. lia.
Qed.

Lemma listed_dirs_dict (d : gmap string pyval) (items : list pyval) :
  listed_dirs (PDict d :: items)
  = if py_eq_str (default PNone (d !! "type")) "dir"
    then default PNone (d !! "path") :: listed_dirs items
    else listed_dirs items.
Proof. unfold listed_dirs. simpl. by destruct (py_eq_str _ _). Qed.

(** What the loop over a listing leaves on the stack. *)
Lemma collect_items_stack (S : steps) client repo branch base_ size w items :
  bounded_remote S client repo branch size w →
  ∀ stack pairs w1 r w2,
    w_http w1 = w_http w →
    collect_items S client repo branch base_ items stack pairs w1 = (r, w2) →
    w_http w2 = w_http w
    ∧ ∀ stack' pairs', r = Ok (stack', pairs') →
        stack' = rev (listed_dirs items) ++ stack.
Proof.
  intros (_ & Hget & Hdec).
  induction items as [|it items IH]; intros stack pairs w1 r w2 Hw Hrun.
  - simpl in Hrun. unfold ret in Hrun. injection Hrun as <- <-.
    split; [done|]. by intros ?? [= <- <-].
  - simpl collect_items in Hrun. unfold bind at 1, ask_result at 1 in Hrun.
    destruct it as [| | | | |d]; simpl py_get in Hrun; cbv beta iota in Hrun;
      try (injection Hrun as <- <-; by split).
    rewrite listed_dirs_dict.
    destruct (py_eq_str (default PNone (d !! "type")) "dir") eqn:Edir.
    + unfold bind at 1, ask_result at 1 in Hrun. simpl py_get in Hrun.
      cbv beta iota in Hrun.
      destruct (IH _ _ _ _ _ Hw Hrun) as [Hh Hst]. split; [done|].
      intros stack' pairs' Hr. rewrite (Hst _ _ Hr). simpl.
      by rewrite <- app_assoc.
    + destruct (py_eq_str (default PNone (d !! "type")) "file") eqn:Efile;
        [|by eapply IH].
      unfold bind at 1, ask_result at 1 in Hrun. simpl py_get in Hrun.
      cbv beta iota in Hrun.
      unfold bind at 1 in Hrun.
      destruct (st_get_file_content_b64 S client repo branch
                  (default PNone (d !! "path")) w1) as [[[cb meta]|e] wa] eqn:Ea.
      2: { injection Hrun as <- <-. split; [by eapply Hget|done]. }
      pose proof (Hget _ _ _ _ Hw Ea) as Hwa.
      unfold bind at 1 in Hrun.
      destruct (st_b64decode S cb wa) as [[data|e] wb] eqn:Eb.
      2: { injection Hrun as <- <-. split; [by eapply Hdec|done]. }
      pose proof (Hdec _ _ _ _ Hwa Eb) as Hwb.
      unfold bind at 1, ask_result at 1 in Hrun. simpl py_get_or in Hrun.
      cbv beta iota in Hrun.
      unfold bind at 1, ask_result at 1 in Hrun.
      destruct (py_drop _ _) as [rel|e].
      2: { injection Hrun as <- <-. by split. }
      by eapply IH.
Qed.

(** With more fuel than the weight of the stack the walk comes to its
    end. *)
Lemma collect_pairs_ends (S : steps) client repo branch base_ size w :
  bounded_remote S client repo branch size w →
  ∀ fuel stack pairs w1,
    w_http w1 = w_http w →
    (sum_list (map size stack) < fuel)%nat →
    (collect_pairs fuel S client repo branch base_ stack pairs w1).1 ≠ Ok None.
Proof.
  intros Hb. pose proof Hb as (Hlist & _ & _).
  induction fuel as [|fuel IH]; intros stack pairs w1 Hw Hfuel; [lia|].
  destruct stack as [|p stack]; [done|].
  simpl collect_pairs. unfold bind at 1.
  destruct (st_list_dir S client repo branch p w1) as [[items|e] wa] eqn:Ea;
    [|done].
  destruct (Hlist _ _ _ _ Hw Ea) as [Hwa Hlt].
  unfold bind at 1.
  destruct (collect_items S client repo branch base_ items stack pairs wa)
    as [[[stack' pairs']|e] wb] eqn:Eb; [|done].
  destruct (collect_items_stack S client repo branch base_ size w items Hb
              _ _ _ _ _ Hwa Eb) as [Hwb Hst].
  apply IH; [done|].
  rewrite (Hst _ _ eq_refl), map_app, map_rev, sum_list_app_nat, sum_list_rev_nat.
  simpl in Hfuel. lia.
Qed.

(** C3: whatever the functions they call do, the four operations end
    without an exception and return a boolean: [True] when the body ran to
    its end, [False] when it raised, and then the failure is in the log at
    error severity.  Backup, local restore and listing return in every
    world.  [do_restore_remote] walks the remote tree in a loop: it raises
    with no amount of fuel; against a remote whose directories are bounded
    by a size, any fuel above the size of the selected directory gives the
    boolean; and more fuel changes neither the answer nor the world. *)
Theorem operations_never_raise (S : steps) (w : world) :
  (∃ b w', do_backup_now S w = (Ok b, w')
           ∧ reported "Backup failed: " (backup_body S) w b w')
  ∧ (∃ b w', do_restore_local S w = (Ok b, w')
             ∧ reported "Local restore failed: " (restore_local_body S) w b w')
  ∧ (∃ b w', do_refresh_remote S w = (Ok b, w')
             ∧ reported "Refresh failed: " (refresh_body S) w b w')
  ∧ (∀ fuel e w', do_restore_remote S fuel w ≠ (Raise e, w'))
  ∧ (∀ size fuel,
       bounded_remote S (new_client (g_get_str K_GH_TOKEN "" w))
         (g_get_str K_GH_REPO_SELECT "" w) (g_get_str K_GH_BRANCH "main" w)
         size w →
       (size (PStr (rstrip_slash (g_get_str K_REMOTE_SELECT "" w)
                    +:+ "/obs-studio")) < fuel)%nat →
       ∃ b w', do_restore_remote S fuel w = (Ok (Some b), w')
               ∧ reported "Remote restore failed: "
                   (restore_remote_body S fuel) w b w')
  ∧ (∀ fuel b w', do_restore_remote S fuel w = (Ok (Some b), w') →
       ∀ fuel', (fuel ≤ fuel')%nat →
         do_restore_remote S fuel' w = (Ok (Some b), w')).
Proof.
  split_and!; try apply guarded_total.
  - intros fuel e w'. unfold do_restore_remote, try_except, bind, ret, err, _log.
    by destruct (restore_remote_body S fuel w) as [[[[]|]|e'] wb].
  - intros size fuel Hb Hfuel.
    assert ((restore_remote_body S fuel w).1 ≠ Ok None) as Hend.
    { unfold restore_remote_body, bind, ask.
      destruct (_ || _); [done|].
      pose proof (collect_pairs_ends S _ _ _
                    (rstrip_slash (g_get_str K_REMOTE_SELECT "" w) +:+ "/obs-studio")
                    size w Hb fuel
                    [PStr (rstrip_slash (g_get_str K_REMOTE_SELECT "" w)
                           +:+ "/obs-studio")] [] w eq_refl) as Hc.
      destruct (collect_pairs fuel S _ _ _ _ _ _ w) as [[[[|pair pairs]|]|e] wc];
        simpl in *.
      - done.
      - by destruct (st_restore_pairs_to_config S (pair :: pairs) wc) as [[[]|] ?].
      - destruct Hc; [lia|done].
      - done. }
    destruct (restore_remote_body S fuel w) as [r wb] eqn:Hrun. simpl in Hend.
    unfold do_restore_remote, try_except, bind. rewrite Hrun.
    destruct r as [[[]|]|e]; [|done|].
    + exists true, wb. split; [done|]. by exists (Some tt).
    + exists false, (add_log LOG_ERROR ("Remote restore failed: " +:+ exn_str e) wb).
      split; [done|]. by exists e, wb.
  - intros fuel b w' Hrun fuel' Hle.
    unfold do_restore_remote, try_except, bind in Hrun |- *.
    destruct (restore_remote_body S fuel w) as [r wb] eqn:Hbody.
    assert (r ≠ Ok None) as Hr.
    { intros ->. unfold ret in Hrun. discriminate Hrun. }
    by rewrite (restore_remote_body_mono _ _ _ _ _ Hbody Hr fuel' Hle).
Qed.

Lemma operations_never_raise_witness :
  ∃ b w', do_restore_remote bar_steps 2 finite_remote = (Ok (Some b), w')
          ∧ reported "Remote restore failed: "
              (restore_remote_body bar_steps 2) finite_remote b w'.
Proof.
  apply (proj1 (proj2 (proj2 (proj2 (proj2
           (operations_never_raise bar_steps finite_remote))))) (λ _, 1%nat) 2);
    [|simpl; lia].
  split_and!.
  - intros p w1 items w2 Hw.
    unfold st_list_dir, bar_steps, list_dir, bind, ask_result, urlopen.
    destruct (contents_url _ _ _ p) as [url|e]; [|done].
    rewrite Hw. simpl. destruct (w_sent w1); simpl; intros [= <- <-];
      (split; [done|vm_compute; lia]).
  - intros p w1 r w2 Hw.
    unfold st_get_file_content_b64, bar_steps, get_file_content_b64, bind,
      ask_result, urlopen, ret, raise.
    destruct (contents_url _ _ _ p) as [url|e]; [|by intros [= <- <-]].
    destruct (w_http w1 (w_sent w1) _) as [[[| | | | |d]|]| |];
      try (by intros [= <- <-]).
    destruct (py_eq_str _ _); by intros [= <- <-].
  - intros v w1 r w2 Hw. simpl. unfold ask_result. by intros [= <- <-].
Defined.

(** ** The download of a remote tree *)

Lemma get_file_content_b64_dict c owner_repo branch p w d :
  w_http w (w_sent w) (contents_request c owner_repo branch p 60)
  = Response (Some (PDict d)) →
  d !! "encoding" = Some (PStr "base64") →
  get_file_content_b64 c owner_repo branch (PStr p) w
  = (Ok (default (PStr "") (d !! "content"), PDict d),
     add_sent (contents_request c owner_repo branch p 60) w).
Proof.
  unfold contents_request.
  destruct (contents_url_str c owner_repo branch p) as [url Hurl].
  rewrite Hurl. intros Hout Henc.
  unfold get_file_content_b64, bind, ask_result, urlopen.
  by rewrite Hurl, Hout, Henc.
Qed.

Lemma elem_of_file_entries p entries q data :
  (q, data) ∈ file_entries p entries ↔
  ∃ k, (k, File data) ∈ entries ∧ q = p ++ [k].
Proof.
  unfold file_entries. rewrite list_elem_of_omap. split.
  - intros ([k [d|sub]] & Hin & Heq); simpl in Heq; [|done].
    injection Heq as <- <-. eauto.
  - intros (k & Hin & ->). by exists (k, File data).
Qed.

Lemma elem_of_dir_entries p entries q sub :
  (q, sub) ∈ dir_entries p entries ↔
  ∃ k, (k, Dir sub) ∈ entries ∧ q = p ++ [k].
Proof.
  unfold dir_entries. rewrite list_elem_of_omap. split.
  - intros ([k [d|sub']] & Hin & Heq); simpl in Heq; [done|].
    injection Heq as <- <-. eauto.
  - intros (k & Hin & ->). by exists (k, Dir sub).
Qed.

Lemma node_size_dir (es : gmap string node) :
  node_size (Dir es) = S (sum_list (map (λ e, node_size e.2) (map_to_list es))).
Proof.
  simpl. rewrite map_fold_foldr. f_equal.
  induction (map_to_list es) as [|[k c] l IH]; simpl; [done|]. by rewrite IH.
Qed.

Lemma sum_list_map_perm {A} (f : A → nat) (l k : list A) :
  l ≡ₚ k → sum_list (map f l) = sum_list (map f k).
Proof. induction 1; simpl; lia. Qed.

Lemma dir_entries_weight p entries es :
  entries ≡ₚ map_to_list es →
  (stack_weight (dir_entries p entries) < node_size (Dir es))%nat.
Proof.
  intros Hperm. rewrite node_size_dir, <- (sum_list_map_perm _ _ _ Hperm).
  unfold stack_weight, dir_entries. clear Hperm.
  induction entries as [|[k [d|sub]] l IH]; cbn -[node_size] in *; lia.
Qed.

(** The loop over a listing, one item on: a directory, a file. *)
Lemma collect_items_dir (S : steps) c repo branch base_ d items stack pairs
    (v : pyval) (w : world) :
  d !! "type" = Some (PStr "dir") → d !! "path" = Some v →
  collect_items S c repo branch base_ (PDict d :: items) stack pairs w
  = collect_items S c repo branch base_ items (v :: stack) pairs w.
Proof.
  intros Htype Hpath.
  simpl. unfold bind at 1, ask_result at 1. simpl. rewrite Htype. simpl.
  unfold bind at 1, ask_result at 1. simpl. by rewrite Hpath.
Qed.

Lemma collect_items_file (S : steps) c repo branch base_ d items stack pairs
    (p : string) (w w1 w2 : world) (content meta : pyval) (data : bytes) :
  d !! "type" = Some (PStr "file") → d !! "path" = Some (PStr p) →
  st_get_file_content_b64 S c repo branch (PStr p) w = (Ok (content, meta), w1) →
  st_b64decode S content w1 = (Ok data, w2) →
  collect_items S c repo branch base_ (PDict d :: items) stack pairs w
  = collect_items S c repo branch base_ items stack
      (pairs ++ [(PStr (remote_rel base_ p), data)]) w2.
Proof.
  intros Htype Hpath Hget Hdec.
  simpl. unfold bind at 1, ask_result at 1. simpl. rewrite Htype. simpl.
  unfold bind at 1, ask_result at 1. simpl. rewrite Hpath. simpl.
  unfold bind at 1. rewrite Hget.
  unfold bind at 1. rewrite Hdec.
  unfold bind, ask_result. simpl. done.
Qed.

(** The loop over the listing of the directory at [p]: the
    subdirectories go on the stack, the files are read and kept under
    their paths below the root. *)
Lemma collect_items_tree (w : world) (c : GitHubClient)
    (repo branch sel_path : string) (rt : gmap string node) p es :
  let base_ := rstrip_slash sel_path +:+ "/obs-studio" in
  let root := _gh_join [sel_path; "obs-studio"] in
  remote_holds w c repo branch base_ root rt →
  resolve (Dir rt) p = Some (Dir es) →
  ∀ items entries,
    Forall2 (lists_entry root p) items entries →
    (∀ e, e ∈ entries → es !! e.1 = Some e.2) →
    ∀ stack pairs s,
      ∃ reqs,
        collect_items bar_steps c repo branch base_ items stack pairs (set_sent s w)
        = (Ok (rev (map (λ d, PStr (remote_path root d.1)) (dir_entries p entries))
               ++ stack,
               pairs ++ map pair_of (file_entries p entries)),
           set_sent (s ++ reqs) w).
Proof.
  intros base_ root [_ Hfile] Hp.
  induction 1 as [|it [k n] items entries (d & -> & Htype & Hpath) Hall IH];
    intros Hin stack pairs s.
  - exists []. simpl. unfold ret. by rewrite !app_nil_r.
  - assert (es !! k = Some n) as Hk by (apply (Hin (k, n)); by left).
    assert (∀ e, e ∈ entries → es !! e.1 = Some e.2) as Hin'.
    { intros e He. apply Hin. by right. }
    simpl in Htype, Hpath.
    destruct n as [data|sub].
    + (* a file *)
      destruct (Hfile s (p ++ [k]) data) as (d2 & content & Hget & Henc & Hcont & Hdec).
      { rewrite resolve_app, Hp. simpl. by rewrite Hk. }
      rewrite (collect_items_file bar_steps c repo branch base_ d items stack pairs
                 (remote_path root (p ++ [k])) (set_sent s w)
                 (set_sent (s ++ [contents_request c repo branch
                                    (remote_path root (p ++ [k])) 60]) w)
                 (set_sent (s ++ [contents_request c repo branch
                                    (remote_path root (p ++ [k])) 60]) w)
                 content (PDict d2) data Htype Hpath).
      2: { simpl st_get_file_content_b64.
           rewrite (get_file_content_b64_dict c repo branch _ (set_sent s w) d2 Hget Henc).
           by rewrite Hcont. }
      2: { simpl st_b64decode. unfold ask_result. simpl w_b64decode. by rewrite Hdec. }
      assert (remote_rel base_ (remote_path root (p ++ [k])) = as_posix (p ++ [k]))
        as -> by apply remote_rel_under_root.
      destruct (IH Hin' stack (pairs ++ [(PStr (as_posix (p ++ [k])), data)])
                  (s ++ [contents_request c repo branch
                           (remote_path root (p ++ [k])) 60]))
        as [reqs Hrest].
      exists (contents_request c repo branch (remote_path root (p ++ [k])) 60 :: reqs).
      rewrite Hrest. simpl file_entries. simpl dir_entries.
      by rewrite <- !app_assoc.
    + (* a directory *)
      rewrite (collect_items_dir bar_steps c repo branch base_ d items stack pairs
                 (PStr (remote_path root (p ++ [k]))) (set_sent s w) Htype Hpath).
      destruct (IH Hin' (PStr (remote_path root (p ++ [k])) :: stack) pairs s)
        as [reqs Hrest].
      exists reqs. rewrite Hrest. simpl file_entries. simpl dir_entries.
      simpl map. simpl rev. by rewrite <- app_assoc.
Qed.

Lemma set_sent_id (w : world) : set_sent (w_sent w) w = w.
Proof. by destruct w. Qed.

Lemma stack_weight_app dirs dirs' :
  stack_weight (dirs ++ dirs') = (stack_weight dirs + stack_weight dirs')%nat.
Proof. unfold stack_weight. by rewrite map_app, sum_list_app_nat. Qed.

Lemma stack_weight_rev dirs : stack_weight (rev dirs) = stack_weight dirs.
Proof. unfold stack_weight. by rewrite map_rev, sum_list_rev_nat. Qed.

Lemma elem_of_rev_list {A} (x : A) (l : list A) : x ∈ rev l ↔ x ∈ l.
Proof. rewrite !list_elem_of_In. symmetry. apply in_rev. Qed.

Lemma node_size_pos (n : node) : (0 < node_size n)%nat.
Proof. destruct n; simpl; lia. Qed.

(** The walk over a remote tree: every directory on the stack is listed,
    and so is every directory below it; the files below them are read and
    kept under their paths below the root. *)
Lemma collect_pairs_tree (w : world) (c : GitHubClient)
    (repo branch sel_path : string) (rt : gmap string node) :
  let base_ := rstrip_slash sel_path +:+ "/obs-studio" in
  let root := _gh_join [sel_path; "obs-studio"] in
  remote_holds w c repo branch base_ root rt →
  ∀ fuel dirs pairs s,
    Forall (λ d, resolve (Dir rt) d.1 = Some (Dir d.2)) dirs →
    (stack_weight dirs ≤ fuel)%nat →
    ∃ files reqs,
      collect_pairs fuel bar_steps c repo branch base_
        (map (λ d, PStr (asked_path base_ root d.1)) dirs) pairs (set_sent s w)
      = (Ok (Some (pairs ++ map pair_of files)), set_sent (s ++ reqs) w)
      ∧ ∀ q data, (q, data) ∈ files ↔
          ∃ d r, d ∈ dirs ∧ r ≠ [] ∧ q = d.1 ++ r
                 ∧ resolve (Dir d.2) r = Some (File data).
Proof.
  intros base_ root Hholds. pose proof Hholds as [Hlist _].
  induction fuel as [|fuel IH]; intros dirs pairs s Hdirs Hfuel.
  - destruct dirs as [|[p es] rest].
    + exists [], []. simpl. unfold ret. rewrite !app_nil_r. split; [done|].
      intros q data. split; [by intros ?%elem_of_nil|].
      by intros (d & r & ?%elem_of_nil & _).
    + unfold stack_weight in Hfuel. simpl in Hfuel. lia.
  - destruct dirs as [|[p es] rest].
    + exists [], []. simpl. unfold ret. rewrite !app_nil_r. split; [done|].
      intros q data. split; [by intros ?%elem_of_nil|].
      by intros (d & r & ?%elem_of_nil & _).
    + apply Forall_cons in Hdirs as [Hp Hrest]. simpl in Hp.
      destruct (Hlist s p es Hp) as (items & entries & Hhttp & Hperm & Hall).
      assert (∀ k n, (k, n) ∈ entries ↔ es !! k = Some n) as Hent.
      { intros k n. rewrite Hperm. apply elem_of_map_to_list. }
      set (req := contents_request c repo branch (asked_path base_ root p) 30).
      destruct (collect_items_tree w c repo branch sel_path rt p es Hholds Hp
                  items entries Hall) with
          (stack := map (λ d : path * gmap string node,
                           PStr (asked_path base_ root d.1)) rest)
          (pairs := pairs) (s := s ++ [req]) as [reqs1 Hitems].
      { intros [k n] He. by apply Hent. }
      fold base_ in Hitems. fold root in Hitems.
      set (below := dir_entries p entries) in *.
      assert (map (λ d : path * gmap string node, PStr (remote_path root d.1)) below
              = map (λ d, PStr (asked_path base_ root d.1)) below) as Hasked.
      { apply map_ext_in. intros [q sub] Hq%list_elem_of_In.
        apply elem_of_dir_entries in Hq as (k & _ & ->). simpl.
        by destruct p. }
      destruct (IH (rev below ++ rest) (pairs ++ map pair_of (file_entries p entries))
                  ((s ++ [req]) ++ reqs1)) as (files2 & reqs2 & Hrun & Hfiles).
      { apply Forall_app. split; [|done].
        apply Forall_forall. intros [q sub] Hq.
        apply (proj1 (elem_of_rev_list _ _)) in Hq.
        apply elem_of_dir_entries in Hq as (k & Hk & ->). simpl.
        apply Hent in Hk. rewrite resolve_app, Hp. simpl. by rewrite Hk. }
      { rewrite stack_weight_app, stack_weight_rev.
        pose proof (dir_entries_weight p entries es Hperm) as Hlt.
        fold below in Hlt. unfold stack_weight in Hfuel, Hlt |- *.
        cbn -[node_size] in Hfuel. lia. }
      exists (file_entries p entries ++ files2), (req :: reqs1 ++ reqs2).
      split.
      * change (map (λ d : path * gmap string node,
                       PStr (asked_path base_ root d.1)) ((p, es) :: rest))
          with (PStr (asked_path base_ root p)
                :: map (λ d : path * gmap string node,
                          PStr (asked_path base_ root d.1)) rest).
        simpl collect_pairs. unfold bind at 1. simpl st_list_dir.
        rewrite (list_dir_list c repo branch (asked_path base_ root p)
                   (set_sent s w) items Hhttp).
        fold req. change (add_sent req (set_sent s w)) with (set_sent (s ++ [req]) w).
        unfold bind at 1. rewrite Hitems.
        rewrite Hasked, <- map_rev, <- map_app. rewrite Hrun.
        change (req :: reqs1 ++ reqs2) with ([req] ++ reqs1 ++ reqs2).
        by rewrite map_app, !app_assoc.
      * intros q data. rewrite elem_of_app, Hfiles, elem_of_file_entries. split.
        -- intros [(k & Hk & ->)|(d & r & Hd & Hr & -> & Hres)].
           ++ exists (p, es), [k]. split; [by left|]. split; [done|].
              split; [done|]. apply Hent in Hk. simpl. by rewrite Hk.
           ++ apply elem_of_app in Hd as [Hd|Hd].
              ** apply (proj1 (elem_of_rev_list _ _)) in Hd.
                 destruct d as [q sub].
                 apply elem_of_dir_entries in Hd as (k & Hk & ->).
                 exists (p, es), (k :: r). split; [by left|]. split; [done|].
                 split; [simpl; by rewrite <- app_assoc|].
                 apply Hent in Hk. simpl in *. by rewrite Hk.
              ** exists d, r. split; [by right|]. done.
        -- intros (d & r & Hd & Hr & -> & Hres).
           apply elem_of_cons in Hd as [->|Hd].
           ++ destruct r as [|k r]; [done|]. simpl in Hres |- *.
              destruct (es !! k) as [[data'|sub]|] eqn:Hk; simpl in Hres; [| |done].
              ** destruct r as [|y r]; [|done]. injection Hres as ->.
                 left. exists k. split; [by apply Hent|done].
              ** destruct r as [|y r]; [done|].
                 right. exists (p ++ [k], sub), (y :: r).
                 split; [|split; [done|split; [simpl; by rewrite <- app_assoc|done]]].
                 apply elem_of_app. left. apply (proj2 (elem_of_rev_list _ _)).
                 apply elem_of_dir_entries. exists k. split; [by apply Hent|done].
           ++ right. exists d, r. split; [|done]. apply elem_of_app. by right.
Qed.

(** C9: the download of a remote restore, on a remote that holds a tree
    below the selected path.  The prefix the code measures is the selected
    path with [/obs-studio] appended and the slashes at its ends taken
    away, which is how the contents API writes the root; so for every
    selection, with or without slashes before or after it, every file of
    the tree, at any depth and wherever it stands in a listing, is kept
    under its path below the root, nothing else is kept, and these are the
    pairs [do_restore_remote] hands to the restore. *)
Theorem remote_restore_relative_path (w : world) (rt : gmap string node)
    (fuel : nat) :
  let tok := g_get_str K_GH_TOKEN "" w in
  let repo := g_get_str K_GH_REPO_SELECT "" w in
  let branch := g_get_str K_GH_BRANCH "main" w in
  let sel_path := g_get_str K_REMOTE_SELECT "" w in
  let client := new_client tok in
  let base_ := rstrip_slash sel_path +:+ "/obs-studio" in
  let root := _gh_join [sel_path; "obs-studio"] in
  tok ≠ "" → repo ≠ "" → sel_path ≠ "" →
  remote_holds w client repo branch base_ root rt →
  (node_size (Dir rt) ≤ fuel)%nat →
  strip_slash base_ = root
  ∧ (∀ q, remote_rel base_ (remote_path root q) = as_posix q)
  ∧ ∃ files reqs,
      collect_pairs fuel bar_steps client repo branch base_ [PStr base_] [] w
      = (Ok (Some (map pair_of files)), set_sent (w_sent w ++ reqs) w)
      ∧ (∀ q data, (q, data) ∈ files ↔ resolve (Dir rt) q = Some (File data))
      ∧ do_restore_remote bar_steps fuel w
        = match files with
          | [] =>
              (Ok (Some false),
               add_log LOG_ERROR
                 "Remote restore failed: No files found in the remote backup."
                 (set_sent (w_sent w ++ reqs) w))
          | _ =>
              match _restore_pairs_to_config (map pair_of files)
                      (set_sent (w_sent w ++ reqs) w) with
              | (Ok _, w2) =>
                  (Ok (Some true),
                   add_log LOG_INFO "Remote restore complete. Restart OBS." w2)
              | (Raise e, w2) =>
                  (Ok (Some false),
                   add_log LOG_ERROR ("Remote restore failed: " +:+ exn_str e) w2)
              end
          end.
Proof.
  intros tok repo branch sel_path client base_ root Htok Hrepo Hsel Hholds Hfuel.
  split; [apply remote_root_gh_join|].
  split; [intros q; apply remote_rel_under_root|].
  destruct (collect_pairs_tree w client repo branch sel_path rt Hholds fuel
              [([], rt)] [] (w_sent w)) as (files & reqs & Hrun & Hfiles).
  { by repeat constructor. }
  { unfold stack_weight. cbn -[node_size]. lia. }
  rewrite set_sent_id in Hrun.
  change (map (λ d : path * gmap string node,
                 PStr (asked_path (rstrip_slash sel_path +:+ "/obs-studio")
                         (_gh_join [sel_path; "obs-studio"]) d.1)) [([], rt)])
    with [PStr base_] in Hrun.
  change ([] ++ map pair_of files) with (map pair_of files) in Hrun.
  fold base_ in Hrun.
  exists files, reqs. split; [exact Hrun|]. split.
  - intros q data. rewrite Hfiles. split.
    + intros (d & r & Hd & Hr & -> & Hres).
      apply list_elem_of_singleton in Hd as ->. done.
    + intros Hres. exists ([], rt), q. split; [by left|].
      split; [by intros ->|done].
  - unfold do_restore_remote, try_except, restore_remote_body.
    unfold bind at 1. unfold bind at 1, ask at 1.
    unfold bind at 1, ask at 1. unfold bind at 1, ask at 1.
    unfold bind at 1, ask at 1.
    fold tok repo branch sel_path.
    apply String.eqb_neq in Htok, Hrepo, Hsel. rewrite Htok, Hrepo, Hsel.
    change (false || false || false) with false. cbv beta iota.
    fold client base_. unfold bind at 1. rewrite Hrun.
    destruct files as [|file files].
    + simpl. unfold raise, bind, err, _log, ret. done.
    + change (map pair_of (file :: files))
        with (pair_of file :: map pair_of files).
      cbv beta iota. simpl st_restore_pairs_to_config.
      unfold bind at 1.
      destruct (_restore_pairs_to_config _ _) as [[[]|e] w2].
      * unfold bind, info, _log, ret. done.
      * unfold bind, err, _log, ret. done.
Qed.

(** The paths of the tree of [nested_remote]. *)
Lemma nested_tree_paths (p : path) (n : node) :
  resolve (Dir {[ "basic" := Dir {[ "scene.json" := File [] ]} ]}) p = Some n →
  (p = [] ∧ n = Dir {[ "basic" := Dir {[ "scene.json" := File [] ]} ]})
  ∨ (p = ["basic"] ∧ n = Dir {[ "scene.json" := File [] ]})
  ∨ (p = ["basic"; "scene.json"] ∧ n = File []).
Proof.
  intros H. destruct p as [|x p]; [injection H as <-; by left|]. right.
  rewrite resolve_dir, lookup_path_cons in H.
  destruct (decide (x = "basic")) as [->|Hx].
  2: { by rewrite lookup_singleton_ne in H. }
  rewrite lookup_singleton in H.
  change (resolve (Dir {[ "scene.json" := File [] ]}) p = Some n) in H.
  destruct p as [|y p]; [injection H as <-; by left|]. right.
  rewrite resolve_dir, lookup_path_cons in H.
  destruct (decide (y = "scene.json")) as [->|Hy].
  2: { by rewrite lookup_singleton_ne in H. }
  rewrite lookup_singleton in H.
  change (resolve (File []) p = Some n) in H.
  destruct p as [|z p]; [injection H as <-; done|done].
Qed.

Lemma remote_restore_relative_path_witness :
  ∃ files reqs,
    collect_pairs 3 bar_steps (new_client "t") "u/a" "main" "/b/obs-studio"
      [PStr "/b/obs-studio"] [] nested_remote
    = (Ok (Some (map pair_of files)), set_sent reqs nested_remote)
    ∧ (["basic"; "scene.json"], []) ∈ files.
Proof.
  destruct (remote_restore_relative_path nested_remote
              {[ "basic" := Dir {[ "scene.json" := File [] ]} ]} 3)
    as (_ & _ & files & reqs & Hrun & Hfiles & _).
  - vm_compute. discriminate.
  - vm_compute. discriminate.
  - vm_compute. discriminate.
  - split.
    + intros sent p es Hres.
      destruct (nested_tree_paths p _ Hres) as [[-> [= ->]]|[[-> [= ->]]|[_ [=]]]].
      * eexists _, [("basic", Dir {[ "scene.json" := File [] ]})].
        split; [reflexivity|]. split; [by rewrite map_to_list_singleton|].
        repeat constructor. eexists. split; [reflexivity|]. split; reflexivity.
      * eexists _, [("scene.json", File [])].
        split; [reflexivity|]. split; [by rewrite map_to_list_singleton|].
        repeat constructor. eexists. split; [reflexivity|]. split; reflexivity.
    + intros sent p data Hres.
      destruct (nested_tree_paths p _ Hres) as [[_ [=]]|[[_ [=]]|[-> [= ->]]]].
      eexists _, _. split; [reflexivity|]. split; [reflexivity|].
      split; reflexivity.
  - vm_compute. lia.
  - exists files, (w_sent nested_remote ++ reqs). split; [exact Hrun|].
    apply Hfiles. reflexivity.
Defined.

(** * Further properties *)

(** ** One step of the restore, on any disk *)

Lemma rmtree_ignore_entry l n t q :
  is_dir t (l ++ [n]) = true →
  entry_at (rmtree_ignore (l ++ [n]) t) q
  = if bool_decide ((l ++ [n]) `prefix_of` q) then None else entry_at t q.
Proof.
  intros Hd.
  assert (∃ es, lookup_path t l = Some (Dir es)) as [es Hl].
  { unfold is_dir in Hd. rewrite lookup_path_app in Hd.
    destruct (lookup_path t l) as [[d|es]|]; try done. eauto. }
  destruct (at_dir_ok l false (λ es, Ok (delete n es)) t es _ Hl eq_refl) as [t' Ht].
  assert (rmtree_ignore (l ++ [n]) t = t') as ->.
  { unfold rmtree_ignore. rewrite Hd, parent_snoc, name_snoc, Ht. by destruct l. }
  destruct (path_trichotomy l q)
    as [[r ->]|[(x & r & ->)|(k & a & b & p' & q' & Hn & -> & ->)]].
  - destruct (at_dir_below _ _ _ _ _ Ht) as (es0 & es' & [= <-] & Hor & Hb).
    destruct Hor as [Hes|(? & _)]; [|done].
    rewrite Hl in Hes. injection Hes as <-.
    unfold entry_at. rewrite Hb, lookup_path_app, Hl. simpl. rewrite resolve_dir.
    destruct r as [|y r].
    + rewrite bool_decide_eq_false_2; [done|].
      rewrite app_nil_r. apply not_prefix_app_cons.
    + rewrite !lookup_path_cons. destruct (decide (y = n)) as [->|Hy].
      * rewrite lookup_delete_eq. simpl.
        rewrite bool_decide_eq_true_2; [done|].
        exists r. by rewrite <- app_assoc.
      * rewrite lookup_delete_ne by done.
        rewrite bool_decide_eq_false_2; [done|].
        intros [m Hm]. rewrite <- app_assoc in Hm. apply app_inv_head in Hm.
        simpl in Hm. by simplify_eq.
  - rewrite bool_decide_eq_false_2.
    + destruct (at_dir_entry_above _ _ _ _ _ _ _ Ht) as [-> [->|(? & _)]]; done.
    + intros Hp%prefix_length_le. rewrite !length_app in Hp. simpl in Hp. lia.
  - rewrite bool_decide_eq_false_2.
    + by eapply at_dir_entry_diverge.
    + rewrite <- app_assoc. simpl. intros Hp.
      apply (not_prefix_diverge k b a q' (p' ++ [n])); [done|].
      destruct Hp as [m Hm]. exists m. by rewrite Hm.
Qed.

Lemma entry_at_below_none t p x r :
  entry_at t p ≠ Some None → entry_at t (p ++ x :: r) = None.
Proof.
  intros H. destruct (entry_at t (p ++ x :: r)) eqn:E; [|done].
  destruct H. eapply entry_at_above. by rewrite E.
Qed.

Lemma clear_dest_entry l n w :
  ∃ t1, clear_dest (l ++ [n]) w = (Ok tt, set_fs t1 w)
        ∧ ∀ q, entry_at t1 q
               = if bool_decide ((l ++ [n]) `prefix_of` q) then None
                 else entry_at (w_fs w) q.
Proof.
  unfold clear_dest, bind, ask.
  destruct (entry_at (w_fs w) (l ++ [n])) as [[d|]|] eqn:E.
  - assert (path_exists (w_fs w) (l ++ [n]) = true) as ->
      by (apply path_exists_entry; by rewrite E).
    assert (is_dir (w_fs w) (l ++ [n]) = false) as ->
      by (apply is_dir_false_entry; by rewrite E).
    destruct (unlink_ok _ _ _ _ E) as [t1 Ht1].
    exists t1. unfold try_except, fs_try. rewrite Ht1. split; [done|].
    intros q. rewrite (unlink_entry _ _ _ _ q Ht1).
    case_bool_decide as H1; case_bool_decide as H2; try done.
    + destruct H2. by rewrite H1.
    + destruct H2 as [[|x r] ->]; [by rewrite app_nil_r in H1|].
      apply entry_at_below_none. by rewrite E.
  - assert (path_exists (w_fs w) (l ++ [n]) = true) as ->
      by (apply path_exists_entry; by rewrite E).
    assert (is_dir (w_fs w) (l ++ [n]) = true) as Hd by (by apply is_dir_entry).
    rewrite Hd. exists (rmtree_ignore (l ++ [n]) (w_fs w)). split; [done|].
    intros q. by apply rmtree_ignore_entry.
  - assert (path_exists (w_fs w) (l ++ [n]) = false) as ->
      by (by apply path_exists_false_entry).
    exists (w_fs w). unfold ret. rewrite set_fs_id. split; [done|].
    intros q. case_bool_decide as H; [|done].
    destruct H as [[|x r] ->]; [by rewrite app_nil_r|].
    apply entry_at_below_none. by rewrite E.
Qed.

(** A directory can be made if and only if no regular file is on the way. *)
Lemma mkdir_p_ok_iff p t :
  (∃ t', mkdir_p p t = Ok t') ↔ ∀ q d, q `prefix_of` p → entry_at t q ≠ Some (Some d).
Proof.
  split.
  - intros [t' H%mkdir_p_at_dir] q d [r ->] E.
    destruct r as [|x r].
    + rewrite app_nil_r in H.
      destruct (at_dir_below _ _ _ _ _ H) as (es & es' & _ & Hor & _).
      apply entry_file_lookup in E.
      destruct Hor as [Hes|(_ & Hes & _)]; by rewrite E in Hes.
    + destruct (at_dir_entry_above _ _ _ _ _ _ _ H) as [_ [Hq|[_ Hq]]];
        by rewrite E in Hq.
  - intros H. apply mkdir_p_ok. intros q Hq.
    destruct (is_file t q) eqn:E; [|done].
    apply is_file_entry in E as [d E]. by destruct (H q d).
Qed.

Lemma write_pair_run cfg p data w :
  p ≠ [] → Forall (λ s, valid_name s = true) p →
  (∀ q d, q `prefix_of` (cfg ++ p) → q ≠ cfg ++ p →
          entry_at (w_fs w) q ≠ Some (Some d)) →
  ∃ t', write_pair cfg (pair_of (p, data)) w = (Ok tt, set_fs t' w)
        ∧ ∀ x, entry_at t' x
               = if bool_decide (x = cfg ++ p) then Some (Some data)
                 else if bool_decide ((cfg ++ p) `prefix_of` x) then None
                 else if bool_decide (x `prefix_of` (cfg ++ p)) then Some None
                 else entry_at (w_fs w) x.
Proof.
  intros Hne Hval Hfree.
  destruct p as [|f m _] using rev_ind; [done|]. clear Hne.
  unfold write_pair, pair_of. unfold bind at 1, ask_result at 1. simpl.
  rewrite path_join_as_posix by done.
  rewrite app_assoc in Hfree |- *. set (l := cfg ++ m) in *.
  destruct (clear_dest_entry l f w) as (t1 & Hclear & E1).
  unfold bind at 1. rewrite Hclear.
  assert (∃ t2, mkdir_p l t1 = Ok t2) as [t2 Ht2].
  { apply mkdir_p_ok_iff. intros q d Hq. rewrite E1.
    rewrite bool_decide_eq_false_2.
    - apply Hfree.
      + destruct Hq as [r ->]. exists (r ++ [f]). by rewrite app_assoc.
      + intros ->. apply prefix_length_le in Hq.
        rewrite length_app in Hq. simpl in Hq. lia.
    - intros Hp. pose proof (prefix_length_le _ _ Hp) as H1.
      pose proof (prefix_length_le _ _ Hq) as H2.
      rewrite length_app in H1. simpl in H1. lia. }
  pose proof (λ q, mkdir_p_entry _ _ _ q Ht2) as E2.
  unfold bind, ensure_parent, fs_try. simpl w_fs.
  rewrite parent_snoc, Ht2. simpl w_fs.
  assert (∃ t3, write_file (l ++ [f]) data t2 = Ok t3) as [t3 Ht3].
  { apply write_file_ok.
    - by rewrite E2, bool_decide_eq_true_2.
    - rewrite E2, bool_decide_eq_false_2 by apply (not_prefix_app_cons l f []).
      rewrite E1, bool_decide_eq_true_2; done. }
  rewrite Ht3, set_fs_set_fs. exists t3. split; [done|].
  intros x. rewrite (write_file_entry _ _ _ _ _ x Ht3).
  case_bool_decide as H1; [done|].
  rewrite E2, E1.
  assert (∀ y : path, y `prefix_of` l → y `prefix_of` l ++ [f]) as Hup.
  { intros y [r ->]. exists (r ++ [f]). by rewrite app_assoc. }
  assert (∀ y : path, y `prefix_of` l ++ [f] → y = l ++ [f] ∨ y `prefix_of` l) as Hdown.
  { intros y [r Hr]. destruct r as [|z r _] using rev_ind.
    - left. by rewrite app_nil_r in Hr.
    - right. rewrite app_assoc in Hr. apply app_inj_tail in Hr as [-> _]. by exists r. }
  repeat case_bool_decide; try done.
  - match goal with
    | Ha : x `prefix_of` l, Hb : l ++ [f] `prefix_of` x |- _ =>
        apply prefix_length_le in Ha, Hb; rewrite length_app in Hb; simpl in Hb; lia
    end.
  - match goal with Ha : x `prefix_of` l, Hb : ¬ _ `prefix_of` l ++ [f] |- _ =>
      destruct Hb; by apply Hup end.
  - match goal with Ha : x `prefix_of` l ++ [f] |- _ =>
      by destruct (Hdown _ Ha) end.
Qed.

(** A regular file on the way stops the step before anything is changed. *)
Lemma write_pair_blocked cfg p data w q d :
  p ≠ [] → Forall (λ s, valid_name s = true) p →
  q `prefix_of` (cfg ++ p) → q ≠ cfg ++ p → entry_at (w_fs w) q = Some (Some d) →
  ∃ e, write_pair cfg (pair_of (p, data)) w = (Raise e, w).
Proof.
  intros Hne Hval Hq Hneq E.
  destruct p as [|f m _] using rev_ind; [done|]. clear Hne.
  unfold write_pair, pair_of. unfold bind at 1, ask_result at 1. simpl.
  rewrite path_join_as_posix by done.
  rewrite app_assoc in Hq, Hneq |- *. set (l := cfg ++ m) in *.
  assert (q `prefix_of` l) as Hql.
  { destruct Hq as [r Hr]. destruct r as [|y r] using rev_ind.
    - rewrite app_nil_r in Hr. by destruct Hneq.
    - rewrite app_assoc in Hr. apply app_inj_tail in Hr as [-> _]. by exists r. }
  assert (entry_at (w_fs w) (l ++ [f]) = None) as Habs.
  { destruct Hql as [r ->]. rewrite <- app_assoc.
    destruct (r ++ [f]) as [|y r'] eqn:Hr; [by destruct r|].
    apply entry_at_below_none. by rewrite E. }
  unfold clear_dest, bind, ask.
  assert (path_exists (w_fs w) (l ++ [f]) = false) as ->
    by (by apply path_exists_false_entry).
  unfold ret, ensure_parent, fs_try. rewrite parent_snoc.
  destruct (mkdir_p l (w_fs w)) as [t2|e] eqn:Ht2; [|by exists e].
  assert (∃ t', mkdir_p l (w_fs w) = Ok t') as Hex by eauto.
  by destruct (proj1 (mkdir_p_ok_iff l (w_fs w)) Hex q d Hql).
Qed.

(** Two files of a tree: the path of one is a prefix of the path of the
    other only when they are the same file. *)
Lemma resolve_file_prefix n p p' d d' :
  resolve n p = Some (File d) → resolve n p' = Some (File d') →
  p `prefix_of` p' → p = p' ∧ d = d'.
Proof.
  intros Hp Hp' [r ->]. rewrite resolve_app, Hp in Hp'. simpl in Hp'.
  destruct r as [|y r]; [|by rewrite resolve_file_cons in Hp'].
  simpl in Hp'. rewrite app_nil_r. split; congruence.
Qed.

(** The loop of the restore over the files of a tree [n], on a disk where
    no regular file stands where [n] has a directory. *)
Lemma write_pairs_run (n : node) cfg files :
  valid_tree n = true →
  Forall (λ file : path * bytes,
            resolve n file.1 = Some (File file.2) ∧ file.1 ≠ []) files →
  ∀ w,
    entry_at (w_fs w) cfg = Some None →
    (∀ p d q d', resolve n p = Some (File d) → q ≠ [] → q `prefix_of` p → q ≠ p →
                 entry_at (w_fs w) (cfg ++ q) ≠ Some (Some d')) →
    ∃ t', for_each (map pair_of files) (write_pair cfg) w = (Ok tt, set_fs t' w)
          ∧ (∀ p d, (p, d) ∈ files → entry_at t' (cfg ++ p) = Some (Some d))
          ∧ (∀ x d, entry_at (w_fs w) (cfg ++ x) = Some (Some d) →
               (∀ p d', (p, d') ∈ files → p `prefix_of` x → p = x ∧ d' = d) →
               entry_at t' (cfg ++ x) = Some (Some d)).
Proof.
  intros Hv. induction 1 as [|[p d] files [Hp Hne] Hall IH]; intros w I1 I2.
  - exists (w_fs w). simpl. unfold ret. rewrite set_fs_id.
    split; [done|]. split; [by intros ?? ?%elem_of_nil|done].
  - simpl in Hp, Hne.
    destruct (valid_tree_resolve _ _ _ Hv Hp) as [Hval _].
    destruct (write_pair_run cfg p d w Hne Hval) as (t1 & Hrun & E).
    { intros q d' Hq Hneq.
      destruct (prefix_app_cases _ _ _ Hq) as [[r Hr]|(q' & -> & Hq')].
      - destruct r as [|y r].
        + rewrite app_nil_r in Hr. subst q. by rewrite I1.
        + assert (entry_at (w_fs w) q = Some None) as ->; [|done].
          apply (entry_at_above _ _ y r). rewrite <- Hr. by rewrite I1.
      - destruct q' as [|y q']; [by rewrite app_nil_r, I1|].
        apply (I2 p d); [done|done|done|].
        intros Hyq. apply Hneq. by rewrite Hyq. }
    assert (∀ q, cfg ++ q = cfg ++ p ↔ q = p) as Heq.
    { intros q. split; [apply app_inv_head|by intros ->]. }
    assert (∀ a b : path, cfg ++ a `prefix_of` cfg ++ b ↔ a `prefix_of` b) as Hpre.
    { intros a b. split; [apply prefix_app_inv|apply prefix_app]. }
    destruct (IH (set_fs t1 w)) as (t' & Hrun' & R1 & R2).
    { simpl. rewrite E. rewrite bool_decide_eq_false_2.
      - rewrite bool_decide_eq_false_2.
        + rewrite bool_decide_eq_true_2; [done|]. by apply prefix_app_r.
        + destruct p; [done|]. apply not_prefix_app_cons.
      - rewrite <- (app_nil_r cfg) at 1. rewrite Heq. by intros <-. }
    { simpl. intros p2 d2 q d' Hp2 Hq Hqp Hneq. rewrite E.
      case_bool_decide as H1.
      - apply (proj1 (Heq _)) in H1 as ->.
        by destruct (resolve_file_prefix _ _ _ _ _ Hp Hp2 Hqp).
      - repeat case_bool_decide; try done. by eapply I2. }
    exists t'. split; [|split].
    + simpl map. by rewrite (for_each_cons_ok _ _ _ _ _ Hrun), set_fs_set_fs in *.
    + intros p0 d0 [[= -> ->]|Hin]%elem_of_cons; [|by apply R1].
      apply R2.
      * simpl. rewrite E. by rewrite bool_decide_eq_true_2.
      * intros p' d' Hin Hpp.
        destruct (proj1 (Forall_forall _ _) Hall _ Hin) as [Hp' _]. simpl in Hp'.
        exact (resolve_file_prefix _ _ _ _ _ Hp' Hp Hpp).
    + intros x dx Hx Hfiles. apply R2.
      * simpl. rewrite E. case_bool_decide as H1.
        -- apply (proj1 (Heq _)) in H1 as ->.
           assert (p = p ∧ d = dx) as [_ ->]; [|done].
           apply Hfiles; [by left|done].
        -- case_bool_decide as H2.
           { apply (proj1 (Hpre _ _)) in H2.
             assert (p = x ∧ d = dx) as [-> _] by (apply Hfiles; [by left|done]).
             by destruct H1. }
           case_bool_decide as H3; [|done].
           apply (proj1 (Hpre _ _)) in H3. destruct x as [|y x].
           { rewrite app_nil_r in Hx. by rewrite I1 in Hx. }
           destruct (I2 p d (y :: x) dx); try done.
           intros Hyx. rewrite Hyx in H1. by destruct H1.
      * intros p' d' Hin. apply Hfiles. by right.
Qed.

(** The restore makes the configuration directory first; from then on it
    runs as on a disk that has it. *)
Lemma restore_pairs_mkdir pairs w cfg t0 :
  get_obs_config_dir w = Ok cfg → mkdir_p cfg (w_fs w) = Ok t0 →
  _restore_pairs_to_config pairs w
  = (let* _ := _backup_current_config in for_each pairs (write_pair cfg)) (set_fs t0 w).
Proof.
  intros Hcfg Hmk. unfold _restore_pairs_to_config.
  unfold bind at 1, ask_result at 1. rewrite Hcfg.
  unfold bind at 1, fs_try at 1. by rewrite Hmk.
Qed.

(** X1: [_restore_from_folder] over any configuration directory.  When the
    folder holds an [obs-studio] directory with valid names, the
    configuration directory can be made, and no regular file of it lies
    where the bundle has a directory, the restore succeeds: every file of
    the bundle is in the configuration directory with the bundle's bytes,
    and every file of the configuration directory that is not at or below
    the path of a bundle file keeps its bytes.  The restore merges; it does
    not clear the directory first. *)
Theorem restore_writes_bundle (w : world) (cfg folder : path)
    (es : gmap string node) :
  get_obs_config_dir w = Ok cfg →
  str_mem "/" (w_now w) = false →
  lookup_path (w_fs w) (folder ++ ["obs-studio"]) = Some (Dir es) →
  valid_tree (Dir es) = true →
  is_ok (mkdir_p cfg (w_fs w)) = true →
  (∀ p d q, resolve (Dir es) p = Some (File d) → q ≠ [] → q `prefix_of` p → q ≠ p →
            is_file (w_fs w) (cfg ++ q) = false) →
  ∃ w2,
    _restore_from_folder folder w = (Ok tt, w2)
    ∧ (∀ p d, resolve (Dir es) p = Some (File d) →
         file_at (w_fs w2) (cfg ++ p) = Some d)
    ∧ (∀ x d, file_at (w_fs w) (cfg ++ x) = Some d →
         (∀ p d', resolve (Dir es) p = Some (File d') → ¬ p `prefix_of` x) →
         file_at (w_fs w2) (cfg ++ x) = Some d).
Proof.
  intros Hcfg Hnow Hes Hv Hmk Hfree.
  destruct (mkdir_p cfg (w_fs w)) as [t0|] eqn:Ht0; [clear Hmk|done].
  pose proof (λ q, mkdir_p_entry _ _ _ q Ht0) as E0.
  destruct (config_dir_parent _ _ Hcfg) as [b Hb]. subst cfg.
  set (cfg := b ++ ["obs-studio"]) in *.
  set (w0 := set_fs t0 w).
  assert (∀ q, q ≠ [] → entry_at t0 (cfg ++ q) = entry_at (w_fs w) (cfg ++ q)) as K0.
  { intros [|y q] Hq; [done|]. rewrite E0.
    by rewrite bool_decide_eq_false_2 by apply not_prefix_app_cons. }
  assert (is_dir (w_fs w0) cfg = true) as Hdir.
  { apply is_dir_entry. simpl. by rewrite E0, bool_decide_eq_true_2. }
  (* the pairs are read before anything is written *)
  assert (is_dir (w_fs w) folder = true) as Hfolder.
  { destruct (lookup_path_parent_dir _ _ _ [] _ Hes) as [fs Hfs].
    unfold is_dir. by rewrite Hfs. }
  assert (read_pairs (w_fs w) (restore_root (w_fs w) folder)
          = map pair_of (rglob_files [] (Dir es))) as Hpairs.
  { unfold restore_root. rewrite path_join_obs_studio.
    assert (path_exists (w_fs w) (folder ++ ["obs-studio"]) = true) as ->
      by (unfold path_exists; by rewrite Hes).
    unfold read_pairs. by rewrite Hes. }
  (* the snapshot leaves the configuration directory alone *)
  destruct (backup_current_config_run w0 b Hcfg Hdir Hnow) as (t1 & Hframe & Hcopy & Hfail).
  destruct (snapshot_name_parts w Hnow) as (_ & _ & Hsn).
  assert (∃ w1, _backup_current_config w0 = (Ok tt, w1) ∧ w_fs w1 = t1)
    as (w1 & Hsnap & Hfs1).
  { destruct (is_file (w_fs w0) (b ++ [snapshot_name w0])).
    - destruct (Hfail eq_refl) as (_ & e & ->). eauto.
    - destruct (Hcopy eq_refl) as (_ & ->). eauto. }
  assert (∀ q, entry_at (w_fs w1) (cfg ++ q) = entry_at t0 (cfg ++ q)) as K1.
  { intros q. rewrite Hfs1. unfold entry_at, cfg. rewrite <- !app_assoc.
    simpl. rewrite Hframe; [done|by apply not_eq_sym]. }
  (* the loop *)
  destruct (write_pairs_run (Dir es) cfg (rglob_files [] (Dir es)) Hv) with (w := w1)
    as (t2 & Hloop & R1 & R2).
  { apply Forall_forall. intros [p d] Hin.
    apply elem_of_rglob_files in Hin as (tail & Hr & Hne & ->). done. }
  { rewrite <- (app_nil_r cfg), K1, app_nil_r. by apply is_dir_entry. }
  { intros p d q d' Hp Hq Hqp Hneq. rewrite K1, K0 by done. intros E.
    assert (is_file (w_fs w) (cfg ++ q) = true) as Hf by (apply is_file_entry; eauto).
    by rewrite (Hfree p d q Hp Hq Hqp Hneq) in Hf. }
  exists (set_fs t2 w1). split; [|split].
  - unfold _restore_from_folder, bind at 1, ask at 1.
    unfold path_exists. unfold is_dir in Hfolder |- *.
    destruct (lookup_path (w_fs w) folder) as [[|fs]|]; try done.
    change (negb true || negb true) with false. cbv iota.
    rewrite Hpairs, (restore_pairs_mkdir _ _ _ _ Hcfg Ht0).
    unfold bind. fold w0. by rewrite Hsnap, Hloop.
  - intros p d Hp. simpl. apply file_at_entry, R1.
    apply elem_of_rglob_files. exists p. split; [done|]. split; [|done].
    intros ->. done.
  - intros x d Hx Hno. simpl. apply file_at_entry, R2.
    + apply file_at_entry in Hx. destruct x as [|y x].
      * rewrite app_nil_r in Hx |- *. rewrite <- (app_nil_r cfg), K1, app_nil_r.
        rewrite E0, bool_decide_eq_true_2 by done.
        (* the configuration directory is not a file *)
        destruct (at_dir_below _ _ _ _ _ (proj1 (mkdir_p_at_dir _ _ _) Ht0))
          as (e0 & e1 & _ & Hor & _).
        apply entry_file_lookup in Hx.
        destruct Hor as [Hor|(_ & Hor & _)]; by rewrite Hx in Hor.
      * by rewrite K1, K0.
    + intros p d' Hin Hpx.
      apply elem_of_rglob_files in Hin as (tail & Hr & Hne & ->).
      by destruct (Hno _ _ Hr).
Qed.

Lemma within_refl F w : within F w w.
Proof. unfold within. by split_and!. Qed.

Lemma within_trans F w1 w2 w3 : within F w1 w2 → within F w2 w3 → within F w1 w3.
Proof.
  unfold within.
  intros (?&?&?&?&?&?&?&?&?&?&A1&A2&A3&A4&A5&A6) (?&?&?&?&?&?&?&?&?&?&B1&B2&B3&B4&B5&B6).
  split_and!; try congruence.
  - intros HF. by rewrite B1, A1.
  - intros HF. by rewrite B2, A2.
  - intros HF. by rewrite B3, A3.
  - intros HF. destruct (A4 HF) as [Ha Hb]. destruct (B4 HF) as [Hc Hd]. split; congruence.
  - intros HF. by rewrite B5, A5.
  - intros k HF. by rewrite B6, A6.
Qed.

Lemma touches_ret {A} F (a : A) : touches F (ret a).
Proof. intros w. apply within_refl. Qed.

Lemma touches_raise {A} F e : touches F (@raise A e).
Proof. intros w. apply within_refl. Qed.

Lemma touches_ask {A} F (f : world → A) : touches F (ask f).
Proof. intros w. apply within_refl. Qed.

Lemma touches_ask_result {A} F (f : world → result A) : touches F (ask_result f).
Proof. intros w. apply within_refl. Qed.

Lemma touches_bind {A B} F (c : M A) (k : A → M B) :
  touches F c → (∀ a, touches F (k a)) → touches F (bind c k).
Proof.
  intros Hc Hk w. unfold bind. specialize (Hc w).
  destruct (c w) as [[a|e] w1]; simpl in *; [|done].
  eapply within_trans; [done|apply Hk].
Qed.

Lemma touches_try_except {A} F (c : M A) (h : exn → M A) :
  touches F c → (∀ e, touches F (h e)) → touches F (try_except c h).
Proof.
  intros Hc Hh w. unfold try_except. specialize (Hc w).
  destruct (c w) as [[a|e] w1]; simpl in *; [done|].
  eapply within_trans; [done|apply Hh].
Qed.

Lemma touches_try_finally {A} F (c : M A) (f : M unit) :
  touches F c → touches F f → touches F (try_finally c f).
Proof.
  intros Hc Hf w. unfold try_finally. specialize (Hc w).
  destruct (c w) as [r w1]. specialize (Hf w1).
  destruct (f w1) as [[[]|e] w2]; simpl in *; by eapply within_trans.
Qed.

Lemma touches_for_each {A} F (l : list A) (body : A → M unit) :
  (∀ x, touches F (body x)) → touches F (for_each l body).
Proof.
  intros Hb. induction l as [|x l IH]; simpl.
  - apply touches_ret.
  - apply touches_bind; [apply Hb|by intros _].
Qed.

Lemma touches_fs_try F f : f_fs F = true → touches F (fs_try f).
Proof.
  intros HF w. unfold fs_try. destruct (f (w_fs w)); [|apply within_refl].
  unfold within. simpl. split_and!; try done. by rewrite HF.
Qed.

Lemma touches_fs_do F f : f_fs F = true → touches F (fs_do f).
Proof.
  intros HF w. unfold within. simpl. split_and!; try done. by rewrite HF.
Qed.

Lemma touches_log F l msg : f_log F = true → touches F (_log l msg).
Proof.
  intros HF w. unfold within. simpl. split_and!; try done. by rewrite HF.
Qed.

Lemma touches_urlopen F req : f_sent F = true → touches F (urlopen req).
Proof.
  intros HF w. unfold within. simpl. split_and!; try done. by rewrite HF.
Qed.

Lemma touches_g_set F k v : k ∈ f_keys F → touches F (g_set k v).
Proof.
  intros HF w. unfold within. simpl. split_and!; try done.
  intros k' Hk'. rewrite lookup_insert_ne; [done|]. by intros ->.
Qed.

Create HintDb touches discriminated.

#[local] Hint Resolve touches_ret touches_raise touches_ask touches_ask_result
  touches_fs_try touches_fs_do touches_log touches_urlopen touches_g_set : touches.

(** The descent through a computation: binds, handlers and loops are split,
    conditionals and matches are taken by cases, and what is left is looked
    up among the lemmas on the functions met so far. *)
Ltac touches_step :=
  first
    [ solve [eauto with touches]
    | apply touches_bind; [|intros ?]
    | apply touches_try_except; [|intros ?]
    | apply touches_try_finally
    | apply touches_for_each; intros ?
    | match goal with
      | |- touches _ (if ?b then _ else _) => destruct b
      | |- touches _ (match ?x with _ => _ end) => destruct x
      end ].

Ltac touches_tac := repeat touches_step.

Section footprints.
Variable F : frame.

Lemma touches_info msg : f_log F = true → touches F (info msg).
Proof. intros. by apply touches_log. Qed.
Lemma touches_warn msg : f_log F = true → touches F (warn msg).
Proof. intros. by apply touches_log. Qed.
Lemma touches_err msg : f_log F = true → touches F (err msg).
Proof. intros. by apply touches_log. Qed.
Hint Resolve touches_info touches_warn touches_err : touches.

Lemma touches_guarded what body :
  f_log F = true → touches F body → touches F (guarded what body).
Proof. intros. unfold guarded. touches_tac. Qed.

(** *** The disk *)

Lemma touches_ensure_parent p : f_fs F = true → touches F (ensure_parent p).
Proof. intros. unfold ensure_parent. touches_tac. Qed.
Hint Resolve touches_ensure_parent : touches.

Lemma touches_copy_item target_root item :
  f_fs F = true → touches F (copy_item target_root item).
Proof. intros. unfold copy_item. touches_tac. Qed.
Hint Resolve touches_copy_item : touches.

Lemma touches_create_local_backup_folder base_dir il ic :
  f_fs F = true → touches F (create_local_backup_folder base_dir il ic).
Proof. intros. unfold create_local_backup_folder. touches_tac. Qed.

Lemma touches_snapshot_to cfg backup_dir :
  f_fs F = true → f_log F = true → touches F (snapshot_to cfg backup_dir).
Proof. intros. unfold snapshot_to. touches_tac. Qed.
Hint Resolve touches_snapshot_to : touches.

Lemma touches_backup_current_config :
  f_fs F = true → f_log F = true → touches F _backup_current_config.
Proof. intros. unfold _backup_current_config. touches_tac. Qed.
Hint Resolve touches_backup_current_config : touches.

Lemma touches_clear_dest dest : f_fs F = true → touches F (clear_dest dest).
Proof. intros. unfold clear_dest. touches_tac. Qed.
Hint Resolve touches_clear_dest : touches.

Lemma touches_write_pair cfg pair : f_fs F = true → touches F (write_pair cfg pair).
Proof. intros. unfold write_pair. touches_tac. Qed.
Hint Resolve touches_write_pair : touches.

Lemma touches_restore_pairs_to_config pairs :
  f_fs F = true → f_log F = true → touches F (_restore_pairs_to_config pairs).
Proof. intros. unfold _restore_pairs_to_config. touches_tac. Qed.
Hint Resolve touches_restore_pairs_to_config : touches.

Lemma touches_restore_from_folder folder :
  f_fs F = true → f_log F = true → touches F (_restore_from_folder folder).
Proof. intros. unfold _restore_from_folder. touches_tac. Qed.

Lemma touches_unpack_zip cfg zp :
  f_fs F = true → f_log F = true → touches F (unpack_zip cfg zp).
Proof. intros. unfold unpack_zip, with_tempdir, extractall. touches_tac. Qed.
Hint Resolve touches_unpack_zip : touches.

Lemma touches_extract_zip_to_config zp :
  f_fs F = true → f_log F = true → touches F (_extract_zip_to_config zp).
Proof. intros. unfold _extract_zip_to_config. touches_tac. Qed.

(** *** The remote *)

Lemma touches_put_file c repo branch p data msg :
  f_sent F = true → touches F (put_file c repo branch p data msg).
Proof. intros. unfold put_file. touches_tac. Qed.

Lemma touches_list_dir c repo branch p :
  f_sent F = true → touches F (list_dir c repo branch p).
Proof. intros. unfold list_dir. touches_tac. Qed.

Lemma touches_get_file_content_b64 c repo branch p :
  f_sent F = true → touches F (get_file_content_b64 c repo branch p).
Proof. intros. unfold get_file_content_b64. touches_tac. Qed.

Lemma touches_list_user_repos_from fuel c :
  f_sent F = true → ∀ page repos, touches F (list_user_repos_from fuel c page repos).
Proof.
  intros HF. induction fuel as [|fuel IH]; intros page repos; simpl; touches_tac.
Qed.
(** *** The operations, with the script's own functions *)

Hint Resolve touches_guarded touches_create_local_backup_folder
  touches_restore_from_folder touches_extract_zip_to_config touches_put_file
  touches_list_dir touches_get_file_content_b64 touches_list_user_repos_from
  : touches.

Lemma touches_upload_files client repo branch base_in_repo backup_name items :
  f_sent F = true → f_log F = true →
  ∀ count, touches F (upload_files bar_steps client repo branch base_in_repo
                        backup_name items count).
Proof.
  intros HS HL. induction items as [|[rel src] items IH]; intros count; simpl.
  - touches_tac.
  - touches_tac.
Qed.
Hint Resolve touches_upload_files : touches.

Lemma touches_backup_body :
  f_fs F = true → f_log F = true → f_sent F = true →
  K_INCLUDE_LOGS ∈ f_keys F → K_INCLUDE_CACHE ∈ f_keys F →
  touches F (backup_body bar_steps).
Proof. intros. unfold backup_body. simpl. touches_tac. Qed.

Lemma touches_restore_local_body :
  f_fs F = true → f_log F = true → touches F (restore_local_body bar_steps).
Proof. intros. unfold restore_local_body. simpl. touches_tac. Qed.

Lemma touches_set_remote files (items : world → option (list (pyval * pyval))) :
  f_remote F = true →
  touches F (λ w, (Ok tt, set_remote files (items w) w)).
Proof.
  intros HF w. unfold within. simpl. split_and!; try done. by rewrite HF.
Qed.

Lemma touches_set_repo_list items :
  f_repo F = true → touches F (λ w, (Ok tt, set_repo_list items w)).
Proof.
  intros HF w. unfold within. simpl. split_and!; try done. by rewrite HF.
Qed.
Hint Resolve touches_set_repo_list : touches.

Lemma touches_refresh_body :
  f_sent F = true → f_log F = true → f_remote F = true →
  touches F (refresh_body bar_steps).
Proof.
  intros. unfold refresh_body. simpl. touches_tac.
  apply (touches_set_remote _ (λ w, match w_remote_list w with
                                   | Some _ => _ | None => None end)). done.
Qed.

Lemma touches_collect_items client repo branch base_ items :
  f_sent F = true →
  ∀ stack pairs,
    touches F (collect_items bar_steps client repo branch base_ items stack pairs).
Proof.
  intros HS. induction items as [|it items IH]; intros stack pairs; simpl; touches_tac.
Qed.
Hint Resolve touches_collect_items : touches.

Lemma touches_collect_pairs fuel client repo branch base_ :
  f_sent F = true →
  ∀ stack pairs,
    touches F (collect_pairs fuel bar_steps client repo branch base_ stack pairs).
Proof.
  intros HS. induction fuel as [|fuel IH]; intros [|p stack] pairs; simpl; touches_tac.
Qed.
Hint Resolve touches_collect_pairs : touches.

Lemma touches_restore_remote_body fuel :
  f_fs F = true → f_log F = true → f_sent F = true →
  touches F (restore_remote_body bar_steps fuel).
Proof. intros. unfold restore_remote_body. simpl. touches_tac. Qed.

Lemma touches_fetch_repos_body fuel :
  f_sent F = true → f_log F = true → f_repo F = true →
  touches F (fetch_repos_body fuel).
Proof. intros. unfold fetch_repos_body, list_user_repos. touches_tac. Qed.
End footprints.

#[local] Hint Resolve touches_info touches_warn touches_err touches_guarded
  touches_create_local_backup_folder touches_restore_from_folder
  touches_extract_zip_to_config touches_restore_pairs_to_config touches_put_file
  touches_list_dir touches_get_file_content_b64 touches_list_user_repos_from
  touches_upload_files touches_collect_pairs touches_set_repo_list : touches.

Lemma touches_do_restore_remote F fuel :
  f_fs F = true → f_log F = true → f_sent F = true →
  touches F (do_restore_remote bar_steps fuel).
Proof.
  intros. unfold do_restore_remote.
  apply touches_try_except; [|intros e; touches_tac].
  apply touches_bind; [by apply touches_restore_remote_body|intros; touches_tac].
Qed.

Lemma touches_on_fetch_repos F fuel :
  f_sent F = true → f_log F = true → f_repo F = true →
  touches F (_on_fetch_repos fuel).
Proof.
  intros. unfold _on_fetch_repos.
  apply touches_try_except; [by apply touches_fetch_repos_body|intros e; touches_tac].
Qed.

Lemma touches_script_update F settings :
  K_DEST_TYPE ∈ f_keys F → K_LOCAL_DIR ∈ f_keys F → K_INCLUDE_LOGS ∈ f_keys F →
  K_INCLUDE_CACHE ∈ f_keys F → K_GH_TOKEN ∈ f_keys F → K_GH_REPO_SELECT ∈ f_keys F →
  K_GH_BRANCH ∈ f_keys F → K_GH_FOLDER ∈ f_keys F → K_RESTORE_LOCAL_PATH ∈ f_keys F →
  touches F (script_update settings).
Proof. intros. unfold script_update. touches_tac. Qed.

Lemma within_after_call c w : within any_call w (after_call c w).
Proof.
  destruct c; simpl.
  - by apply touches_info.
  - apply touches_script_update; unfold any_call; simpl; set_solver.
  - apply touches_guarded; [done|].
    apply touches_backup_body; try done; unfold any_call; simpl; set_solver.
  - apply touches_guarded; [done|]. by apply touches_refresh_body.
  - apply touches_guarded; [done|]. by apply touches_restore_local_body.
  - by apply touches_do_restore_remote.
  - by apply touches_on_fetch_repos.
  - by apply touches_info.
Qed.

Lemma within_after_calls cs : ∀ w, within any_call w (after_calls cs w).
Proof.
  induction cs as [|c cs IH]; intros w; simpl.
  - apply within_refl.
  - eapply within_trans; [apply within_after_call|apply IH].
Qed.

(** X2: the selection of a remote backup never reaches the settings cache.
    [script_update] stores nine keys and [do_backup_now] two, none of them
    [K_REMOTE_SELECT]; so after any sequence of calls of the host, starting
    from a cache without the key, [do_restore_remote] is refused with
    [Token, repo, and selection required.] and changes nothing but the
    log. *)
Theorem remote_restore_never_selected (cs : list call) (w : world) (fuel : nat) :
  w_shadow w !! K_REMOTE_SELECT = None →
  do_restore_remote bar_steps fuel (after_calls cs w)
  = (Ok (Some false),
     add_log LOG_ERROR
       "Remote restore failed: Token, repo, and selection required."
       (after_calls cs w)).
Proof.
  intros Hw. pose proof (within_after_calls cs w) as Hin.
  set (w' := after_calls cs w) in *.
  assert (w_shadow w' !! K_REMOTE_SELECT = None) as Hsel.
  { destruct Hin as (_&_&_&_&_&_&_&_&_&_&_&_&_&_&_&Hk).
    rewrite Hk; [done|]. unfold any_call. simpl. set_solver. }
  unfold do_restore_remote, try_except, restore_remote_body, bind, ask.
  assert (g_get_str K_REMOTE_SELECT "" w' = "") as ->.
  { unfold g_get_str. by rewrite Hsel. }
  rewrite !orb_true_r. done.
Qed.

Lemma bind_ask {A B} (f : world → A) (k : A → M B) w :
  bind (ask f) k w = k (f w) w.
Proof. reflexivity. Qed.

Lemma bind_g_set {B} key v (k : unit → M B) w :
  bind (g_set key v) k w = k tt (set_shadow (<[key := v]> (w_shadow w)) w).
Proof. reflexivity. Qed.

Lemma within_shadow F w w' :
  f_keys F = ∅ → within F w w' → w_shadow w' = w_shadow w.
Proof.
  intros HF (_&_&_&_&_&_&_&_&_&_&_&_&_&_&_&Hk).
  apply map_eq. intros k. apply Hk. rewrite HF. set_solver.
Qed.

(** X3: whatever a local restore does and however it ends, it sends no
    request and changes neither the settings cache nor the lists of remote
    backups and repositories. *)
Theorem local_restore_footprint (w : world) :
  let w' := (do_restore_local bar_steps w).2 in
  w_sent w' = w_sent w ∧ w_shadow w' = w_shadow w
  ∧ w_remote_files w' = w_remote_files w ∧ w_remote_list w' = w_remote_list w
  ∧ w_repo_list w' = w_repo_list w.
Proof.
  set (F := mk_frame true true false false false ∅).
  assert (within F w (do_restore_local bar_steps w).2) as Hin.
  { apply touches_guarded; [done|]. by apply touches_restore_local_body. }
  pose proof (within_shadow F _ _ eq_refl Hin) as Hsh.
  destruct Hin as (_&_&_&_&_&_&_&_&_&_&_&_&Hs&Hr&Hp&_).
  destruct (Hr eq_refl). split_and!; auto.
Qed.

(** X4: whatever a backup does and however it ends, the settings cache
    afterwards is the cache before with the two include flags stored as
    booleans; a local backup sends no request, a backup to GitHub writes
    nothing to the disk, and neither touches the lists of remote backups
    and repositories. *)
Theorem backup_now_footprint (w : world) :
  let w' := (do_backup_now bar_steps w).2 in
  w_shadow w'
  = <[K_INCLUDE_CACHE := SBool (g_get_bool K_INCLUDE_CACHE false w)]>
      (<[K_INCLUDE_LOGS := SBool (g_get_bool K_INCLUDE_LOGS false w)]> (w_shadow w))
  ∧ (g_get_str K_DEST_TYPE "local" w = "local" → w_sent w' = w_sent w)
  ∧ (g_get_str K_DEST_TYPE "local" w ≠ "local" → w_fs w' = w_fs w)
  ∧ w_remote_files w' = w_remote_files w ∧ w_remote_list w' = w_remote_list w
  ∧ w_repo_list w' = w_repo_list w.
Proof.
  intros w'. subst w'. unfold do_backup_now. rewrite guarded_run.
  unfold backup_body. rewrite !bind_ask, !bind_g_set. cbv beta.
  set (il := g_get_bool K_INCLUDE_LOGS false w).
  set (ic := g_get_bool K_INCLUDE_CACHE false w).
  set (w2 := set_shadow _ (set_shadow _ w)).
  set (dt := g_get_str K_DEST_TYPE "local" w).
  assert (∀ F (c : M unit), f_log F = true → f_keys F = ∅ → f_remote F = false →
            f_repo F = false → touches F c →
            let w' := (match c w2 with
                       | (Ok _, w') => (Ok true, w')
                       | (Raise e, w') =>
                           (Ok false,
                            add_log LOG_ERROR ("Backup failed: " +:+ exn_str e) w')
                       end).2 in
            w_shadow w' = w_shadow w2
            ∧ (f_sent F = false → w_sent w' = w_sent w)
            ∧ (f_fs F = false → w_fs w' = w_fs w)
            ∧ w_remote_files w' = w_remote_files w
            ∧ w_remote_list w' = w_remote_list w
            ∧ w_repo_list w' = w_repo_list w) as Hin.
  { intros F c HL HK HR HP Hc.
    assert (within F w2 (match c w2 with
                         | (Ok _, w') => (Ok true, w')
                         | (Raise e, w') =>
                             (Ok false,
                              add_log LOG_ERROR ("Backup failed: " +:+ exn_str e) w')
                         end).2) as Hw.
    { specialize (Hc w2). destruct (c w2) as [[[]|e] w3]; simpl in *; [done|].
      eapply within_trans; [done|]. by apply (touches_log F LOG_ERROR). }
    intros w'. subst w'.
    pose proof (within_shadow F _ _ HK Hw) as Hsh.
    destruct Hw as (_&_&_&_&_&_&_&_&_&_&A1&_&A3&A4&A5&_).
    destruct (A4 HR) as [-> ->]. rewrite (A5 HP). split_and!; auto. }
  destruct (String.eqb_spec dt "local") as [Hdt|Hdt].
  - destruct (Hin (mk_frame true true false false false ∅)
      (let* target_dir := ask (λ w, parts_of
          (g_get_str K_LOCAL_DIR (path_str (path_join (w_home w) "obs-backups")) w)) in
       let* _ := info ("Creating local backup in " +:+ path_str target_dir) in
       let* backup_root :=
         st_create_local_backup_folder bar_steps target_dir il ic in
       info ("Backup created: " +:+ path_str backup_root)))
      as (H1 & H2 & _ & H4 & H5 & H6); try done.
    { simpl. touches_tac. }
    split_and!; try done. by intros _; apply H2.
  - match goal with |- context [w_shadow (match ?c w2 with _ => _ end).2] =>
      destruct (Hin (mk_frame false true true false false ∅) c)
        as (H1 & _ & H3 & H4 & H5 & H6); try done
    end.
    { simpl. touches_tac. }
    split_and!; try done. by intros _; apply H3.
Qed.

(** X5: listing the remote backups and fetching the repositories change
    neither the disk nor the settings cache, and each leaves the list of
    the other alone. *)
Theorem remote_listing_footprint (w : world) (fuel : nat) :
  let w1 := (do_refresh_remote bar_steps w).2 in
  let w2 := (_on_fetch_repos fuel w).2 in
  (w_fs w1 = w_fs w ∧ w_shadow w1 = w_shadow w ∧ w_repo_list w1 = w_repo_list w)
  ∧ (w_fs w2 = w_fs w ∧ w_shadow w2 = w_shadow w
     ∧ w_remote_files w2 = w_remote_files w ∧ w_remote_list w2 = w_remote_list w).
Proof.
  split.
  - set (F := mk_frame false true true true false ∅).
    assert (within F w (do_refresh_remote bar_steps w).2) as Hin.
    { apply touches_guarded; [done|]. by apply touches_refresh_body. }
    pose proof (within_shadow F _ _ eq_refl Hin) as Hsh.
    destruct Hin as (_&_&_&_&_&_&_&_&_&_&A1&_&_&_&A5&_).
    split_and!; auto.
  - set (F := mk_frame false true true false true ∅).
    assert (within F w (_on_fetch_repos fuel w).2) as Hin
      by (by apply touches_on_fetch_repos).
    pose proof (within_shadow F _ _ eq_refl Hin) as Hsh.
    destruct Hin as (_&_&_&_&_&_&_&_&_&_&A1&_&_&A4&_&_).
    destruct (A4 eq_refl). split_and!; auto.
Qed.

(** X6: a remote restore collects every file before it writes one: it
    never changes the settings cache, and unless the download of the whole
    tree ends well with at least one file, the disk is as before. *)
Theorem remote_restore_downloads_first (w : world) (fuel : nat) :
  let client := new_client (g_get_str K_GH_TOKEN "" w) in
  let repo := g_get_str K_GH_REPO_SELECT "" w in
  let branch := g_get_str K_GH_BRANCH "main" w in
  let base_ := rstrip_slash (g_get_str K_REMOTE_SELECT "" w) +:+ "/obs-studio" in
  let w' := (do_restore_remote bar_steps fuel w).2 in
  w_shadow w' = w_shadow w
  ∧ ((∀ pair pairs,
        (collect_pairs fuel bar_steps client repo branch base_ [PStr base_] [] w).1
        ≠ Ok (Some (pair :: pairs))) →
     w_fs w' = w_fs w).
Proof.
  intros client repo branch base_ w'. split.
  - set (F := mk_frame true true true false false ∅).
    assert (within F w w') as Hin by (by apply touches_do_restore_remote).
    by apply (within_shadow F).
  - intros Hnone. subst w'.
    set (F := mk_frame false true true false false ∅).
    assert (within F w (do_restore_remote bar_steps fuel w).2) as Hin.
    { unfold do_restore_remote.
      assert (∀ (c : M (option unit)), within F w (c w).2 →
                within F w (try_except
                  (let* r := c in
                   ret (match r with Some _ => Some true | None => None end))
                  (λ e, let* _ := err ("Remote restore failed: " +:+ exn_str e) in
                        ret (Some false)) w).2) as Hwrap.
      { intros c Hc. unfold try_except, bind.
        destruct (c w) as [[r|e] w1]; simpl in *; [done|].
        eapply within_trans; [done|]. by apply (touches_log F LOG_ERROR). }
      apply Hwrap. unfold restore_remote_body. rewrite !bind_ask. cbv beta.
      fold client repo branch base_.
      destruct (_ || _); [apply within_refl|].
      unfold bind.
      pose proof (touches_collect_pairs F fuel client repo branch base_ eq_refl
                    [PStr base_] [] w) as Hc.
      destruct (collect_pairs fuel bar_steps client repo branch base_ [PStr base_] [] w)
        as [[[[|pair pairs]|]|e] wc] eqn:Ec; simpl in *; try done.
      by destruct (Hnone pair pairs). }
    destruct Hin as (_&_&_&_&_&_&_&_&_&_&A1&_). by apply A1.
Qed.

(** ** The pages of the repository list *)

Lemma sent_foldl (l : list request) :
  ∀ w, w_sent (foldl (λ w r, add_sent r w) w l) = w_sent w ++ l.
Proof.
  induction l as [|r l IH]; intros w; simpl.
  - by rewrite app_nil_r.
  - rewrite IH. simpl. by rewrite <- app_assoc.
Qed.

Lemma list_user_repos_from_pages c (page_of : nat → list pyval) n :
  ∀ fuel page repos w,
    (∀ j, (j ≤ n)%nat →
       w_http w (w_sent w ++ map (repos_request c) (seq page j))
         (repos_request c (page + j))
       = Response (Some (PList (page_of (page + j))))) →
    (∀ k, (page ≤ k < page + n)%nat → page_of k ≠ []) →
    page_of (page + n) = [] →
    (n < fuel)%nat →
    list_user_repos_from fuel c page repos w
    = (Ok (Some (repos ++ concat (map page_of (seq page n)))),
       foldl (λ w r, add_sent r w) w (map (repos_request c) (seq page (S n)))).
Proof.
  induction n as [|n IH]; intros fuel page repos w Hhttp Hfull Hlast Hfuel;
    (destruct fuel as [|fuel]; [lia|]).
  - rewrite Nat.add_0_r in Hlast. specialize (Hhttp 0 (le_n 0)).
    simpl in Hhttp. rewrite app_nil_r, Nat.add_0_r in Hhttp. simpl.
    unfold bind at 1, urlopen at 1.
    fold (repos_request c page). rewrite Hhttp, Hlast. simpl.
    unfold bind, ask_result, ret. simpl. by rewrite app_nil_r.
  - assert (page_of page ≠ []) as Hp by (apply Hfull; lia).
    pose proof (Hhttp 0 (Nat.le_0_l _)) as H0.
    simpl in H0. rewrite app_nil_r, Nat.add_0_r in H0.
    simpl list_user_repos_from.
    unfold bind at 1, urlopen at 1.
    fold (repos_request c page). rewrite H0.
    unfold bind at 1, ask_result at 1. simpl repos_page.
    destruct (page_of page) as [|x l] eqn:E; [done|]. simpl truthy. cbv iota.
    simpl mbind. cbv beta iota.
    rewrite IH.
    + rewrite Nat.add_1_r. simpl. by rewrite E, <- app_assoc.
    + intros j Hj. simpl w_http. simpl w_sent.
      specialize (Hhttp (S j) ltac:(lia)). simpl in Hhttp.
      rewrite <- app_assoc. simpl.
      rewrite Nat.add_1_r. simpl.
      by replace (S (page + j)) with (page + S j)%nat by lia.
    + intros k Hk. apply Hfull. lia.
    + rewrite <- Hlast. f_equal. lia.
    + lia.
Qed.

(** X7: [list_user_repos] asks for page 1, 2, ... until a page comes back
    empty, and returns the items of the pages before it, in order. *)
Theorem list_user_repos_concatenates (c : GitHubClient)
    (page_of : nat → list pyval) (n fuel : nat) (w : world) :
  (∀ j, (j ≤ n)%nat →
     w_http w (w_sent w ++ map (repos_request c) (seq 1 j)) (repos_request c (S j))
     = Response (Some (PList (page_of (S j))))) →
  (∀ k, (1 ≤ k ≤ n)%nat → page_of k ≠ []) →
  page_of (S n) = [] →
  (n < fuel)%nat →
  (list_user_repos fuel c w).1 = Ok (Some (concat (map page_of (seq 1 n))))
  ∧ w_sent (list_user_repos fuel c w).2
    = w_sent w ++ map (repos_request c) (seq 1 (S n)).
Proof.
  intros Hhttp Hfull Hlast Hfuel. unfold list_user_repos.
  rewrite (list_user_repos_from_pages c page_of n); try done.
  - split; [done|]. unfold snd. apply sent_foldl.
  - intros k Hk. apply Hfull. lia.
Qed.

(** ** Joining repository paths *)

Lemma lstrip_with_idem p (s : string) :
  lstrip_with p (lstrip_with p s) = lstrip_with p s.
Proof.
  induction s as [|a s IH]; simpl; [done|].
  destruct (p a) eqn:E; [done|]. simpl. by rewrite E.
Qed.

Lemma strip_commute p (s : string) :
  rstrip_with p (lstrip_with p s) = lstrip_with p (rstrip_with p s).
Proof.
  induction s as [|a s IH]; simpl; [done|].
  destruct (p a) eqn:E; simpl.
  - rewrite IH. destruct (String.eqb_spec (rstrip_with p s) "") as [->|Hne]; [done|].
    simpl. by rewrite E.
  - simpl. by rewrite E.
Qed.

Lemma trimmed_strip (s : string) : trimmed (strip_slash s).
Proof.
  unfold trimmed, strip_slash, lstrip_slash, rstrip_slash. split.
  - apply lstrip_with_idem.
  - by rewrite strip_commute, rstrip_with_idem.
Qed.

Lemma strip_trimmed (s : string) : trimmed s → strip_slash s = s.
Proof. intros [H1 H2]. unfold strip_slash. by rewrite H2, H1. Qed.

Lemma trimmed_slash_free (s : string) : str_mem "/" s = false → trimmed s.
Proof.
  unfold trimmed, lstrip_slash, rstrip_slash.
  induction s as [|a s IH]; simpl; [done|].
  intros [Ha Hs]%orb_false_iff. destruct (IH Hs) as [_ IH2].
  unfold is_slash at 1 3. rewrite Ha. simpl. by rewrite IH2.
Qed.

Lemma trimmed_join (a b : string) :
  trimmed a → a ≠ "" → trimmed b → b ≠ "" → trimmed (a +:+ "/" +:+ b).
Proof.
  intros [A1 A2] Ha [B1 B2] Hb. unfold trimmed, lstrip_slash, rstrip_slash in *. split.
  - rewrite lstrip_with_app, A1.
    by destruct (String.eqb_spec a "").
  - assert (rstrip_with is_slash ("/" +:+ b) = "/" +:+ b) as Hr.
    { rewrite rstrip_with_app; by rewrite B2. }
    rewrite rstrip_with_app; rewrite Hr; [done|].
    by destruct b.
Qed.

Lemma gh_segments_app ps qs : gh_segments (ps ++ qs) = gh_segments ps ++ gh_segments qs.
Proof. unfold gh_segments. by rewrite filter_app, map_app, filter_app. Qed.

Lemma gh_segments_trimmed ps :
  Forall (λ s, trimmed s ∧ s ≠ "") (gh_segments ps).
Proof.
  unfold gh_segments. apply Forall_forall. intros s [Hne Hin]%list_elem_of_filter.
  apply list_elem_of_fmap in Hin as (p & -> & _). split; [apply trimmed_strip|done].
Qed.

Lemma str_join_cons (sep x y : string) (l : list string) :
  str_join sep (x :: y :: l) = x +:+ sep +:+ str_join sep (y :: l).
Proof. reflexivity. Qed.

Lemma trimmed_str_join (segs : list string) :
  Forall (λ s, trimmed s ∧ s ≠ "") segs → segs ≠ [] →
  trimmed (str_join "/" segs) ∧ str_join "/" segs ≠ "".
Proof.
  induction 1 as [|x segs [Hx Hne] _ IH]; [done|]. intros _.
  destruct segs as [|y segs]; [done|].
  destruct IH as [IH1 IH2]; [done|]. rewrite str_join_cons. split.
  - by apply trimmed_join.
  - intros [H _]%str_app_eq_nil. done.
Qed.

Lemma str_join_app (a b : list string) :
  a ≠ [] → str_join "/" (str_join "/" a :: b) = str_join "/" (a ++ b).
Proof.
  intros Ha. induction a as [|x a IH]; [done|].
  destruct a as [|y a].
  - done.
  - change (str_join "/" ((x :: y :: a) ++ b))
      with (x +:+ "/" +:+ str_join "/" ((y :: a) ++ b)).
    rewrite <- IH by done. set (J := str_join "/" (y :: a)).
    change (str_join "/" (x :: y :: a)) with (x +:+ "/" +:+ J).
    destruct b as [|z b]; [done|].
    change (str_join "/" (?s :: z :: b)) with (s +:+ "/" +:+ str_join "/" (z :: b)).
    by rewrite !str_app_assoc.
Qed.

Lemma gh_join_segments ps : _gh_join ps = str_join "/" (gh_segments ps).
Proof. reflexivity. Qed.

Lemma gh_segments_single (s : string) :
  trimmed s → s ≠ "" → gh_segments [s] = [s].
Proof.
  intros Hs Hne. unfold gh_segments.
  rewrite filter_cons_True by done. simpl. rewrite strip_trimmed by done.
  by rewrite filter_cons_True.
Qed.

Lemma trimmed_gh_join ps : trimmed (_gh_join ps).
Proof.
  rewrite gh_join_segments. destruct (gh_segments ps) as [|x l] eqn:E; [done|].
  apply trimmed_str_join; [|done]. rewrite <- E. apply gh_segments_trimmed.
Qed.

Lemma gh_join_nested ps qs : _gh_join (_gh_join ps :: qs) = _gh_join (ps ++ qs).
Proof.
  rewrite !gh_join_segments, gh_segments_app.
  change (_ :: qs) with ([str_join "/" (gh_segments ps)] ++ qs).
  rewrite gh_segments_app.
  pose proof (gh_segments_trimmed ps) as Hsegs.
  destruct (gh_segments ps) as [|x l] eqn:E; [done|]. rewrite <- E in *.
  assert (gh_segments ps ≠ []) as Hne by (by rewrite E).
  destruct (trimmed_str_join _ Hsegs Hne) as [H1 H2].
  rewrite gh_segments_single by done. simpl app.
  by apply str_join_app.
Qed.

Lemma trimmed_not_startswith (s : string) : trimmed s → startswith "/" s = false.
Proof.
  intros [H _]. unfold lstrip_slash in H.
  destruct s as [|a s]; [done|]. simpl in H.
  unfold startswith. rewrite str_prefix_cons.
  destruct (Ascii.eqb_spec "/" a) as [<-|Hne]; [|done].
  simpl in H. exfalso. clear -H.
  assert (∀ t, String.length (lstrip_with is_slash t) ≤ String.length t)%nat as Hl.
  { induction t as [|b t IH]; simpl; [lia|]. destruct (is_slash b); simpl; lia. }
  specialize (Hl s). rewrite H in Hl. simpl in Hl. lia.
Qed.

(** X8: the repository path [_gh_join] builds has no slash at either end,
    empty parts leave no trace, and a path built in two steps is the path
    built in one. *)
Theorem gh_join_flattens (ps qs : list string) :
  strip_slash (_gh_join ps) = _gh_join ps
  ∧ startswith "/" (_gh_join ps) = false
  ∧ _gh_join (filter (λ p, p ≠ "") ps) = _gh_join ps
  ∧ _gh_join (_gh_join ps :: qs) = _gh_join (ps ++ qs).
Proof.
  split_and!.
  - apply strip_trimmed, trimmed_gh_join.
  - apply trimmed_not_startswith, trimmed_gh_join.
  - unfold _gh_join. f_equal. f_equal. f_equal.
    by rewrite list_filter_filter_l.
  - apply gh_join_nested.
Qed.

Lemma trimmed_as_posix (tail : path) :
  tail ≠ [] → Forall (λ s, valid_name s = true) tail →
  trimmed (as_posix tail) ∧ as_posix tail ≠ "".
Proof.
  intros Hne Hval. apply trimmed_str_join; [|done].
  eapply Forall_impl; [exact Hval|]. intros s Hs. split.
  - by apply trimmed_slash_free, valid_name_slash_free.
  - intros ->. done.
Qed.

(** X9: the path a file is uploaded to leads back to the file's relative
    path when the backup is restored from the directory [folder/name]. *)
Theorem upload_path_round_trip (folder backup_name : string) (tail : path) :
  tail ≠ [] → Forall (λ s, valid_name s = true) tail →
  let rel := as_posix tail in
  let repo_path := _gh_join [_gh_join [folder; backup_name; "obs-studio"]; rel] in
  let sel_path := _gh_join [folder; backup_name] in
  repo_path = _gh_join [sel_path; "obs-studio"] +:+ "/" +:+ rel
  ∧ remote_rel (rstrip_slash sel_path +:+ "/obs-studio") repo_path = rel.
Proof.
  intros Hne Hval rel repo_path sel_path.
  destruct (trimmed_as_posix tail Hne Hval) as [Hrel Hrel0].
  assert (repo_path = _gh_join [sel_path; "obs-studio"] +:+ "/" +:+ rel) as ->.
  { unfold repo_path, sel_path.
    rewrite (gh_join_nested [folder; backup_name] ["obs-studio"]). simpl app.
    set (B := _gh_join [folder; backup_name; "obs-studio"]).
    assert (trimmed B) as HB by apply trimmed_gh_join.
    assert (B ≠ "") as HB0.
    { unfold B. change [folder; backup_name; "obs-studio"]
        with ([folder; backup_name] ++ ["obs-studio"]).
      rewrite gh_join_segments, gh_segments_app.
      change (gh_segments ["obs-studio"]) with ["obs-studio"].
      pose proof (gh_segments_trimmed [folder; backup_name]) as Hs.
      destruct (gh_segments [folder; backup_name]) as [|x l]; [done|].
      assert (Forall (λ s, trimmed s ∧ s ≠ "") ((x :: l) ++ ["obs-studio"])) as Hall.
      { apply Forall_app. split; [done|]. constructor; [|done].
        split; [by apply trimmed_slash_free|done]. }
      by destruct (trimmed_str_join _ Hall). }
    rewrite gh_join_segments.
    change [B; rel] with ([B] ++ [rel]).
    rewrite gh_segments_app, !gh_segments_single by done. done. }
  split; [done|]. apply remote_rel_under_root.
Qed.

(** ** The walker, item by item *)

Lemma NoDup_map_fold_app {A B} (g : string → A → list B)
    (f : string → A → list B → list B) (m : gmap string A) :
  (∀ k a acc, f k a acc = g k a ++ acc) →
  (∀ k a, m !! k = Some a → NoDup (g k a)) →
  (∀ k a k' a' x, m !! k = Some a → m !! k' = Some a' → k ≠ k' →
                  x ∈ g k a → x ∉ g k' a') →
  NoDup (map_fold f [] m).
Proof.
  intros Hf Hnd Hdis. rewrite map_fold_foldr.
  pose proof (NoDup_fst_map_to_list m) as Hkeys.
  assert (∀ k a, (k, a) ∈ map_to_list m → m !! k = Some a) as Hin
    by (intros k a; apply elem_of_map_to_list).
  revert Hkeys Hin. generalize (map_to_list m). intros l.
  induction l as [|[k a] l IH]; intros Hkeys Hin; simpl; [constructor|].
  apply NoDup_cons in Hkeys as [Hk Hkeys]. rewrite Hf. apply NoDup_app. split_and!.
  - apply Hnd, Hin. by left.
  - intros x Hx Hx'.
    assert (∀ l' : list (string * A),
              x ∈ foldr (uncurry f) [] l' → ∃ k' a', (k', a') ∈ l' ∧ x ∈ g k' a') as Hl.
    { induction l' as [|[k' a'] l' IH']; simpl; [by intros ?%elem_of_nil|].
      rewrite Hf. intros [Hy|Hy]%elem_of_app.
      - exists k', a'. split; [by left|done].
      - destruct (IH' Hy) as (k2 & a2 & ? & ?). exists k2, a2. split; [by right|done]. }
    destruct (Hl _ Hx') as (k' & a' & Hin' & Hx2).
    apply (Hdis k a k' a' x); try done.
    + apply Hin. by left.
    + apply Hin. by right.
    + intros ->. apply Hk. apply list_elem_of_fmap. by exists (k', a').
  - apply IH; [done|]. intros k' a' Hin'. apply Hin. by right.
Qed.

Lemma NoDup_walk ex cfg (n : node) :
  ∀ root_rel, NoDup (walk ex cfg root_rel n).
Proof.
  induction n as [data|es IH] using node_children_ind; intros root_rel; simpl.
  { constructor. }
  apply NoDup_app. split_and!.
  - apply (NoDup_map_fold_app
      (λ f c, match c with
              | File _ => if skipped_file f then []
                          else [(as_posix (root_rel ++ [f]), cfg ++ root_rel ++ [f])]
              | Dir _ => []
              end)).
    + intros k [d|sub] acc; [by destruct (skipped_file k)|done].
    + intros k [d|sub] _; [|constructor].
      destruct (skipped_file k); [constructor|apply NoDup_singleton].
    + intros k a k' a' x _ _ Hkk Hx Hx'.
      destruct a as [d|sub]; [|by apply elem_of_nil in Hx].
      destruct a' as [d'|sub']; [|by apply elem_of_nil in Hx'].
      destruct (skipped_file k); [by apply elem_of_nil in Hx|].
      destruct (skipped_file k'); [by apply elem_of_nil in Hx'|].
      apply list_elem_of_singleton in Hx as ->.
      apply list_elem_of_singleton in Hx' as [= _ Heq].
      apply app_inv_head, app_inv_head in Heq. by simplify_eq.
  - intros [rel p] Hx Hx'.
    apply (elem_of_map_fold_app
      (λ f c, match c with
              | File _ => if skipped_file f then []
                          else [(as_posix (root_rel ++ [f]), cfg ++ root_rel ++ [f])]
              | Dir _ => []
              end)) in Hx.
    2:{ intros k [d|sub] acc; [by destruct (skipped_file k)|done]. }
    apply (elem_of_map_fold_app
      (λ d c, match c with
              | Dir _ => if pruned ex root_rel d then []
                         else walk ex cfg (root_rel ++ [d]) c
              | File _ => []
              end)) in Hx'.
    2:{ intros k [d|sub] acc; [done|by destruct (pruned ex root_rel k)]. }
    destruct Hx as (f & c & _ & Hx), Hx' as (d & c' & _ & Hx').
    destruct c as [data|sub]; [|by apply elem_of_nil in Hx].
    destruct (skipped_file f); [by apply elem_of_nil in Hx|].
    apply list_elem_of_singleton in Hx as [= -> ->].
    destruct c' as [data'|sub']; [by apply elem_of_nil in Hx'|].
    destruct (pruned ex root_rel d); [by apply elem_of_nil in Hx'|].
    apply elem_of_walk in Hx' as (tail & _ & _ & Hne & _ & Heq & _).
    rewrite <- app_assoc in Heq. apply app_inv_head, app_inv_head in Heq.
    simpl in Heq. injection Heq as _ <-. done.
  - apply (NoDup_map_fold_app
      (λ d c, match c with
              | Dir _ => if pruned ex root_rel d then []
                         else walk ex cfg (root_rel ++ [d]) c
              | File _ => []
              end)).
    + intros k [d|sub] acc; [done|by destruct (pruned ex root_rel k)].
    + intros k [d|sub] Hk; [constructor|].
      destruct (pruned ex root_rel k); [constructor|]. by eapply IH.
    + intros k a k' a' [rel p] _ _ Hkk Hx Hx'.
      destruct a as [d|sub]; [by apply elem_of_nil in Hx|].
      destruct a' as [d'|sub']; [by apply elem_of_nil in Hx'|].
      destruct (pruned ex root_rel k); [by apply elem_of_nil in Hx|].
      destruct (pruned ex root_rel k'); [by apply elem_of_nil in Hx'|].
      apply elem_of_walk in Hx as (tail & _ & _ & _ & _ & -> & _).
      apply elem_of_walk in Hx' as (tail' & _ & _ & _ & _ & Heq & _).
      rewrite <- !app_assoc in Heq. apply app_inv_head, app_inv_head in Heq.
      simpl in Heq. by injection Heq as -> _.
Qed.

Lemma pruned_false_iff ex root_rel d :
  pruned ex root_rel d = false ↔
  startswith "." d = false
  ∧ ∀ e, e ∈ ex →
      d ≠ e ∧ as_posix (root_rel ++ [d]) ≠ e
      ∧ startswith (rstrip_slash e +:+ "/") (as_posix (root_rel ++ [d])) = false.
Proof.
  unfold pruned. rewrite orb_false_iff.
  assert (existsb (λ e, excluded_by e (as_posix (root_rel ++ [d])) d) (elements ex) = false
          ↔ ∀ e, e ∈ ex → excluded_by e (as_posix (root_rel ++ [d])) d = false) as ->.
  { split.
    - intros H e He. destruct (excluded_by _ _ _) eqn:E; [|done].
      rewrite <- H. symmetry. apply existsb_exists. exists e. split; [|done].
      by apply list_elem_of_In, elem_of_elements.
    - intros H. destruct (existsb _ _) eqn:E; [|done].
      apply existsb_exists in E as (e & He%list_elem_of_In%elem_of_elements & E).
      by rewrite H in E. }
  unfold excluded_by. split; intros [H1 H2]; (split; [done|]); intros e He;
    specialize (H2 e He).
  - apply orb_false_iff in H2 as [[H2 H3]%orb_false_iff H4].
    apply String.eqb_neq in H2, H4. done.
  - destruct H2 as (H2 & H3 & H4).
    apply String.eqb_neq in H2, H3. by rewrite H2, H3, H4.
Qed.

(** X10: the items of [iter_obs_files], exactly.  When the configuration
    directory is on the disk the walker returns; no path is yielded twice;
    every item is a relative path with the absolute path it stands for; and
    a path below the configuration directory is yielded if and only if it
    is a regular file whose name ends in neither [.tmp] nor [.lock], and no
    directory on the way to it is hidden, is named like an exclusion entry,
    or has a relative path that is an exclusion entry or lies below
    one. *)
Theorem walker_yields_exactly (il ic : bool) (w : world) (cfg : path) (n : node) :
  get_obs_config_dir w = Ok cfg → lookup_path (w_fs w) cfg = Some n →
  ∃ items,
    iter_obs_files il ic w = Ok items
    ∧ NoDup items.*2
    ∧ (∀ rel p, (rel, p) ∈ items → ∃ tail, rel = as_posix tail ∧ p = cfg ++ tail)
    ∧ (∀ tail, (as_posix tail, cfg ++ tail) ∈ items ↔
         tail ≠ [] ∧ (∃ data, resolve n tail = Some (File data))
         ∧ endswith ".tmp" (name tail) = false
         ∧ endswith ".lock" (name tail) = false
         ∧ ∀ ds d rest, tail = ds ++ d :: rest → rest ≠ [] →
             startswith "." d = false
             ∧ ∀ ex, ex ∈ _excluded_dirs il ic →
                 d ≠ ex ∧ as_posix (ds ++ [d]) ≠ ex
                 ∧ startswith (ex +:+ "/") (as_posix (ds ++ [d])) = false).
Proof.
  intros Hcfg Hn.
  assert (iter_obs_files il ic w = Ok (walk (_excluded_dirs il ic) cfg [] n)) as Hit.
  { unfold iter_obs_files. rewrite Hcfg. simpl. by rewrite Hn. }
  eexists. split; [exact Hit|]. split_and!.
  - apply NoDup_fmap_2_strong; [|apply NoDup_walk].
    intros [rel p] [rel' p'] Hx Hy Heq. simpl in Heq. subst p'.
    apply elem_of_walk in Hx as (tail & _ & _ & _ & -> & -> & _).
    apply elem_of_walk in Hy as (tail' & _ & _ & _ & -> & Heq & _).
    apply app_inv_head in Heq. simpl in Heq. by subst.
  - intros rel p Hin.
    apply elem_of_walk in Hin as (tail & _ & _ & _ & -> & -> & _). by exists tail.
  - intros tail. rewrite elem_of_walk. split.
    + intros (tail' & data & Hr & Hne & _ & Heq & Hs & He).
      apply app_inv_head in Heq. simpl in Heq. subst tail'.
      apply orb_false_iff in Hs as [Hs1 Hs2]. split_and!; eauto.
      intros ds d rest Htail Hrest.
      specialize (He ds d rest Htail Hrest). simpl in He.
      apply pruned_false_iff in He as [H1 H2]. split; [done|].
      intros ex Hex. destruct (H2 ex Hex) as (H3 & H4 & H5).
      by rewrite (excluded_dirs_rstrip _ _ _ Hex) in H5.
    + intros (Hne & (data & Hr) & Hs1 & Hs2 & He).
      exists tail, data. split_and!; try done.
      * unfold skipped_file. by rewrite Hs1, Hs2.
      * intros ds d rest Htail Hrest. simpl.
        destruct (He ds d rest Htail Hrest) as [H1 H2].
        apply pruned_false_iff. split; [done|]. intros ex Hex.
        destruct (H2 ex Hex) as (H3 & H4 & H5).
        by rewrite (excluded_dirs_rstrip _ _ _ Hex).
Qed.

(** ** A local backup that cannot start *)



(** ** Settings that are missing *)

(** X12: without the settings they need the operations stop before their
    first step: a local restore without a path, or with a path that is not
    on the disk; the listing, the remote restore and the GitHub backup
    without token or repository.  Each logs its refusal and returns
    [False]; nothing else changes, except that the backup has stored the
    two include flags. *)
Theorem operations_refuse_without_settings (S : steps) (w : world) :
  (g_get_str K_RESTORE_LOCAL_PATH "" w = "" →
     do_restore_local S w
     = (Ok false,
        add_log LOG_ERROR "Local restore failed: Select a backup folder or a .zip." w))
  ∧ (g_get_str K_RESTORE_LOCAL_PATH "" w ≠ "" →
     path_exists (w_fs w) (parts_of (g_get_str K_RESTORE_LOCAL_PATH "" w)) = false →
     do_restore_local S w
     = (Ok false, add_log LOG_ERROR "Local restore failed: Path not found." w))
  ∧ (g_get_str K_GH_TOKEN "" w = "" ∨ g_get_str K_GH_REPO_SELECT "" w = "" →
     do_refresh_remote S w
     = (Ok false,
        add_log LOG_ERROR "Refresh failed: GitHub token and repo required." w)
     ∧ (∀ fuel, do_restore_remote S fuel w
        = (Ok (Some false),
           add_log LOG_ERROR
             "Remote restore failed: Token, repo, and selection required." w))
     ∧ (g_get_str K_DEST_TYPE "local" w ≠ "local" →
        do_backup_now S w
        = (Ok false,
           add_log LOG_ERROR "Backup failed: GitHub token and repo required."
             (set_shadow
                (<[K_INCLUDE_CACHE := SBool (g_get_bool K_INCLUDE_CACHE false w)]>
                   (<[K_INCLUDE_LOGS := SBool (g_get_bool K_INCLUDE_LOGS false w)]>
                      (w_shadow w))) w)))).
Proof.
  split_and!.
  - intros H. unfold do_restore_local. rewrite guarded_run.
    unfold restore_local_body. rewrite bind_ask, H. done.
  - intros H Hno. unfold do_restore_local. rewrite guarded_run.
    unfold restore_local_body. rewrite bind_ask. apply String.eqb_neq in H.
    rewrite H. rewrite bind_ask. by rewrite Hno.
  - intros H.
    assert (String.eqb (g_get_str K_GH_TOKEN "" w) ""
            || String.eqb (g_get_str K_GH_REPO_SELECT "" w) "" = true) as Hor.
    { apply orb_true_iff. destruct H as [->| ->]; [by left|by right]. }
    split_and!.
    + unfold do_refresh_remote. rewrite guarded_run.
      unfold refresh_body. rewrite !bind_ask. cbv beta. by rewrite Hor.
    + intros fuel. unfold do_restore_remote, try_except, restore_remote_body, bind, ask.
      by rewrite Hor.
    + intros Hdt. unfold do_backup_now. rewrite guarded_run.
      unfold backup_body. rewrite !bind_ask, !bind_g_set. cbv beta.
      apply String.eqb_neq in Hdt. rewrite Hdt. cbv beta iota.
      rewrite !bind_ask. cbv beta.
      assert (∀ k d w1 v1 v2, k ≠ K_INCLUDE_LOGS → k ≠ K_INCLUDE_CACHE →
                g_get_str k d
                  (set_shadow (<[K_INCLUDE_CACHE := v2]>
                     (w_shadow (set_shadow (<[K_INCLUDE_LOGS := v1]> (w_shadow w1)) w1)))
                     (set_shadow (<[K_INCLUDE_LOGS := v1]> (w_shadow w1)) w1))
                = g_get_str k d w1) as Hget.
      { intros k d w1 v1 v2 H1 H2. unfold g_get_str. simpl.
        by rewrite !lookup_insert_ne. }
      rewrite !Hget by done. by rewrite Hor.
Qed.

(** ** The list of remote backups, sorted *)

Lemma ltb_asym (a b : string) : String.ltb a b = true → String.ltb b a = false.
Proof.
  unfold String.ltb. rewrite (String.compare_antisym a b).
  by destruct (String.compare b a).
Qed.

Lemma descending_cons (a : string) (l : list string) :
  descending (a :: l) ↔
  match l with [] => True | b :: _ => String.ltb a b = false end ∧ descending l.
Proof. destruct l; simpl; tauto. Qed.

Lemma insert_desc_strings {A} (key : A → pyval) (x : A) (s : string) :
  key x = PStr s →
  ∀ l, Forall (λ y, ∃ t, key y = PStr t) l →
    ∃ l', insert_desc key x l = Ok l' ∧ l' ≡ₚ x :: l
          ∧ (descending (map (λ y, key_string (key y)) l) →
             descending (map (λ y, key_string (key y)) l'))
          ∧ ∀ y0, (match l with [] => True
                   | y :: _ => String.ltb y0 (key_string (key y)) = false end) →
                  String.ltb y0 s = false →
                  match l' with [] => True
                  | y :: _ => String.ltb y0 (key_string (key y)) = false end.
Proof.
  intros Hx. set (f := λ y, key_string (key y)).
  assert (f x = s) as Hfx by (unfold f; by rewrite Hx).
  induction 1 as [|y l [t Hy] Hall IH].
  - exists [x]. split_and!; try done. intros y0 _ H. simpl. by rewrite Hx.
  - assert (f y = t) as Hfy by (unfold f; by rewrite Hy).
    simpl insert_desc. rewrite Hy, Hx. simpl py_lt.
    destruct (String.ltb t s) eqn:E.
    + exists (x :: y :: l). split_and!; try done.
      * simpl map. intros Hd. apply descending_cons. split; [|exact Hd].
        rewrite Hfx, Hfy. by apply ltb_asym.
      * intros y0 _ H. simpl. by rewrite Hx.
    + destruct IH as (l' & -> & Hperm & Hsort & Hhead). simpl mbind.
      exists (y :: l'). split_and!; try done.
      * rewrite Hperm. apply perm_swap.
      * simpl map. intros Hd.
        apply descending_cons in Hd as [Hh Hd]. apply descending_cons.
        split; [|by apply Hsort].
        specialize (Hhead (f y)).
        destruct l' as [|z l']; [done|]. simpl. apply Hhead.
        -- destruct l; simpl in *; done.
        -- by rewrite Hfy.
      * intros y0 H _. simpl. by rewrite Hy.
Qed.

Lemma sort_desc_strings {A} (key : A → pyval) (l : list A) :
  Forall (λ y, ∃ t, key y = PStr t) l →
  ∃ l', sort_desc key l = Ok l' ∧ l' ≡ₚ l
        ∧ descending (map (λ y, key_string (key y)) l').
Proof.
  unfold sort_desc. intros Hall.
  assert (∀ acc, Forall (λ y, ∃ t, key y = PStr t) acc →
            descending (map (λ y, key_string (key y)) acc) →
            ∃ l', foldl (λ acc x, acc ≫= insert_desc key x) (Ok acc) l = Ok l'
                  ∧ l' ≡ₚ acc ++ l
                  ∧ descending (map (λ y, key_string (key y)) l')) as H.
  { induction Hall as [|x l [s Hx] Hall IH]; intros acc Hacc Hd; simpl.
    - exists acc. by rewrite app_nil_r.
    - destruct (insert_desc_strings key x s Hx acc Hacc)
        as (acc' & -> & Hperm & Hsort & _).
      destruct (IH acc') as (l' & -> & Hperm' & Hd').
      + rewrite Hperm. constructor; eauto.
      + by apply Hsort.
      + exists l'. split_and!; try done.
        rewrite Hperm', Hperm. simpl. apply Permutation_middle. }
  destruct (H []) as (l' & ? & ? & ?); try done.
  by exists l'.
Qed.

Lemma dirs_only_dicts (items : list (gmap string pyval)) :
  dirs_only (map PDict items) = Ok (filter (λ d, is_dir_item d = true) items).
Proof.
  induction items as [|d items IH]; simpl; [done|].
  rewrite IH. simpl. rewrite filter_cons. fold (is_dir_item d).
  destruct (is_dir_item d) eqn:E.
  - by rewrite decide_True.
  - by rewrite decide_False.
Qed.

(** X13: with token and repository set and a listing of dictionaries whose
    names are strings, [do_refresh_remote] keeps the directories of the
    listing, every one of them once, and stores them from the greatest name
    to the least. *)
Theorem refresh_sorts_newest_first (w : world) (items : list (gmap string pyval)) :
  let client := new_client (g_get_str K_GH_TOKEN "" w) in
  let repo := g_get_str K_GH_REPO_SELECT "" w in
  let branch := g_get_str K_GH_BRANCH "main" w in
  let folder := g_get_str K_GH_FOLDER "obs-backups" w in
  g_get_str K_GH_TOKEN "" w ≠ "" → repo ≠ "" →
  w_http w (w_sent w) (contents_request client repo branch folder 30)
  = Response (Some (PList (map PDict items))) →
  Forall (λ d, ∃ s, item_name d = PStr s) items →
  ∃ files w',
    do_refresh_remote bar_steps w = (Ok true, w')
    ∧ w_remote_files w' = map PDict files
    ∧ files ≡ₚ filter (λ d, is_dir_item d = true) items
    ∧ descending (map (λ d, key_string (item_name d)) files)
    ∧ w_log w' = w_log w
                 ++ [(LOG_INFO, "Remote backups (folders): " +:+ pretty (length files))].
Proof.
  intros client repo branch folder Htok Hrepo Hhttp Hnames.
  destruct (sort_desc_strings item_name (filter (λ d, is_dir_item d = true) items))
    as (files & Hsort & Hperm & Hdesc).
  { apply Forall_forall. intros d [_ Hd]%list_elem_of_filter.
    by apply (proj1 (Forall_forall _ _) Hnames). }
  exists files. unfold do_refresh_remote. rewrite guarded_run.
  unfold refresh_body. rewrite !bind_ask. cbv beta.
  subst client repo branch folder.
  apply String.eqb_neq in Htok, Hrepo. rewrite Htok, Hrepo.
  change (false || false) with false. cbv beta iota.
  unfold bind at 1. change (st_list_dir bar_steps) with list_dir.
  rewrite (list_dir_list _ _ _ _ _ _ Hhttp).
  unfold bind at 1, ask_result at 1. rewrite dirs_only_dicts.
  unfold bind at 1, ask_result at 1.
  change (λ d : gmap string pyval, default (PStr "") (d !! "name")) with item_name.
  rewrite Hsort.
  unfold bind, info, _log. simpl.
  eexists. split; [reflexivity|]. simpl. split_and!; done.
Qed.

(** ** What a local backup writes *)

Lemma copy_item_frame troot cfg tail w r w' :
  tail ≠ [] → Forall (λ s, valid_name s = true) tail →
  copy_item troot (item_of cfg tail) w = (r, w') →
  ∀ q, ¬ q `prefix_of` troot → ¬ troot `prefix_of` q →
    entry_at (w_fs w') q = entry_at (w_fs w) q.
Proof.
  intros Hne Hval Hrun q Hq1 Hq2.
  unfold copy_item, item_of in Hrun. rewrite path_join_as_posix in Hrun by done.
  destruct tail as [|f m _] using rev_ind; [done|]. clear Hne.
  rewrite app_assoc in Hrun. set (l := troot ++ m) in *.
  assert (∀ x : path, x `prefix_of` l → x ≠ q) as Hl.
  { intros x Hx ->. unfold l in Hx.
    apply prefix_app_cases in Hx as [Hx|(q' & -> & _)]; [done|].
    apply Hq2. by exists q'. }
  assert (∀ n r', q ≠ l ++ n :: r') as Hl'.
  { intros n r' ->. apply Hq2. exists (m ++ n :: r'). unfold l. by rewrite <- app_assoc. }
  unfold bind, ensure_parent, fs_try in Hrun. rewrite parent_snoc in Hrun.
  destruct (mkdir_p l (w_fs w)) as [t1|e] eqn:Ht1; [|by injection Hrun as _ <-].
  simpl w_fs in Hrun.
  assert (entry_at t1 q = entry_at (w_fs w) q) as E1.
  { rewrite (mkdir_p_entry _ _ _ q Ht1), bool_decide_eq_false_2; [done|].
    intros Hp. by apply (Hl q). }
  unfold copy2 in Hrun.
  destruct (read_file (cfg ++ m ++ [f]) t1) as [data|e]; simpl in Hrun;
    [|by injection Hrun as _ <-].
  destruct (is_dir t1 (l ++ [f])).
  - destruct (write_file ((l ++ [f]) ++ [name (cfg ++ m ++ [f])]) data t1)
      as [t2|e] eqn:Ht2; injection Hrun as _ <-; [|done]. simpl.
    rewrite (write_file_entry _ _ _ _ _ q Ht2), bool_decide_eq_false_2; [done|].
    rewrite <- app_assoc. apply Hl'.
  - destruct (write_file (l ++ [f]) data t1) as [t2|e] eqn:Ht2;
      injection Hrun as _ <-; [|done]. simpl.
    rewrite (write_file_entry _ _ _ _ _ q Ht2), bool_decide_eq_false_2; [done|].
    apply Hl'.
Qed.

Lemma copy_items_frame troot cfg tails :
  Forall (λ tail, tail ≠ [] ∧ Forall (λ s, valid_name s = true) tail) tails →
  ∀ w r w', for_each (map (item_of cfg) tails) (copy_item troot) w = (r, w') →
    ∀ q, ¬ q `prefix_of` troot → ¬ troot `prefix_of` q →
      entry_at (w_fs w') q = entry_at (w_fs w) q.
Proof.
  induction 1 as [|tail tails [Hne Hval] _ IH]; intros w r w' Hrun q Hq1 Hq2.
  - by injection Hrun as _ <-.
  - change (for_each (map (item_of cfg) (tail :: tails)) (copy_item troot) w)
      with (bind (copy_item troot (item_of cfg tail))
              (λ _, for_each (map (item_of cfg) tails) (copy_item troot)) w) in Hrun.
    unfold bind at 1 in Hrun.
    destruct (copy_item troot (item_of cfg tail) w) as [[[]|e] w1] eqn:E1.
    + rewrite (IH _ _ _ Hrun q Hq1 Hq2). by eapply copy_item_frame.
    + injection Hrun as _ <-. by eapply copy_item_frame.
Qed.

(** X14: a local backup writes below the new bundle directory only.  When
    it runs to its end, the configuration directory is entry for entry as
    before, so is every path that is neither on the way to the bundle
    directory nor below it, and the directories on the way to the backup
    folder are there. *)
Theorem local_backup_writes_bundle_only (w : world) (cfg base_dir : path)
    (il ic : bool) (items : list (string * path)) :
  valid_tree (Dir (w_fs w)) = true →
  get_obs_config_dir w = Ok cfg →
  iter_obs_files il ic w = Ok items →
  str_mem "/" (hostname w) = false →
  str_mem "/" (w_now w) = false →
  is_ok (mkdir_p base_dir (w_fs w)) = true →
  path_exists (w_fs w) (bundle_root base_dir w) = false →
  ¬ cfg `prefix_of` bundle_root base_dir w →
  ∃ w1,
    create_local_backup_folder base_dir il ic w = (Ok (bundle_root base_dir w), w1)
    ∧ (∀ q, entry_at (w_fs w1) (cfg ++ q) = entry_at (w_fs w) (cfg ++ q))
    ∧ (∀ q, ¬ q `prefix_of` bundle_root base_dir w →
            ¬ bundle_root base_dir w `prefix_of` q →
            entry_at (w_fs w1) q = entry_at (w_fs w) q)
    ∧ (∀ q, q `prefix_of` base_dir → entry_at (w_fs w1) q = Some None).
Proof.
  intros Hv Hcfg Hit Hhost Hnow Hmk Hfresh Hout.
  destruct (backup_run _ _ _ _ _ _ Hv Hcfg Hit Hhost Hnow Hmk Hfresh Hout)
    as (tails & t' & -> & Hgood & Hrun & (I1 & _ & _ & _ & I5)).
  exists (set_fs t' w). split; [done|]. split; [done|].
  pose proof (backup_name_parts w Hhost Hnow base_dir) as Hroot.
  set (broot := bundle_root base_dir w) in *.
  destruct (mkdir_p base_dir (w_fs w)) as [t0|e] eqn:Ht0; [clear Hmk|done].
  pose proof (λ q, mkdir_p_entry _ _ _ q Ht0) as E0.
  (* the run, step by step *)
  unfold create_local_backup_folder in Hrun.
  unfold bind at 1, ask_result at 1 in Hrun. rewrite Hcfg in Hrun.
  unfold bind at 1, fs_try at 1 in Hrun. rewrite Ht0 in Hrun.
  unfold bind at 1, ask at 1 in Hrun.
  unfold bind at 1, ask_result at 1 in Hrun.
  destruct (iter_obs_files il ic (set_fs t0 w)) as [items0|e] eqn:Hit0;
    [|by injection Hrun].
  assert (Forall (λ tail, tail ≠ [] ∧ Forall (λ s, valid_name s = true) tail) tails)
    as Hgood'.
  { eapply Forall_impl; [exact Hgood|]. by intros tail (? & ? & _). }
  (* the walk after the directory is made is the walk before *)
  assert (items0 = map (item_of cfg) tails) as ->.
  { assert (entry_at (w_fs w) cfg ≠ None) as Hthere.
    { unfold iter_obs_files in Hit. rewrite Hcfg in Hit. simpl in Hit.
      unfold entry_at. by destruct (lookup_path (w_fs w) cfg) as [[]|]. }
    assert (∀ q, ¬ (cfg ++ q) `prefix_of` base_dir) as Hnp.
    { intros q [r Hr]. apply Hout. rewrite Hroot, Hr.
      exists (q ++ r ++ [make_backup_folder_name w]). by rewrite <- !app_assoc. }
    assert (lookup_path t0 cfg = lookup_path (w_fs w) cfg) as Hsame.
    { destruct (path_trichotomy base_dir cfg)
        as [[r Hr]|[(x & r & Hr)|(l & a & b & p' & q' & Hn & Hb & Hc)]].
      - destruct r as [|x r].
        + destruct (Hnp []). rewrite app_nil_r in Hr |- *. by rewrite Hr.
        + assert (is_dir (w_fs w) base_dir = true) as Hd.
          { apply is_dir_entry. eapply entry_at_above. by rewrite <- Hr. }
          rewrite (mkdir_p_existing _ _ Hd) in Ht0. by injection Ht0 as <-.
      - destruct (Hnp []). rewrite app_nil_r. by exists (x :: r).
      - rewrite Hb in Ht0. rewrite Hc. eapply mkdir_p_frame; [done|].
        by apply not_eq_sym. }
    assert (Ok items0 = Ok (map (item_of cfg) tails)) as Heq; [|by injection Heq].
    rewrite <- Hit0, <- Hit. unfold iter_obs_files.
    change (get_obs_config_dir (set_fs t0 w)) with (get_obs_config_dir w).
    rewrite Hcfg. simpl. by rewrite Hsame. }
  unfold bind at 1 in Hrun.
  set (troot := path_join (path_join base_dir (make_backup_folder_name (set_fs t0 w)))
                  "obs-studio") in Hrun.
  assert (troot = broot ++ ["obs-studio"]) as Htroot.
  { unfold troot. by rewrite path_join_obs_studio. }
  destruct (for_each (map (item_of cfg) tails) (copy_item troot) (set_fs t0 w))
    as [[[]|e] w1] eqn:Hloop; [|by injection Hrun].
  assert (w1 = set_fs t' w) as Hw1 by (unfold ret in Hrun; congruence).
  pose proof (copy_items_frame troot cfg tails Hgood' _ _ _ Hloop) as Hframe.
  rewrite Hw1 in Hframe. simpl in Hframe.
  assert (∀ q, q `prefix_of` base_dir → q `prefix_of` broot) as Hup.
  { intros q Hq. rewrite Hroot. by apply prefix_app_r. }
  split.
  - intros q Hq1 Hq2. rewrite Hframe.
    + rewrite E0, bool_decide_eq_false_2; [done|]. intros Hq. by apply Hq1, Hup.
    + rewrite Htroot. intros Hq.
      apply prefix_app_cases in Hq as [Hq|(q' & -> & Hq')]; [done|].
      apply Hq2. by exists q'.
    + rewrite Htroot. intros [r Hr]. apply Hq2. exists ("obs-studio" :: r).
      by rewrite Hr, <- app_assoc.
  - intros q [r Hr]. destruct tails as [|tail0 tails0].
    + simpl in Hloop. injection Hloop as <-.
      apply (f_equal w_fs) in Hw1. simpl in Hw1. subst t'.
      rewrite E0, bool_decide_eq_true_2; [done|]. by exists r.
    + destruct (I5 tail0) as (d & _ & Hd); [by left|].
      assert ((broot ++ ["obs-studio"]) ++ tail0
              = q ++ (r ++ make_backup_folder_name w :: "obs-studio" :: tail0)) as Heq.
      { rewrite Hroot, Hr, <- !app_assoc. done. }
      rewrite Heq in Hd.
      destruct (r ++ make_backup_folder_name w :: "obs-studio" :: tail0)
        as [|x rest] eqn:Hrest; [by destruct r|].
      apply (entry_at_above _ _ x rest). simpl. by rewrite Hd.
Qed.

(** ** A backup to GitHub *)

Lemma put_file_ok c repo branch p data msg w v :
  w_http w (w_sent w) (put_request c repo branch p (w_b64encode w data) msg)
  = Response (Some v) →
  put_file c repo branch p data msg w
  = (Ok v, add_sent (put_request c repo branch p (w_b64encode w data) msg) w).
Proof.
  intros H. unfold put_file, bind, ask, urlopen.
  fold (put_request c repo branch p (w_b64encode w data) msg). by rewrite H.
Qed.

Lemma put_file_failed c repo branch p data msg w code body str_e :
  w_http w (w_sent w) (put_request c repo branch p (w_b64encode w data) msg)
  = HTTPFailure code body str_e →
  put_file c repo branch p data msg w
  = (Raise (RuntimeError ("GitHub upload failed: " +:+ pretty code +:+ " "
                          +:+ default str_e body)),
     add_sent (put_request c repo branch p (w_b64encode w data) msg) w).
Proof.
  intros H. unfold put_file, bind, ask, urlopen.
  fold (put_request c repo branch p (w_b64encode w data) msg). by rewrite H.
Qed.

Lemma upload_files_run (w0 : world) (answer : request → http_outcome)
    client repo branch base_in_repo backup_name items :
  (∀ sent req, w_http w0 sent req = answer req) →
  Forall (λ item, (∃ data, file_at (w_fs w0) item.2 = Some data)
                  ∧ ∃ v, answer (upload_request w0 client repo branch base_in_repo
                                   backup_name item) = Response (Some v)) items →
  ∀ count w,
    w_fs w = w_fs w0 → w_b64encode w = w_b64encode w0 → w_http w = w_http w0 →
    ∃ w', upload_files bar_steps client repo branch base_in_repo backup_name
            items count w = (Ok (count + length items), w')
          ∧ w_sent w'
            = w_sent w ++ map (upload_request w0 client repo branch base_in_repo
                                 backup_name) items
          ∧ w_fs w' = w_fs w0 ∧ w_b64encode w' = w_b64encode w0
          ∧ w_http w' = w_http w0.
Proof.
  intros Hhttp. induction 1 as [|[rel src] items [[data Hdata] [v Hv]] _ IH];
    intros count w H1 H2 H3.
  - exists w. simpl. unfold ret. by rewrite Nat.add_0_r, app_nil_r.
  - simpl in Hdata, Hv. simpl upload_files.
    unfold bind at 1. simpl st_read_bytes. unfold ask_result at 1.
    assert (read_file src (w_fs w) = Ok data) as ->.
    { rewrite H1. unfold read_file. unfold file_at in Hdata.
      by destruct (lookup_path (w_fs w0) src) as [[]|]; simplify_eq. }
    unfold bind at 1. simpl st_put_file.
    unfold upload_request in Hv. simpl in Hv. rewrite Hdata in Hv. simpl in Hv.
    rewrite (put_file_ok _ _ _ _ _ _ _ v) by (by rewrite H2, H3, Hhttp).
    set (w1 := add_sent _ w).
    unfold bind at 1.
    match goal with |- context [(if ?b then ?a else ?c) w1] =>
      set (w2 := (if b then a else c) w1) end.
    assert (w2.1 = Ok tt ∧ w_sent w2.2 = w_sent w1 ∧ w_fs w2.2 = w_fs w1
            ∧ w_b64encode w2.2 = w_b64encode w1 ∧ w_http w2.2 = w_http w1) as Hw2.
    { unfold w2. by destruct (Nat.eqb _ _). }
    destruct w2 as [r2 w2']. simpl in Hw2.
    destruct Hw2 as (-> & S2 & F2 & B2 & T2).
    destruct (IH (count + 1) w2') as (w' & Hrun & HS & HF & HB & HT).
    + by rewrite F2.
    + by rewrite B2.
    + by rewrite T2.
    + exists w'. rewrite Hrun. split_and!; try done.
      * do 2 f_equal. simpl. lia.
      * rewrite HS, S2. unfold w1. simpl. rewrite <- app_assoc. simpl.
        unfold upload_request at 2. simpl. rewrite Hdata, H2. done.
Qed.

(** X15: a backup to GitHub with token and repository set, when every
    upload is answered with a JSON document: one [PUT] per item of the
    walker, in the walker's order, each to [folder/name/obs-studio/rel];
    the disk is not written, and the last line of the log counts the
    files. *)
Theorem github_backup_uploads_every_file (w : world)
    (answer : request → http_outcome) (items : list (string * path)) :
  let repo := g_get_str K_GH_REPO_SELECT "" w in
  let branch := g_get_str K_GH_BRANCH "main" w in
  let folder := g_get_str K_GH_FOLDER "obs-backups" w in
  let client := new_client (g_get_str K_GH_TOKEN "" w) in
  let backup_name := make_backup_folder_name w in
  let base_in_repo := _gh_join [folder; backup_name; "obs-studio"] in
  g_get_str K_DEST_TYPE "local" w ≠ "local" →
  g_get_str K_GH_TOKEN "" w ≠ "" → repo ≠ "" →
  iter_obs_files (g_get_bool K_INCLUDE_LOGS false w)
    (g_get_bool K_INCLUDE_CACHE false w) w = Ok items →
  (∀ sent req, w_http w sent req = answer req) →
  Forall (λ item, ∃ v, answer (upload_request w client repo branch base_in_repo
                                 backup_name item) = Response (Some v)) items →
  ∃ w',
    do_backup_now bar_steps w = (Ok true, w')
    ∧ w_sent w'
      = w_sent w ++ map (upload_request w client repo branch base_in_repo
                           backup_name) items
    ∧ w_fs w' = w_fs w
    ∧ last (w_log w')
      = Some (LOG_INFO, "Upload complete. " +:+ pretty (length items)
                        +:+ " files to " +:+ repo +:+ "/" +:+ base_in_repo).
Proof.
  intros repo branch folder client backup_name base_in_repo Hdt Htok Hrepo Hit
    Hhttp Hput.
  assert (Forall (λ item, (∃ data, file_at (w_fs w) item.2 = Some data)
                   ∧ ∃ v, answer (upload_request w client repo branch base_in_repo
                                    backup_name item) = Response (Some v)) items)
    as Hall.
  { apply Forall_forall. intros [rel p] Hin. split.
    - apply (elem_of_iter_obs_files _ _ _ _ _ _ Hit) in Hin
        as (cfg & tail & data & _ & Hf & _ & _ & -> & _). by exists data.
    - by apply (proj1 (Forall_forall _ _) Hput). }
  unfold do_backup_now. rewrite guarded_run.
  unfold backup_body. rewrite !bind_ask, !bind_g_set. cbv beta.
  set (il := g_get_bool K_INCLUDE_LOGS false w) in *.
  set (ic := g_get_bool K_INCLUDE_CACHE false w) in *.
  set (w2 := set_shadow _ (set_shadow _ w)).
  apply String.eqb_neq in Hdt. rewrite Hdt. cbv beta iota.
  rewrite !bind_ask. cbv beta.
  assert (∀ k d, k ≠ K_INCLUDE_LOGS → k ≠ K_INCLUDE_CACHE →
            g_get_str k d w2 = g_get_str k d w) as Hget.
  { intros k d H1 H2. unfold g_get_str, w2. simpl. by rewrite !lookup_insert_ne. }
  rewrite !Hget by done. fold repo branch folder.
  apply String.eqb_neq in Htok, Hrepo. rewrite Htok, Hrepo.
  change (false || false) with false. cbv beta iota.
  rewrite !bind_ask. cbv beta.
  change (make_backup_folder_name w2) with backup_name.
  fold client base_in_repo.
  change (st_iter_obs_files bar_steps il ic w2)
    with (match iter_obs_files il ic w with
          | Ok items => (items, None)
          | Raise e => ([], Some e)
          end).
  rewrite Hit.
  destruct (upload_files_run w answer client repo branch base_in_repo backup_name
              items Hhttp Hall 0 w2 eq_refl eq_refl eq_refl)
    as (w3 & Hrun & HS & HF & _).
  unfold bind at 1. rewrite Hrun. unfold info, _log. simpl.
  eexists. split; [reflexivity|]. simpl. split_and!; try done.
  by rewrite last_snoc.
Qed.

Lemma upload_files_app S client repo branch base_in_repo backup_name a b :
  ∀ count w,
    upload_files S client repo branch base_in_repo backup_name (a ++ b) count w
    = match upload_files S client repo branch base_in_repo backup_name a count w with
      | (Ok c, w') =>
          upload_files S client repo branch base_in_repo backup_name b c w'
      | (Raise e, w') => (Raise e, w')
      end.
Proof.
  induction a as [|[rel src] a IH]; intros count w; [done|].
  simpl. unfold bind.
  destruct (st_read_bytes S src w) as [[data|e] w1]; [|done].
  destruct (st_put_file S client repo branch _ data _ w1) as [[v|e] w2]; [|done].
  match goal with |- context [(if ?b then ?x else ?y) w2] =>
    destruct ((if b then x else y) w2) as [[[]|e] w3]; [|done] end.
  apply IH.
Qed.

(** X16: the upload stops at the first file GitHub refuses.  The files before
    it have been sent and stay in the repository, the files after it are
    not sent, and the backup reports the refusal and returns [False]. *)
Theorem github_backup_stops_at_refusal (w : world)
    (answer : request → http_outcome)
    (sent_items rest : list (string * path)) (item : string * path)
    (code : Z) (body : option string) (str_e : string) :
  let repo := g_get_str K_GH_REPO_SELECT "" w in
  let branch := g_get_str K_GH_BRANCH "main" w in
  let folder := g_get_str K_GH_FOLDER "obs-backups" w in
  let client := new_client (g_get_str K_GH_TOKEN "" w) in
  let backup_name := make_backup_folder_name w in
  let base_in_repo := _gh_join [folder; backup_name; "obs-studio"] in
  let request_of := upload_request w client repo branch base_in_repo backup_name in
  g_get_str K_DEST_TYPE "local" w ≠ "local" →
  g_get_str K_GH_TOKEN "" w ≠ "" → repo ≠ "" →
  iter_obs_files (g_get_bool K_INCLUDE_LOGS false w)
    (g_get_bool K_INCLUDE_CACHE false w) w = Ok (sent_items ++ item :: rest) →
  (∀ sent req, w_http w sent req = answer req) →
  Forall (λ it, ∃ v, answer (request_of it) = Response (Some v)) sent_items →
  answer (request_of item) = HTTPFailure code body str_e →
  ∃ w',
    do_backup_now bar_steps w = (Ok false, w')
    ∧ w_sent w' = w_sent w ++ map request_of sent_items ++ [request_of item]
    ∧ w_fs w' = w_fs w
    ∧ last (w_log w')
      = Some (LOG_ERROR, "Backup failed: GitHub upload failed: " +:+ pretty code
                         +:+ " " +:+ default str_e body).
Proof.
  intros repo branch folder client backup_name base_in_repo request_of
    Hdt Htok Hrepo Hit Hhttp Hput Hfail.
  assert (∀ it, it ∈ sent_items ++ item :: rest →
            ∃ data, file_at (w_fs w) it.2 = Some data) as Hfiles.
  { intros [rel p] Hin.
    apply (elem_of_iter_obs_files _ _ _ _ _ _ Hit) in Hin
      as (cfg & tail & data & _ & Hf & _ & _ & -> & _). by exists data. }
  assert (Forall (λ it, (∃ data, file_at (w_fs w) it.2 = Some data)
                   ∧ ∃ v, answer (request_of it) = Response (Some v)) sent_items)
    as Hall.
  { apply Forall_forall. intros it Hin. split.
    - apply Hfiles, elem_of_app. by left.
    - by apply (proj1 (Forall_forall _ _) Hput). }
  destruct (Hfiles item) as [data Hdata].
  { apply elem_of_app. right. by left. }
  unfold do_backup_now. rewrite guarded_run.
  unfold backup_body. rewrite !bind_ask, !bind_g_set. cbv beta.
  set (il := g_get_bool K_INCLUDE_LOGS false w) in *.
  set (ic := g_get_bool K_INCLUDE_CACHE false w) in *.
  set (w2 := set_shadow _ (set_shadow _ w)).
  apply String.eqb_neq in Hdt. rewrite Hdt. cbv beta iota.
  rewrite !bind_ask. cbv beta.
  assert (∀ k d, k ≠ K_INCLUDE_LOGS → k ≠ K_INCLUDE_CACHE →
            g_get_str k d w2 = g_get_str k d w) as Hget.
  { intros k d H1 H2. unfold g_get_str, w2. simpl. by rewrite !lookup_insert_ne. }
  rewrite !Hget by done. fold repo branch folder.
  apply String.eqb_neq in Htok, Hrepo. rewrite Htok, Hrepo.
  change (false || false) with false. cbv beta iota.
  rewrite !bind_ask. cbv beta.
  change (make_backup_folder_name w2) with backup_name.
  fold client base_in_repo.
  change (st_iter_obs_files bar_steps il ic w2)
    with (match iter_obs_files il ic w with
          | Ok items => (items, None)
          | Raise e => ([], Some e)
          end).
  rewrite Hit.
  destruct (upload_files_run w answer client repo branch base_in_repo backup_name
              sent_items Hhttp Hall 0 w2 eq_refl eq_refl eq_refl)
    as (w3 & Hrun & HS & HF & HB & HT).
  unfold bind at 1. rewrite upload_files_app, Hrun.
  destruct item as [rel src]. simpl in Hdata.
  simpl upload_files. unfold bind at 1. simpl st_read_bytes. unfold ask_result at 1.
  assert (read_file src (w_fs w3) = Ok data) as ->.
  { rewrite HF. unfold read_file. unfold file_at in Hdata.
    by destruct (lookup_path (w_fs w) src) as [[]|]; simplify_eq. }
  unfold bind at 1. simpl st_put_file.
  unfold request_of, upload_request in Hfail. simpl in Hfail.
  rewrite Hdata in Hfail. simpl in Hfail.
  rewrite (put_file_failed _ _ _ _ _ _ _ code body str_e)
    by (by rewrite HB, HT, Hhttp).
  eexists. split; [reflexivity|]. simpl. split_and!.
  - rewrite HS. simpl. rewrite <- app_assoc. do 3 f_equal.
    unfold request_of, upload_request. simpl. by rewrite Hdata, HB.
  - done.
  - by rewrite last_snoc.
Qed.

(** ** A restore from a zip *)

Lemma clear_dest_lookup_frame k a p' w r w' b q :
  clear_dest (k ++ a :: p') w = (r, w') → b ≠ a →
  lookup_path (w_fs w') (k ++ b :: q) = lookup_path (w_fs w) (k ++ b :: q).
Proof.
  unfold clear_dest, bind, ask, fs_do, try_except, fs_try, ret.
  destruct (path_exists _ _); [|by intros [= _ <-]].
  destruct (is_dir _ _).
  - intros [= _ <-] Hb. simpl. by apply rmtree_ignore_frame.
  - destruct (unlink _ _) as [t'|e] eqn:Hu; intros [= _ <-] Hb; [|done].
    simpl. by eapply unlink_frame.
Qed.

Lemma entry_none_lookup t p : entry_at t p = None ↔ lookup_path t p = None.
Proof. unfold entry_at. by destruct (lookup_path t p) as [[]|]. Qed.

Lemma unpack_entry_run cfg root l a b p' q' x c w :
  cfg = l ++ a :: p' → root = l ++ b :: q' → a ≠ b →
  valid_name x = true →
  is_dir (w_fs w) cfg = true →
  lookup_path (w_fs w) (root ++ [x]) = Some c →
  ∃ t', unpack_entry cfg root x w = (Ok tt, set_fs t' w)
        ∧ lookup_path t' (cfg ++ [x]) = Some c
        ∧ (∀ y q, y ≠ x →
             lookup_path t' (cfg ++ y :: q) = lookup_path (w_fs w) (cfg ++ y :: q))
        ∧ (∀ bb q, bb ≠ a →
             lookup_path t' (l ++ bb :: q) = lookup_path (w_fs w) (l ++ bb :: q)).
Proof.
  intros Hcfg Hroot Hab Hx Hdir Hitem.
  unfold unpack_entry.
  assert (path_join cfg x = cfg ++ [x]) as ->.
  { apply (path_join_as_posix cfg [x]). by constructor. }
  destruct (clear_dest_entry cfg x w) as (t1 & Hclear & E1).
  assert (∀ y q, y ≠ x →
            lookup_path t1 (cfg ++ y :: q) = lookup_path (w_fs w) (cfg ++ y :: q)) as F1.
  { intros y q Hy. by apply (clear_dest_lookup_frame cfg x [] w (Ok tt) (set_fs t1 w)). }
  assert (∀ bb q, bb ≠ a →
            lookup_path t1 (l ++ bb :: q) = lookup_path (w_fs w) (l ++ bb :: q)) as G1.
  { intros bb q Hbb.
    apply (clear_dest_lookup_frame l a (p' ++ [x]) w (Ok tt) (set_fs t1 w)); [|done].
    rewrite <- Hclear, Hcfg, <- app_assoc. done. }
  assert (lookup_path t1 (cfg ++ [x]) = None) as Hgone.
  { apply entry_none_lookup. by rewrite E1, bool_decide_eq_true_2. }
  assert (is_dir t1 cfg = true) as Hdir1.
  { apply is_dir_entry. rewrite E1, bool_decide_eq_false_2.
    - by apply is_dir_entry.
    - apply (not_prefix_app_cons cfg x []). }
  assert (lookup_path t1 (root ++ [x]) = Some c) as Hitem1.
  { rewrite <- Hitem, Hroot, <- !app_assoc. simpl. apply G1. by apply not_eq_sym. }
  unfold bind at 1. rewrite Hclear. unfold bind at 1, ask at 1.
  change (w_fs (set_fs t1 w)) with t1.
  unfold is_dir at 1. rewrite Hitem1.
  destruct c as [data|sub].
  - (* a file: the parent is there, the bytes are written *)
    unfold bind at 1, ensure_parent, fs_try at 1. simpl w_fs.
    rewrite parent_snoc, (mkdir_p_existing _ _ Hdir1). simpl w_fs.
    unfold fs_try, copy2. simpl w_fs. unfold read_file. rewrite Hitem1. simpl.
    assert (is_dir t1 (cfg ++ [x]) = false) as ->
      by (unfold is_dir; by rewrite Hgone).
    destruct (write_file_ok cfg x data t1) as [t2 Ht2].
    { by apply is_dir_entry. }
    { apply entry_none_lookup in Hgone. by rewrite Hgone. }
    rewrite Ht2, !set_fs_set_fs. exists t2. split_and!; try done.
    + apply entry_file_lookup.
      by rewrite (write_file_entry _ _ _ _ _ _ Ht2), bool_decide_eq_true_2.
    + intros y q Hy. rewrite <- F1 by done.
      by apply (write_file_frame cfg x [] data t1 t2).
    + intros bb q Hbb. rewrite <- G1 by done.
      apply (write_file_frame l a (p' ++ [x]) data t1 t2); [|done].
      rewrite <- Ht2, Hcfg, <- app_assoc. done.
  - (* a directory: the tree is copied *)
    destruct (copytree_copy (root ++ [x]) cfg x t1 sub Hitem1 Hdir1 Hgone)
      as (t2 & Ht2 & Hcopy).
    unfold fs_try. simpl w_fs. rewrite Ht2, set_fs_set_fs.
    exists t2. split_and!; try done.
    + intros y q Hy. rewrite <- F1 by done.
      by apply (copytree_frame (root ++ [x]) cfg x [] t1 t2).
    + intros bb q Hbb. rewrite <- G1 by done.
      apply (copytree_frame (root ++ [x]) l a (p' ++ [x]) t1 t2); [|done].
      rewrite <- Ht2, Hcfg, <- app_assoc. done.
Qed.

Lemma lookup_dir_is_dir t p x r n :
  lookup_path t (p ++ x :: r) = Some n → is_dir t p = true.
Proof.
  intros [es H]%lookup_path_parent_dir. unfold is_dir. by rewrite H.
Qed.

Lemma lookup_path_child t p es x :
  lookup_path t p = Some (Dir es) → lookup_path t (p ++ [x]) = es !! x.
Proof.
  intros H. rewrite lookup_path_app, H.
  change (es !! x ≫= (λ n, resolve n []) = es !! x).
  by destruct (es !! x) as [[]|].
Qed.

Lemma unpack_loop cfg root l a b p' q' es :
  cfg = l ++ a :: p' → root = l ++ b :: q' → a ≠ b →
  ∀ xs w,
    NoDup xs →
    (∀ x, x ∈ xs → valid_name x = true ∧ is_Some (es !! x)) →
    is_dir (w_fs w) cfg = true →
    lookup_path (w_fs w) root = Some (Dir es) →
    ∃ t', for_each xs (unpack_entry cfg root) w = (Ok tt, set_fs t' w)
          ∧ is_dir t' cfg = true
          ∧ (∀ x, x ∈ xs → lookup_path t' (cfg ++ [x]) = es !! x)
          ∧ (∀ y q, y ∉ xs →
               lookup_path t' (cfg ++ y :: q) = lookup_path (w_fs w) (cfg ++ y :: q))
          ∧ (∀ bb q, bb ≠ a →
               lookup_path t' (l ++ bb :: q) = lookup_path (w_fs w) (l ++ bb :: q)).
Proof.
  intros Hcfg Hroot Hab xs.
  induction xs as [|x xs IH]; intros w Hnd Hxs Hdir Hr.
  - exists (w_fs w). split_and!; try done.
    + by destruct w.
    + by intros x Hx%elem_of_nil.
  - apply NoDup_cons in Hnd as [Hx Hnd].
    destruct (Hxs x) as [Hv [c Hc]]; [by left|].
    destruct (unpack_entry_run cfg root l a b p' q' x c w Hcfg Hroot Hab Hv Hdir)
      as (t1 & Hrun & Hnew & F1 & G1).
    { by rewrite (lookup_path_child _ _ _ _ Hr). }
    destruct (IH (set_fs t1 w) Hnd) as (t2 & Hrest & Hdir2 & Hin & F2 & G2).
    { intros y Hy. apply Hxs. by right. }
    { by apply (lookup_dir_is_dir t1 cfg x [] c). }
    { simpl w_fs. rewrite <- Hr, Hroot. apply G1. by apply not_eq_sym. }
    exists t2. rewrite (for_each_cons_ok _ _ _ _ _ Hrun), Hrest, set_fs_set_fs.
    split_and!; try done.
    + intros y [->|Hy]%elem_of_cons; [|by apply Hin].
      rewrite F2 by done. simpl w_fs. by rewrite Hnew.
    + intros y q [Hyx Hy]%not_elem_of_cons.
      rewrite F2 by done. simpl w_fs. by apply F1.
    + intros bb q Hbb. rewrite G2 by done. simpl w_fs. by apply G1.
Qed.

(** The new temporary directory holds the archive's tree, and nothing else
    has changed. *)
Lemma extractall_run zp td l b q' w data tree :
  td = l ++ b :: q' →
  read_file zp (w_fs w) = Ok data →
  w_unzip w data = Ok tree →
  path_exists (w_fs w) td = false →
  is_ok (mkdir_p td (w_fs w)) = true →
  ∃ t1 t2,
    mkdir_p td (w_fs w) = Ok t1
    ∧ extractall zp td (set_fs t1 w) = (Ok tt, set_fs t2 w)
    ∧ (∀ r, lookup_path t2 (td ++ r) = lookup_path tree r)
    ∧ (∀ bb q, bb ≠ b →
         lookup_path t2 (l ++ bb :: q) = lookup_path (w_fs w) (l ++ bb :: q)).
Proof.
  intros Htd Hread Hzip Hfree Hmk.
  destruct (mkdir_p td (w_fs w)) as [t1|e] eqn:Hmk1; [clear Hmk|done].
  assert (lookup_path t1 td = Some (Dir ∅)) as Hnew.
  { apply mkdir_p_at_dir in Hmk1.
    destruct (at_dir_here _ _ _ _ _ Hmk1) as (es0 & es' & [= <-] & Hl & [Hor|(_ & _ & ->)]).
    - unfold path_exists in Hfree. by rewrite Hor in Hfree.
    - done. }
  assert (read_file zp t1 = Ok data) as Hread1.
  { unfold read_file in *.
    destruct (lookup_path (w_fs w) zp) as [[d|]|] eqn:Hl; try done.
    injection Hread as ->.
    apply entry_file_lookup in Hl.
    assert (entry_at t1 zp = Some (Some data)) as E.
    { rewrite (mkdir_p_entry _ _ _ _ Hmk1). case_bool_decide as Hp; [|done].
      exfalso. eapply (proj1 (mkdir_p_ok_iff td (w_fs w))); eauto. }
    apply entry_file_lookup in E. by rewrite E. }
  destruct (at_dir_ok td false (λ es0, Ok (tree ∪ es0)) t1 ∅ (tree ∪ ∅) Hnew eq_refl)
    as [t2 Ht2].
  exists t1, t2. split; [done|]. split_and!.
  - unfold extractall, bind, ask_result. simpl w_fs. rewrite Hread1.
    change (w_unzip (set_fs t1 w) data) with (w_unzip w data). rewrite Hzip.
    unfold fs_try. simpl w_fs. by rewrite Ht2.
  - intros r. destruct (at_dir_below _ _ _ _ _ Ht2) as (es0 & es' & [= <-] & Hor & Hl).
    rewrite Hl. destruct Hor as [Hor|(? & _)]; [|done].
    rewrite Hnew in Hor. injection Hor as <-. by rewrite (right_id_L ∅ (∪)).
  - intros bb q Hbb. rewrite Htd in Ht2, Hmk1.
    rewrite (at_dir_diverge _ _ _ _ _ _ _ _ _ Ht2 Hbb).
    by apply (mkdir_p_frame l b q').
Qed.

(** X17: [_extract_zip_to_config] unpacks the archive to a new temporary
    directory and copies the top entries of the unpacked [obs-studio]
    directory (of the archive itself when it has no such entry) over those
    of the configuration directory.  When the archive is read and unpacked
    and the temporary directory is new and not inside the configuration
    directory, the block succeeds: each top entry of the archive replaces
    the entry of that name, whole; every other entry of the configuration
    directory is kept as it was; the temporary directory is gone. *)
Theorem zip_restore_replaces_top_entries cfg zp w data tree es :
  is_dir (w_fs w) cfg = true →
  read_file zp (w_fs w) = Ok data →
  w_unzip w data = Ok tree →
  path_exists (w_fs w) (w_tmp w) = false →
  is_ok (mkdir_p (w_tmp w) (w_fs w)) = true →
  ¬ cfg `prefix_of` w_tmp w →
  (tree !! "obs-studio" = Some (Dir es)
   ∨ (tree !! "obs-studio" = None ∧ es = tree)) →
  (∀ x, is_Some (es !! x) → valid_name x = true) →
  ∃ t',
    unpack_zip cfg zp w
    = (Ok tt, add_log LOG_INFO ("Restoring to " +:+ path_str cfg) (set_fs t' w))
    ∧ (∀ x c q, es !! x = Some c → lookup_path t' (cfg ++ x :: q) = resolve c q)
    ∧ (∀ y q, es !! y = None →
         lookup_path t' (cfg ++ y :: q) = lookup_path (w_fs w) (cfg ++ y :: q))
    ∧ path_exists t' (w_tmp w) = false.
Proof.
  intros Hdir Hread Hzip Hfree Hmk Hout Hes Hnames.
  destruct (path_trichotomy cfg (w_tmp w))
    as [[r Hr]|[(x & r & Hr)|(l & a & b & p' & q' & Hab & Hcfg & Htd)]].
  { destruct Hout. rewrite Hr. by apply prefix_app_r. }
  { rewrite Hr in Hdir. unfold is_dir in Hdir.
    destruct (lookup_path (w_fs w) (w_tmp w ++ x :: r)) as [n|] eqn:Hl; [|done].
    apply lookup_path_parent_dir in Hl as [es0 Hl].
    unfold path_exists in Hfree. by rewrite Hl in Hfree. }
  destruct (extractall_run zp (w_tmp w) l b q' w data tree Htd Hread Hzip Hfree Hmk)
    as (t1 & t2 & Hmk1 & Hext & Hin & Hframe).
  set (root := if path_exists t2 (path_join (w_tmp w) "obs-studio")
               then path_join (w_tmp w) "obs-studio" else w_tmp w).
  assert (path_join (w_tmp w) "obs-studio" = w_tmp w ++ ["obs-studio"]) as Hj
    by (by apply (path_join_as_posix _ ["obs-studio"]); constructor).
  assert (∃ q'', root = l ++ b :: q'' ∧ lookup_path t2 root = Some (Dir es))
    as (q'' & Hroot & Hlr).
  { unfold root. rewrite Hj. unfold path_exists. rewrite Hin, lookup_path_cons.
    destruct Hes as [Hsub|[Hnone ->]].
    - rewrite Hsub. simpl. exists (q' ++ ["obs-studio"]). split.
      + by rewrite Htd, <- app_assoc.
      + by rewrite Hin, lookup_path_cons, Hsub.
    - rewrite Hnone. simpl. exists q'. split; [done|].
      rewrite <- (app_nil_r (w_tmp w)), Hin. done. }
  set (w3 := add_log LOG_INFO ("Restoring to " +:+ path_str cfg) (set_fs t2 w)).
  destruct (unpack_loop cfg root l a b p' q'' es Hcfg Hroot Hab
              (map fst (map_to_list es)) w3) as (t3 & Hloop & Hdir3 & Hnew & F3 & G3).
  { apply NoDup_fst_map_to_list. }
  { intros x [[x' c] [-> Hxc%elem_of_map_to_list]]%list_elem_of_fmap. simpl.
    split; [apply Hnames|]; by exists c. }
  { simpl w_fs. rewrite Hcfg.
    unfold is_dir. rewrite Hframe by done. by rewrite <- Hcfg. }
  { done. }
  simpl w_fs in F3, G3.
  assert (is_dir t3 (w_tmp w) = true) as Htd3.
  { unfold is_dir. rewrite Htd, G3 by (by apply not_eq_sym). rewrite <- Htd.
    rewrite <- (app_nil_r (w_tmp w)), Hin. done. }
  exists (rmtree_ignore (w_tmp w) t3). split_and!.
  - unfold unpack_zip, with_tempdir.
    unfold bind at 1, ask at 1. unfold bind at 1, fs_try at 1.
    rewrite Hfree, Hmk1. unfold try_finally.
    unfold bind at 1. rewrite Hext.
    unfold bind at 1, ask at 1. simpl w_fs. fold root.
    unfold bind at 1, info, _log. fold w3.
    unfold bind at 1, ask_result at 1, iterdir. simpl w_fs. rewrite Hlr.
    change (for_each (map fst (map_to_list es)) _ w3)
      with (for_each (map fst (map_to_list es)) (unpack_entry cfg root) w3).
    rewrite Hloop. unfold fs_do. done.
  - intros x c q Hx.
    assert (cfg ++ x :: q = l ++ a :: (p' ++ x :: q)) as Ha
      by (by rewrite Hcfg, <- app_assoc).
    rewrite Ha, Htd, rmtree_ignore_frame, <- Ha by done.
    change (x :: q) with ([x] ++ q). rewrite app_assoc, lookup_path_app, Hnew, Hx; [done|].
    apply list_elem_of_fmap. exists (x, c). split; [done|].
    by apply elem_of_map_to_list.
  - intros y q Hy.
    assert (cfg ++ y :: q = l ++ a :: (p' ++ y :: q)) as Ha
      by (by rewrite Hcfg, <- app_assoc).
    rewrite Ha, Htd, rmtree_ignore_frame, <- Ha by done.
    rewrite F3.
    + rewrite Ha. by apply Hframe.
    + intros [[y' c] [-> Hyc%elem_of_map_to_list]]%list_elem_of_fmap.
      simpl in Hy. by rewrite Hy in Hyc.
  - assert (∀ p : path, p ≠ [] → ∃ l0 n, p = l0 ++ [n]) as Hsnoc.
    { intros p. induction p using rev_ind; [done|eauto]. }
    destruct (Hsnoc (w_tmp w)) as (l0 & n & Hl0).
    { rewrite Htd. by destruct l. }
    unfold path_exists. rewrite Hl0 in Htd3 |- *.
    by rewrite (rmtree_ignore_gone _ _ _ Htd3).
Qed.

(** X19: an archive that cannot be unpacked.  The block of
    [_extract_zip_to_config] raises the error of the unpacking after the
    temporary directory has been removed again, and no entry of the
    configuration directory has changed. *)
Theorem bad_zip_leaves_config cfg zp w data e :
  is_dir (w_fs w) cfg = true →
  read_file zp (w_fs w) = Ok data →
  w_unzip w data = Raise e →
  path_exists (w_fs w) (w_tmp w) = false →
  is_ok (mkdir_p (w_tmp w) (w_fs w)) = true →
  ¬ cfg `prefix_of` w_tmp w →
  ∃ t',
    unpack_zip cfg zp w = (Raise e, set_fs t' w)
    ∧ (∀ q, lookup_path t' (cfg ++ q) = lookup_path (w_fs w) (cfg ++ q))
    ∧ path_exists t' (w_tmp w) = false.
Proof.
  intros Hdir Hread Hzip Hfree Hmk Hout.
  destruct (path_trichotomy cfg (w_tmp w))
    as [[r Hr]|[(x & r & Hr)|(l & a & b & p' & q' & Hab & Hcfg & Htd)]].
  { destruct Hout. rewrite Hr. by apply prefix_app_r. }
  { rewrite Hr in Hdir. unfold is_dir in Hdir.
    destruct (lookup_path (w_fs w) (w_tmp w ++ x :: r)) as [n|] eqn:Hl; [|done].
    apply lookup_path_parent_dir in Hl as [es0 Hl].
    unfold path_exists in Hfree. by rewrite Hl in Hfree. }
  destruct (mkdir_p (w_tmp w) (w_fs w)) as [t1|e1] eqn:Hmk1; [clear Hmk|done].
  assert (is_dir t1 (w_tmp w) = true) as Htd1.
  { apply is_dir_entry. rewrite (mkdir_p_entry _ _ _ _ Hmk1).
    by rewrite bool_decide_eq_true_2. }
  assert (read_file zp t1 = Ok data) as Hread1.
  { unfold read_file in *.
    destruct (lookup_path (w_fs w) zp) as [[d|]|] eqn:Hl; try done.
    injection Hread as ->.
    apply entry_file_lookup in Hl.
    assert (entry_at t1 zp = Some (Some data)) as E.
    { rewrite (mkdir_p_entry _ _ _ _ Hmk1). case_bool_decide as Hp; [|done].
      exfalso. eapply (proj1 (mkdir_p_ok_iff (w_tmp w) (w_fs w))); eauto. }
    apply entry_file_lookup in E. by rewrite E. }
  exists (rmtree_ignore (w_tmp w) t1). split_and!.
  - unfold unpack_zip, with_tempdir.
    unfold bind at 1, ask at 1. unfold bind at 1, fs_try at 1.
    rewrite Hfree, Hmk1. unfold try_finally.
    unfold bind at 1, extractall.
    unfold bind at 1, ask_result at 1. simpl w_fs. rewrite Hread1.
    unfold bind at 1, ask_result at 1.
    change (w_unzip (set_fs t1 w) data) with (w_unzip w data). rewrite Hzip.
    unfold fs_do. done.
  - intros q.
    assert (cfg ++ q = l ++ a :: (p' ++ q)) as Ha
      by (by rewrite Hcfg, <- app_assoc).
    rewrite Ha. rewrite Htd in Hmk1 |- *.
    rewrite rmtree_ignore_frame by done.
    by apply (mkdir_p_frame l b q').
  - assert (∀ p : path, p ≠ [] → ∃ l0 n, p = l0 ++ [n]) as Hsnoc.
    { intros p. induction p using rev_ind; [done|eauto]. }
    destruct (Hsnoc (w_tmp w)) as (l0 & n & Hl0).
    { rewrite Htd. by destruct l. }
    unfold path_exists. rewrite Hl0 in Htd1 |- *.
    by rewrite (rmtree_ignore_gone _ _ _ Htd1).
Qed.

(** ** The list of repositories, sorted *)

Lemma ascii_compare_refl (a : ascii) : Ascii.compare a a = Eq.
Proof. unfold Ascii.compare. apply N.compare_refl. Qed.

Lemma ascii_compare_lt_trans (a b c : ascii) :
  Ascii.compare a b = Lt → Ascii.compare b c = Lt → Ascii.compare a c = Lt.
Proof.
  unfold Ascii.compare. rewrite !N.compare_lt_iff. apply N.lt_trans.
Qed.

Lemma string_compare_le_trans (a : string) :
  ∀ b c, String.compare a b ≠ Gt → String.compare b c ≠ Gt →
         String.compare a c ≠ Gt.
Proof.
  induction a as [|x a IH]; intros [|y b] [|z c]; simpl; try done.
  destruct (Ascii.compare x y) eqn:Exy; [|
    destruct (Ascii.compare y z) eqn:Eyz; [| |done] |done].
  - apply Ascii.compare_eq_iff in Exy as ->.
    destruct (Ascii.compare y z); [apply IH|done|done].
  - apply Ascii.compare_eq_iff in Eyz as ->. by rewrite Exy.
  - by rewrite (ascii_compare_lt_trans _ _ _ Exy Eyz).
Qed.

(** [a <= b <= c] gives [a <= c], with [x <= y] written as the code tests
    it: [y < x] is false. *)
Lemma not_ltb_trans (a b c : string) :
  String.ltb b a = false → String.ltb c b = false → String.ltb c a = false.
Proof.
  unfold String.ltb.
  rewrite (String.compare_antisym b a), (String.compare_antisym c b),
    (String.compare_antisym c a).
  pose proof (string_compare_le_trans a b c) as H.
  destruct (String.compare a b), (String.compare b c), (String.compare a c);
    simpl; try done; intros; exfalso; by apply H.
Qed.

Lemma ascending_cons (a : string) (l : list string) :
  ascending (a :: l) ↔ Forall (λ b, String.ltb b a = false) l ∧ ascending l.
Proof.
  revert a. induction l as [|b l IH]; intros a.
  - simpl. split; [by intros _; split|done].
  - change (ascending (a :: b :: l))
      with (String.ltb b a = false ∧ ascending (b :: l)).
    split.
    + intros [Hab Hl]. split; [|done]. constructor; [done|].
      apply IH in Hl as [Hall _].
      eapply Forall_impl; [exact Hall|]. intros c Hc. simpl in Hc.
      by apply (not_ltb_trans a b c).
    + intros [Hall Hl]. split; [|done]. by inversion Hall.
Qed.

Lemma insert_asc_perm {A} (x : string * A) (l : list (string * A)) :
  insert_asc x l ≡ₚ x :: l.
Proof.
  induction l as [|y l IH]; simpl; [done|].
  destruct (String.ltb x.1 y.1); [done|]. rewrite IH. apply perm_swap.
Qed.

Lemma insert_asc_ascending {A} (x : string * A) (l : list (string * A)) :
  ascending l.*1 → ascending (insert_asc x l).*1.
Proof.
  induction l as [|y l IH]; [done|].
  intros Hl. simpl insert_asc. destruct (String.ltb x.1 y.1) eqn:E.
  - change (String.ltb y.1 x.1 = false ∧ ascending (y :: l).*1).
    split; [by apply ltb_asym|done].
  - change (ascending (y.1 :: (insert_asc x l).*1)).
    change (ascending (y.1 :: l.*1)) in Hl.
    apply ascending_cons in Hl as [Hall Hl]. apply ascending_cons.
    split; [|by apply IH].
    rewrite (insert_asc_perm x l). constructor; [done|]. exact Hall.
Qed.

Lemma sort_asc_sorted {A} (l : list (string * A)) :
  sort_asc l ≡ₚ l ∧ ascending (sort_asc l).*1.
Proof.
  unfold sort_asc.
  assert (∀ acc, ascending acc.*1 →
            foldl (λ acc x, insert_asc x acc) acc l ≡ₚ acc ++ l
            ∧ ascending (foldl (λ acc x, insert_asc x acc) acc l).*1) as H.
  { induction l as [|x l IH]; intros acc Hacc; simpl.
    - by rewrite app_nil_r.
    - destruct (IH (insert_asc x acc)) as [Hperm Hs].
      + by apply insert_asc_ascending.
      + split; [|done]. rewrite Hperm, insert_asc_perm. simpl.
        apply Permutation_middle. }
  by apply (H []).
Qed.

(** What is left of an ascending list is ascending. *)
Lemma ascending_omap {A} (key : A → string) (f : A → option string)
    (l : list A) :
  Forall (λ a, ∀ s, f a = Some s → str_lower s = key a) l →
  ascending (map key l) → ascending (map str_lower (omap f l)).
Proof.
  induction 1 as [|a l Ha Hf IH]; [done|].
  change (map key (a :: l)) with (key a :: map key l).
  intros [Hall Hl]%ascending_cons. simpl omap.
  destruct (f a) as [s|] eqn:E; [|by apply IH].
  change (ascending (str_lower s :: map str_lower (omap f l))).
  apply ascending_cons. split; [|by apply IH].
  rewrite (Ha s eq_refl). apply List.Forall_map in Hall. apply List.Forall_map.
  clear -Hall Hf. induction Hf as [|b l Hb Hf IH]; [constructor|].
  inversion Hall as [|? ? Hb' Hall']; subst. simpl.
  destruct (f b) as [t|] eqn:Eb; [|by apply IH].
  constructor; [|by apply IH]. by rewrite (Hb t eq_refl).
Qed.

(** The name [_on_fetch_repos] adds for a sorted item, if it adds one. *)
Lemma repo_items_names (sorted : list (string * pyval)) :
  ∃ names,
    repo_items sorted = map (λ s, (s, s)) names
    ∧ names = omap (λ kv, match kv.2 with
                          | PDict d =>
                              match full_name d with
                              | PStr full => if String.eqb full "" then None
                                             else Some full
                              | _ => None
                              end
                          | _ => None
                          end) sorted.
Proof.
  eexists. split; [|reflexivity].
  induction sorted as [|[k v] l IH]; [done|].
  unfold repo_items in *. simpl. unfold full_name.
  destruct v as [| | | | |d]; try exact IH.
  destruct (default (PStr "") (d !! "full_name")) as [| | |full| |]; try exact IH.
  destruct (String.eqb full ""); [exact IH|]. simpl. f_equal. exact IH.
Qed.

Lemma repo_keys_strings (ds : list (gmap string pyval)) :
  Forall (λ d, ∃ s, full_name d = PStr s) ds →
  mapM (λ x, k ← repo_key x; Ok (k, x)) (map PDict ds)
  = Ok (map (λ d, (str_lower (key_string (full_name d)), PDict d)) ds).
Proof.
  induction 1 as [|d ds [s Hd] Hall IH]; [done|].
  simpl. rewrite IH. unfold repo_key, py_get_or. simpl.
  fold (full_name d). by rewrite Hd.
Qed.

(** X20: [_on_fetch_repos] with a token, when the repositories come back
    in one page of dictionaries whose [full_name] is a string: the panel's
    list is replaced by the non-empty names, every one of them once, in the
    order of their lower-cased names; the log counts all the repositories
    and the handler returns [True]. *)
Theorem fetch_repos_fills_list (w : world) (fuel : nat)
    (ds : list (gmap string pyval)) (old : list (string * string)) :
  let client := new_client (g_get_str K_GH_TOKEN "" w) in
  g_get_str K_GH_TOKEN "" w ≠ "" →
  ds ≠ [] →
  w_http w (w_sent w) (repos_request client 1)
  = Response (Some (PList (map PDict ds))) →
  w_http w (w_sent w ++ [repos_request client 1]) (repos_request client 2)
  = Response (Some (PList [])) →
  (1 < fuel)%nat →
  Forall (λ d, ∃ s, full_name d = PStr s) ds →
  w_repo_list w = Some old →
  ∃ names w',
    _on_fetch_repos fuel w = (Ok (Some true), w')
    ∧ w_repo_list w' = Some (map (λ s, (s, s)) names)
    ∧ names ≡ₚ filter (λ s, s ≠ "") (map (λ d, key_string (full_name d)) ds)
    ∧ ascending (map str_lower names)
    ∧ last (w_log w')
      = Some (LOG_INFO, "Loaded " +:+ pretty (length ds) +:+ " repos.").
Proof.
  intros client Htok Hds H1 H2 Hfuel Hall Hold.
  set (keyed := map (λ d, (str_lower (key_string (full_name d)), PDict d)) ds).
  destruct (repo_items_names (sort_asc keyed)) as (names & Hitems & Hnames).
  destruct (sort_asc_sorted keyed) as [Hperm Hsorted].
  set (w1 := foldl (λ w r, add_sent r w) w (map (repos_request client) (seq 1 2))).
  exists names,
    (add_log LOG_INFO ("Loaded " +:+ pretty (length (map PDict ds)) +:+ " repos.")
       (set_repo_list (repo_items (sort_asc keyed)) (set_repo_list [] w1))).
  split_and!.
  - unfold _on_fetch_repos, try_except, fetch_repos_body.
    rewrite bind_ask. apply String.eqb_neq in Htok. rewrite Htok.
    fold client. unfold bind at 1. unfold list_user_repos.
    rewrite (list_user_repos_from_pages client
               (λ k, if Nat.eqb k 1 then map PDict ds else []) 1 fuel 1 [] w).
    + fold w1. simpl concat. rewrite app_nil_r. simpl app.
      unfold bind at 1, ask at 1.
      change (w_repo_list w1) with (w_repo_list w). rewrite Hold.
      unfold bind at 1. unfold bind at 1.
      unfold bind at 1, ask_result at 1. rewrite (repo_keys_strings ds Hall).
      fold keyed. unfold bind at 1, info, _log. done.
    + intros [|[|j]] Hj; [simpl; rewrite app_nil_r; exact H1|exact H2|lia].
    + intros k Hk. assert (k = 1) as -> by lia. simpl. by destruct ds.
    + done.
    + done.
  - simpl. by rewrite Hitems.
  - rewrite Hnames, Hperm. unfold keyed. clear -Hall.
    induction Hall as [|d ds [s Hd] Hall IH]; [done|].
    simpl. rewrite Hd. simpl. rewrite filter_cons.
    destruct (String.eqb s "") eqn:E.
    + apply String.eqb_eq in E as ->. rewrite decide_False by (by intros []).
      exact IH.
    + apply String.eqb_neq in E. rewrite decide_True by done. by rewrite IH.
  - rewrite Hnames. apply (ascending_omap fst); [|exact Hsorted].
    apply (Permutation_Forall (Permutation_sym Hperm)).
    unfold keyed. apply List.Forall_map. clear -Hall.
    eapply Forall_impl; [exact Hall|]. intros d [s Hd] t. simpl. rewrite Hd.
    destruct (String.eqb s ""); [done|]. by intros [= <-].
  - simpl w_log. rewrite last_snoc, length_map. done.
Qed.


(** X18: one step of the restore.  With a regular file on the way to the
    destination the step raises and the disk is as before; otherwise it
    ends well, the destination is a file with the bytes of the pair, what
    was at or below the destination is gone, the directories on the way are
    there, and every other path is as before. *)
Theorem write_pair_outcome (cfg p : path) (data : bytes) (w : world) :
  p ≠ [] → Forall (λ s, valid_name s = true) p →
  (∀ q d, q `prefix_of` (cfg ++ p) → q ≠ cfg ++ p →
          entry_at (w_fs w) q = Some (Some d) →
          ∃ e, write_pair cfg (pair_of (p, data)) w = (Raise e, w))
  ∧ ((∀ q d, q `prefix_of` (cfg ++ p) → q ≠ cfg ++ p →
             entry_at (w_fs w) q ≠ Some (Some d)) →
     ∃ t', write_pair cfg (pair_of (p, data)) w = (Ok tt, set_fs t' w)
           ∧ ∀ x, entry_at t' x
                  = if bool_decide (x = cfg ++ p) then Some (Some data)
                    else if bool_decide ((cfg ++ p) `prefix_of` x) then None
                    else if bool_decide (x `prefix_of` (cfg ++ p)) then Some None
                    else entry_at (w_fs w) x).
Proof.
  intros Hne Hval. split.
  - intros q d Hq Hneq E. by eapply write_pair_blocked.
  - intros Hfree. by apply write_pair_run.
Qed.

Lemma write_pair_outcome_witness :
  ∃ t', write_pair ["c"] (PStr "d", [x61]) occupied_dest = (Ok tt, set_fs t' occupied_dest)
        ∧ entry_at t' ["c"; "d"] = Some (Some [x61])
        ∧ entry_at t' ["c"; "d"; "x"] = None
        ∧ entry_at t' ["c"] = Some None.
Proof.
  destruct (proj2 (write_pair_outcome ["c"] ["d"] [x61] occupied_dest ltac:(discriminate)
              ltac:(by repeat constructor)))
    as (t' & Hrun & E).
  { intros q d [r Hr] Hneq.
    destruct q as [|c1 [|c2 [|c3 q]]]; simpl in Hr.
    - vm_compute. discriminate.
    - injection Hr as <- _. vm_compute. discriminate.
    - injection Hr as <- <- Hr. by destruct Hneq.
    - discriminate Hr. }
  exists t'. split; [exact Hrun|]. rewrite !E. by vm_compute.
Defined.

Lemma restore_writes_bundle_witness :
  ∃ w2, _restore_from_folder ["bk"] absent_config = (Ok tt, w2)
        ∧ file_at (w_fs w2) ["home"; "u"; ".config"; "obs-studio"; "basic.ini"]
          = Some [x61].
Proof.
  destruct (restore_writes_bundle absent_config ["home"; "u"; ".config"; "obs-studio"]
              ["bk"] {[ "basic.ini" := File [x61] ]}
              eq_refl eq_refl eq_refl eq_refl eq_refl)
    as (w2 & Hrun & Hfiles & _).
  { intros p d q _ _ _ _. reflexivity. }
  exists w2. split; [exact Hrun|].
  apply (Hfiles ["basic.ini"]). reflexivity.
Defined.

Lemma remote_restore_never_selected_witness :
  do_restore_remote bar_steps 3
    (after_calls [ScriptUpdate {[ K_GH_TOKEN := SStr "t";
                                  K_GH_REPO_SELECT := SStr "u/a" ]};
                  RefreshRemote] one_file_remote)
  = (Ok (Some false),
     add_log LOG_ERROR "Remote restore failed: Token, repo, and selection required."
       (after_calls [ScriptUpdate {[ K_GH_TOKEN := SStr "t";
                                     K_GH_REPO_SELECT := SStr "u/a" ]};
                     RefreshRemote] one_file_remote)).
Proof. exact (remote_restore_never_selected _ one_file_remote 3 eq_refl). Defined.

Lemma remote_restore_downloads_first_witness :
  w_fs (do_restore_remote bar_steps 3
          (remote_world
             (<[K_GH_TOKEN := SStr "t"]> (<[K_GH_REPO_SELECT := SStr "u/a"]>
               (<[K_REMOTE_SELECT := SStr "b"]> ∅)))
             (λ _ _, HTTPFailure 500 None "HTTP Error 500"))).2
  = ∅.
Proof.
  apply (remote_restore_downloads_first
           (remote_world
             (<[K_GH_TOKEN := SStr "t"]> (<[K_GH_REPO_SELECT := SStr "u/a"]>
               (<[K_REMOTE_SELECT := SStr "b"]> ∅)))
             (λ _ _, HTTPFailure 500 None "HTTP Error 500")) 3).
  intros pair pairs. vm_compute. discriminate.
Defined.

Lemma list_user_repos_concatenates_witness :
  (list_user_repos 5 (new_client "t") three_pages).1 = Ok (Some [PStr "a"; PStr "b"; PStr "c"])
  ∧ length (w_sent (list_user_repos 5 (new_client "t") three_pages).2) = 3.
Proof.
  destruct (list_user_repos_concatenates (new_client "t")
              (λ k, match k with
                    | 1 => [PStr "a"; PStr "b"] | 2 => [PStr "c"] | _ => []
                    end) 2 5 three_pages) as [H1 H2].
  - intros [|[|[|j]]] Hj; [reflexivity..|lia].
  - intros [|[|[|k]]] Hk; [lia|done|done|lia].
  - reflexivity.
  - lia.
  - split; [exact H1|]. rewrite H2. reflexivity.
Defined.

Lemma upload_path_round_trip_witness :
  remote_rel (rstrip_slash (_gh_join ["/obs-backups/"; "obs-config-pc-20240101-000000"])
              +:+ "/obs-studio")
    (_gh_join [_gh_join ["/obs-backups/"; "obs-config-pc-20240101-000000"; "obs-studio"];
               as_posix ["basic"; "scene.json"]])
  = as_posix ["basic"; "scene.json"].
Proof.
  apply (upload_path_round_trip "/obs-backups/" "obs-config-pc-20240101-000000"
           ["basic"; "scene.json"]); [discriminate|by repeat constructor].
Defined.


Lemma walker_yields_exactly_witness :
  ∃ items,
    iter_obs_files false false nested_logs = Ok items
    ∧ ("basic/scene.json", ["home"; "u"; ".config"; "obs-studio"; "basic"; "scene.json"])
      ∈ items.
Proof.
  destruct (walker_yields_exactly false false nested_logs
              ["home"; "u"; ".config"; "obs-studio"]
              (Dir (<["basic" := Dir (<["logs" := Dir {[ "x.txt" := File [x62] ]}]>
                                      {[ "scene.json" := File [x63] ]})]>
                    {[ "logs" := Dir {[ "a.log" := File [x64] ]} ]}))
              eq_refl eq_refl)
    as (items & Hit & _ & _ & Hiff).
  exists items. split; [exact Hit|].
  apply (Hiff ["basic"; "scene.json"]). clear Hiff Hit. split_and!.
  - discriminate.
  - exists [x63]. reflexivity.
  - reflexivity.
  - reflexivity.
  - intros ds d rest Heq Hrest.
    destruct ds as [|d1 [|d2 ds]]; simpl in Heq.
    + injection Heq as <- <-. split; [reflexivity|].
      intros ex Hex. apply excluded_dirs_elems in Hex.
      destruct Hex as [->|[->|[->| ->]]];
        (split; [discriminate|split; [discriminate|reflexivity]]).
    + injection Heq as _ _ <-. by destruct Hrest.
    + injection Heq as _ _ Heq. destruct ds; discriminate Heq.
Defined.

Lemma operations_refuse_without_settings_witness :
  do_refresh_remote bar_steps (linux_world ∅)
  = (Ok false,
     add_log LOG_ERROR "Refresh failed: GitHub token and repo required."
       (linux_world ∅)).
Proof.
  exact (proj1 (proj2 (proj2 (operations_refuse_without_settings bar_steps
                                (linux_world ∅))) (or_introl eq_refl))).
Defined.

Lemma refresh_sorts_newest_first_witness :
  ∃ files w',
    do_refresh_remote bar_steps listing_world = (Ok true, w')
    ∧ w_remote_files w' = map PDict files
    ∧ length files = 2
    ∧ descending (map (λ d, key_string (item_name d)) files).
Proof.
  destruct (refresh_sorts_newest_first listing_world
              [ <["type" := PStr "dir"]> (<["name" := PStr "obs-config-pc-1"]> ∅);
                <["type" := PStr "file"]> (<["name" := PStr "readme"]> ∅);
                <["type" := PStr "dir"]> (<["name" := PStr "obs-config-pc-2"]> ∅) ])
    as (files & w' & Hrun & Hfiles & Hperm & Hdesc & _).
  - vm_compute. discriminate.
  - vm_compute. discriminate.
  - reflexivity.
  - repeat constructor; eexists; vm_compute; reflexivity.
  - exists files, w'. split_and!; try done.
    apply Permutation_length in Hperm. rewrite Hperm. reflexivity.
Defined.

Lemma local_backup_writes_bundle_only_witness :
  ∃ w1,
    create_local_backup_folder ["backups"] false false nested_logs
    = (Ok ["backups"; "obs-config-pc-20240101-000000"], w1)
    ∧ entry_at (w_fs w1) ["home"; "u"; ".config"; "obs-studio"; "logs"; "a.log"]
      = Some (Some [x64])
    ∧ entry_at (w_fs w1) ["elsewhere"] = None.
Proof.
  assert (¬ ["home"; "u"; ".config"; "obs-studio"]
            `prefix_of` bundle_root ["backups"] nested_logs) as Hout.
  { intros [k Hk]. vm_compute in Hk. discriminate Hk. }
  destruct (local_backup_writes_bundle_only nested_logs
              ["home"; "u"; ".config"; "obs-studio"] ["backups"] false false
              [("basic/scene.json",
                ["home"; "u"; ".config"; "obs-studio"; "basic"; "scene.json"])]
              eq_refl eq_refl eq_refl eq_refl eq_refl eq_refl eq_refl Hout)
    as (w1 & Hrun & Hcfg & Hframe & _).
  exists w1. split; [exact Hrun|]. split.
  - etrans; [exact (Hcfg ["logs"; "a.log"])|reflexivity].
  - etrans; [apply Hframe|reflexivity].
    + intros [k Hk]. vm_compute in Hk. discriminate Hk.
    + intros [k Hk]. vm_compute in Hk. discriminate Hk.
Defined.

Lemma github_backup_uploads_every_file_witness :
  ∃ w',
    do_backup_now bar_steps (github_world (λ _ _, Response (Some (PDict ∅))))
    = (Ok true, w')
    ∧ length (w_sent w') = 1
    ∧ last (w_log w')
      = Some (LOG_INFO,
              "Upload complete. 1 files to u/a/obs-backups/obs-config-pc-20240101-000000/obs-studio").
Proof.
  destruct (github_backup_uploads_every_file
              (github_world (λ _ _, Response (Some (PDict ∅))))
              (λ _, Response (Some (PDict ∅)))
              [("basic.ini", ["home"; "u"; ".config"; "obs-studio"; "basic.ini"])])
    as (w' & Hrun & Hsent & _ & Hlog).
  - vm_compute. discriminate.
  - vm_compute. discriminate.
  - vm_compute. discriminate.
  - reflexivity.
  - reflexivity.
  - repeat constructor. by eexists.
  - exists w'. split; [exact Hrun|]. split; [by rewrite Hsent|].
    rewrite Hlog. reflexivity.
Defined.

Lemma github_backup_stops_at_refusal_witness :
  ∃ w',
    do_backup_now bar_steps
      (github_world (λ _ _, HTTPFailure 422 None "HTTP Error 422"))
    = (Ok false, w')
    ∧ length (w_sent w') = 1
    ∧ last (w_log w')
      = Some (LOG_ERROR, "Backup failed: GitHub upload failed: 422 HTTP Error 422").
Proof.
  destruct (github_backup_stops_at_refusal
              (github_world (λ _ _, HTTPFailure 422 None "HTTP Error 422"))
              (λ _, HTTPFailure 422 None "HTTP Error 422")
              [] []
              ("basic.ini", ["home"; "u"; ".config"; "obs-studio"; "basic.ini"])
              422 None "HTTP Error 422")
    as (w' & Hrun & Hsent & _ & Hlog).
  - vm_compute. discriminate.
  - vm_compute. discriminate.
  - vm_compute. discriminate.
  - reflexivity.
  - reflexivity.
  - constructor.
  - reflexivity.
  - exists w'. split; [exact Hrun|]. split; [by rewrite Hsent|].
    rewrite Hlog. reflexivity.
Defined.

Lemma zip_restore_replaces_top_entries_witness :
  ∃ t',
    (unpack_zip ["home"; "u"; ".config"; "obs-studio"] ["bk.zip"] zip_world).1 = Ok tt
    ∧ (unpack_zip ["home"; "u"; ".config"; "obs-studio"] ["bk.zip"] zip_world).2.(w_fs) = t'
    ∧ lookup_path t' ["home"; "u"; ".config"; "obs-studio"; "basic.ini"]
      = Some (File [x62])
    ∧ lookup_path t' ["home"; "u"; ".config"; "obs-studio"; "global.ini"]
      = lookup_path (w_fs zip_world) ["home"; "u"; ".config"; "obs-studio"; "global.ini"]
    ∧ path_exists t' ["tmp"; "t1"] = false.
Proof.
  destruct (zip_restore_replaces_top_entries
              ["home"; "u"; ".config"; "obs-studio"] ["bk.zip"] zip_world [x50]
              {[ "obs-studio" := Dir {[ "basic.ini" := File [x62] ]} ]}
              {[ "basic.ini" := File [x62] ]})
    as (t' & Hrun & Hnew & Hold & Hgone).
  - reflexivity.
  - reflexivity.
  - reflexivity.
  - reflexivity.
  - reflexivity.
  - intros [k Hk]. vm_compute in Hk. discriminate Hk.
  - left. reflexivity.
  - intros x [c Hx]. apply lookup_singleton_Some in Hx as [<- _]. reflexivity.
  - exists t'. rewrite Hrun. split; [reflexivity|]. split; [reflexivity|].
    split; [|split].
    + apply (Hnew "basic.ini" (File [x62]) []). reflexivity.
    + apply (Hold "global.ini" []). reflexivity.
    + exact Hgone.
Defined.

Lemma bad_zip_leaves_config_witness :
  ∃ t',
    unpack_zip ["home"; "u"; ".config"; "obs-studio"] ["bk.zip"] bad_zip_world
    = (Raise (OSError "File is not a zip file"), set_fs t' bad_zip_world)
    ∧ lookup_path t' ["home"; "u"; ".config"; "obs-studio"; "basic.ini"]
      = Some (File [x61])
    ∧ path_exists t' ["tmp"; "t1"] = false.
Proof.
  destruct (bad_zip_leaves_config
              ["home"; "u"; ".config"; "obs-studio"] ["bk.zip"] bad_zip_world [x50]
              (OSError "File is not a zip file"))
    as (t' & Hrun & Hsame & Hgone).
  - reflexivity.
  - reflexivity.
  - reflexivity.
  - reflexivity.
  - reflexivity.
  - intros [k Hk]. vm_compute in Hk. discriminate Hk.
  - exists t'. split; [exact Hrun|]. split; [|exact Hgone].
    etrans; [exact (Hsame ["basic.ini"])|reflexivity].
Defined.

Lemma fetch_repos_fills_list_witness :
  ∃ names w',
    _on_fetch_repos 3 repos_world = (Ok (Some true), w')
    ∧ w_repo_list w' = Some (map (λ s, (s, s)) names)
    ∧ length names = 2
    ∧ ascending (map str_lower names)
    ∧ last (w_log w') = Some (LOG_INFO, "Loaded 3 repos.").
Proof.
  destruct (fetch_repos_fills_list repos_world 3
              [ {[ "full_name" := PStr "b/x" ]};
                {[ "full_name" := PStr "" ]};
                {[ "full_name" := PStr "A/y" ]} ] [])
    as (names & w' & Hrun & Hlist & Hperm & Hasc & Hlog).
  - vm_compute. discriminate.
  - discriminate.
  - reflexivity.
  - reflexivity.
  - lia.
  - repeat constructor; eexists; vm_compute; reflexivity.
  - reflexivity.
  - exists names, w'. split; [exact Hrun|]. split; [exact Hlist|].
    split; [|split; [exact Hasc|exact Hlog]].
    apply Permutation_length in Hperm. rewrite Hperm. reflexivity.
Defined.

